(** * Detective / Security Lake integration: the four custom-resource handlers

    A shallow embedding of the four CloudFormation custom-resource Lambdas
    of this repository, and the properties of their create and delete paths:

    - [ResourceShareAcceptor]  the handler that accepts the RAM invitation
                               (ShareAcceptor),
    - [GlueDatabase]           the handler that mirrors the shared Glue
                               database (CatalogDatabaseProvisioner),
    - [GlueTables]             glue-table-custom-resource/index.mjs
                               (TablePermissionGranter),
    - [SsmParameters]          ssm-parameter-custom-resource/index.mjs
                               (ParameterPublisher).

    Every handler is a sequence of awaited SDK calls.  The embedding threads
    an explicit machine state (the history of SDK calls with their answers,
    and the lines written with console.error) through a small state and
    exception monad; the AWS services are an arbitrary deterministic
    environment that answers each call from the history so far. *)

From Stdlib Require Import Ascii String.
From stdpp Require Import gmap strings list fin_maps.

Local Open Scope string_scope.
Local Open Scope list_scope.

(** * JavaScript strings and regular expressions *)

(** A string is a sequence of code units.  [ascii] stands for the code
    units below 256, so the two line terminators U+2028 and U+2029 are not
    representable: [.] excludes line feed and carriage return. *)

Module RegExp.

Inductive regex : Type :=
| Eps
| Lit (c : ascii)
| Class (p : ascii → bool)
| Seq (r1 r2 : regex)
| Repeat (min : nat) (max : option nat) (greedy : bool) (r : regex)
| Group (n : nat) (r : regex)
| Bol
| Eol.

(** The match state of the ECMAScript pattern semantics: the end index,
    the input that remains, and the captures. *)
Record state := State {
  endIndex : nat;
  rest : list ascii;
  captures : gmap nat string
}.

Definition cont := state → option state.

Definition advance (x : state) (t : list ascii) : state :=
  State (S (endIndex x)) t (captures x).

Definition capture (n : nat) (x y : state) : state :=
  State (endIndex y) (rest y)
        (<[n := string_of_list_ascii (take (endIndex y - endIndex x) (rest x))]> (captures y)).

(** RepeatMatcher of the language specification.  An iteration of the
    optional part that consumes nothing fails, so the recursion is bounded
    by [min + length rest]; the bound is passed as fuel.  The captures of
    the repeated pattern are kept from one iteration to the next: no
    pattern of the repository reads a capture that is set inside a
    repetition. *)
Fixpoint RepeatMatcher (m : state → cont → option state) (fuel : nat)
         (min : nat) (max : option nat) (greedy : bool)
         (x : state) (c : cont) {struct fuel} : option state :=
  match fuel with
  | 0 => None
  | S fuel' =>
      match max with
      | Some 0 => c x
      | _ =>
          let d := fun y =>
            if Nat.eqb min 0 && Nat.eqb (endIndex y) (endIndex x) then None
            else RepeatMatcher m fuel' (pred min) (pred <$> max) greedy y c in
          if negb (Nat.eqb min 0) then m x d
          else if greedy then
            match m x d with Some z => Some z | None => c x end
          else
            match c x with Some z => Some z | None => m x d end
      end
  end.

Fixpoint matcher (r : regex) (x : state) (c : cont) {struct r} : option state :=
  match r with
  | Eps => c x
  | Lit a =>
      match rest x with
      | b :: t => if Ascii.eqb a b then c (advance x t) else None
      | [] => None
      end
  | Class p =>
      match rest x with
      | b :: t => if p b then c (advance x t) else None
      | [] => None
      end
  | Seq r1 r2 => matcher r1 x (fun y => matcher r2 y c)
  | Repeat min max greedy r1 =>
      RepeatMatcher (matcher r1) (min + length (rest x) + 1) min max greedy x c
  | Group n r1 => matcher r1 x (fun y => c (capture n x y))
  | Bol => if Nat.eqb (endIndex x) 0 then c x else None
  | Eol => match rest x with [] => c x | _ => None end
  end.

(** RegExpBuiltinExec without the global and sticky flags: the first
    index, from 0, at which the pattern matches. *)
Fixpoint search (r : regex) (i : nat) (s : list ascii) : option state :=
  match matcher r (State i s ∅) Some with
  | Some y => Some y
  | None => match s with [] => None | _ :: t => search r (S i) t end
  end.

Definition exec (r : regex) (s : string) : option (gmap nat string) :=
  captures <$> search r 0 (list_ascii_of_string s).

Definition test (r : regex) (s : string) : bool :=
  bool_decide (is_Some (exec r s)).

(** Pattern syntax. *)
Fixpoint lit (s : string) : regex :=
  match s with
  | EmptyString => Eps
  | String a s' => Seq (Lit a) (lit s')
  end.

Definition plus (r : regex) : regex := Repeat 1 None true r.

Definition between (lo hi : string) (a : ascii) : bool :=
  match lo, hi with
  | String l _, String h _ =>
      (N.leb (N_of_ascii l) (N_of_ascii a)) && (N.leb (N_of_ascii a) (N_of_ascii h))
  | _, _ => false
  end.

Definition chr (c : string) (a : ascii) : bool :=
  match c with String b _ => Ascii.eqb a b | _ => false end.

Definition digit : ascii → bool := between "0" "9".
Definition lower : ascii → bool := between "a" "z".
Definition word (a : ascii) : bool :=
  between "a" "z" a || between "A" "Z" a || between "0" "9" a || chr "_" a.
Definition dot (a : ascii) : bool :=
  negb (Ascii.eqb a "010"%char) && negb (Ascii.eqb a "013"%char).
Definition non (c : string) (a : ascii) : bool := negb (chr c a).

End RegExp.

Import RegExp.

(** ToString on a value that is a string or undefined. *)
Definition ToString (v : option string) : string :=
  match v with Some s => s | None => "undefined" end.

(** String.prototype.split with a one-character separator. *)
Fixpoint split_from (sep : ascii) (cur : list ascii) (s : list ascii) : list string :=
  match s with
  | [] => [string_of_list_ascii (rev cur)]
  | a :: t =>
      if Ascii.eqb a sep then string_of_list_ascii (rev cur) :: split_from sep [] t
      else split_from sep (a :: cur) t
  end.

Definition split (sep : ascii) (s : string) : list string :=
  split_from sep [] (list_ascii_of_string s).

(** Array.prototype.join. *)
Fixpoint join (sep : string) (l : list string) : string :=
  match l with
  | [] => EmptyString
  | [s] => s
  | s :: l' => s +:+ sep +:+ join sep l'
  end.

(** [[...new Set(l)]]: a Set keeps its elements in insertion order, so the
    first occurrence of each element stays. *)
Section SetOf.
Context {A : Type} `{EqDecision A}.

Definition Set_add (s : list A) (x : A) : list A :=
  if decide (x ∈ s) then s else s ++ [x].

Definition new_Set (l : list A) : list A := foldl Set_add [] l.
End SetOf.

(** * The patterns of the repository *)

(** [^arn:aws[-\w]{0,10}?:] *)
Definition arn_prefix : regex :=
  Seq Bol (Seq (lit "arn:aws")
    (Seq (Repeat 0 (Some 10) false (Class (fun a => chr "-" a || word a))) (lit ":"))).

(** RESOURCE_SHARE_ARN_REGEX, and RESOURCE_SHARE_ARN_PARAMETER.AllowedPattern:
    [^arn:aws[-\w]{0,10}?:ram:.+] *)
Definition RESOURCE_SHARE_ARN_REGEX : regex :=
  Seq arn_prefix (Seq (lit "ram:") (plus (Class dot))).

(** [/^arn:aws[-\w]{0,10}?:ram:([^:]+):.+/] *)
Definition RESOURCE_SHARE_REGION_REGEX : regex :=
  Seq arn_prefix (Seq (lit "ram:")
    (Seq (Group 1 (plus (Class (non ":")))) (Seq (lit ":") (plus (Class dot))))).

(** [/[a-z]+(-[a-z]+)+-\d/] *)
Definition regionRegex : regex :=
  Seq (plus (Class lower))
    (Seq (plus (Group 1 (Seq (lit "-") (plus (Class lower)))))
      (Seq (lit "-") (Class digit))).

(** [/^arn:aws[-\w]{0,10}?:glue:[^:]+:[^:]+:database\/(.+)$/] *)
Definition DATABASE_NAME_CAPTURE_REGEX : regex :=
  Seq arn_prefix (Seq (lit "glue:")
    (Seq (plus (Class (non ":"))) (Seq (lit ":")
      (Seq (plus (Class (non ":"))) (Seq (lit ":database/")
        (Seq (Group 1 (plus (Class dot))) Eol)))))).

(** [/^arn:aws[-\w]{0,10}?:glue:[^:]+:[^:]+:table\/[^\/]+\/(.+)$/] *)
Definition TABLE_NAME_CAPTURE_REGEX : regex :=
  Seq arn_prefix (Seq (lit "glue:")
    (Seq (plus (Class (non ":"))) (Seq (lit ":")
      (Seq (plus (Class (non ":"))) (Seq (lit ":table/")
        (Seq (plus (Class (non "/"))) (Seq (lit "/")
          (Seq (Group 1 (plus (Class dot))) Eol)))))))).

(** [/^arn:aws[-\w]{0,10}?:cloudformation:[^:]+:(\d{12}):(.+)$/] *)
Definition ACCOUNT_ID_FROM_STACK_REGEX : regex :=
  Seq arn_prefix (Seq (lit "cloudformation:")
    (Seq (plus (Class (non ":"))) (Seq (lit ":")
      (Seq (Group 1 (Repeat 12 (Some 12) true (Class digit))) (Seq (lit ":")
        (Seq (Group 2 (plus (Class dot))) Eol)))))).

(** [/^arn:aws[-\w]{0,10}?:glue:.+:database\/.+/] *)
Definition glueDatabaseRegex : regex :=
  Seq arn_prefix (Seq (lit "glue:")
    (Seq (plus (Class dot)) (Seq (lit ":database/") (plus (Class dot))))).

(** The pattern of validateIAMPrincipal is built from a template literal,
    [`arn:aws[-\w]{0,10}?:iam::${accountId}:.+`].  In a template literal
    [\w] is the letter w, so the class is [[-w]]; the pattern has no anchor.
    The account id is the twelve digits captured from the stack id, which
    stand for themselves in a pattern. *)
Definition iamPrincipalRegex (accountId : string) : regex :=
  Seq (lit "arn:aws")
    (Seq (Repeat 0 (Some 10) false (Class (fun a => chr "-" a || chr "w" a)))
      (Seq (lit (":iam::" +:+ accountId +:+ ":")) (plus (Class dot)))).

(** ATHENA_RESULT_BUCKET_PARAMETER.AllowedPattern:
    [^[a-z0-9][a-z0-9-]{1,61}[a-z0-9]$] *)
Definition bucketRegex : regex :=
  let alnum := fun a => lower a || digit a in
  Seq Bol (Seq (Class alnum)
    (Seq (Repeat 1 (Some 61) true (Class (fun a => alnum a || chr "-" a)))
      (Seq (Class alnum) Eol))).

(** STACK_ID_PARAMETER.AllowedPattern: [.+] *)
Definition stackIdRegex : regex := plus (Class dot).

(** * The runtime: exceptions, SDK calls, the machine *)

Inductive Exception : Type :=
| Error (message : string)
| TypeError (message : string)
| ServiceException (name message : string).

(** [`${exception}`] *)
Definition render (e : Exception) : string :=
  match e with
  | Error m => "Error: " +:+ m
  | TypeError m => "TypeError: " +:+ m
  | ServiceException n m => n +:+ ": " +:+ m
  end.

(** [error instanceof C], for the exception classes of the SDK. *)
Definition instanceof (e : Exception) (class : string) : bool :=
  match e with
  | ServiceException n _ => String.eqb n class
  | _ => false
  end.

(** The reason handed to sendResponse: a string, or a caught exception. *)
Inductive Reason : Type :=
| Text (s : string)
| Caught (e : Exception).

Definition reason_text (r : Reason) : string :=
  match r with Text s => s | Caught e => render e end.

(** !!v on a value that is a string or undefined. *)
Definition truthy (v : option string) : bool :=
  match v with Some s => negb (String.eqb s EmptyString) | None => false end.

(** ** Values exchanged with the services *)

Record DataLakePrincipal := {
  DataLakePrincipalIdentifier : option string
}.

(** A field of the data lake settings: a list of principals, or any other
    JSON value, kept as it is. *)
Inductive Value : Type :=
| Principals (l : list DataLakePrincipal)
| Opaque (json : string).

(** The settings object, a map from field names to values. *)
Abbreviation DataLakeSettings := (gmap string Value).

Record Resource := { arn : option string }.

Record ResourceShareInvitation := {
  status : option string;
  resourceShareInvitationArn : option string
}.

Inductive Service : Type := RAM | Glue | LakeFormation | SSM.

Record Client := { service : Service; region : option string }.

Inductive Command : Type :=
| ListResourcesCommand (resourceOwner : string) (resourceShareArns : list (option string))
                       (resourceType : option string)
| GetResourceShareInvitationsCommand (resourceShareArns : list (option string))
| AcceptResourceShareInvitationCommand (resourceShareInvitationArn : option string)
| CreateDatabaseCommand (Name : option string) (CatalogId : option string)
                        (DatabaseName : option string)
| GetDataLakeSettingsCommand
| PutDataLakeSettingsCommand (settings : DataLakeSettings)
| GrantPermissionsCommand (principal : string) (DatabaseName : option string)
                          (Permissions : list string)
| PutParameterCommand (Name Description : string) (Value : option string)
                      (Type_ AllowedPattern Tier : string)
| DeleteParametersCommand (Names : list string)
| GetParameterCommand (Name : string).

Inductive Response : Type :=
| Rejected (name message : string)
| ListResourcesResponse (resources : list Resource)
| GetResourceShareInvitationsResponse (invitations : list ResourceShareInvitation)
| GetDataLakeSettingsResponse (settings : DataLakeSettings)
| GetParameterResponse (Value : option string)
| EmptyResponse.

Definition Request : Type := Client * Command.

Definition History : Type := list (Request * Response).

(** The services: any deterministic environment.  The answer to a call may
    depend on every call made before it. *)
Record World := {
  respond : History → Request → Response;
  AWS_REGION : option string
}.

Record Machine := {
  history : History;
  stderr : list string
}.

(** ** The monad of handler code *)

Definition M (A : Type) : Type := World → Machine → (Exception + A) * Machine.

Definition ret {A} (a : A) : M A := fun _ s => (inr a, s).

Definition bind {A B} (m : M A) (f : A → M B) : M B :=
  fun w s =>
    match m w s with
    | (inl e, s') => (inl e, s')
    | (inr a, s') => f a w s'
    end.

Definition throw {A} (e : Exception) : M A := fun _ s => (inl e, s).

Definition try_catch {A} (m : M A) (h : Exception → M A) : M A :=
  fun w s =>
    match m w s with
    | (inl e, s') => h e w s'
    | (inr a, s') => (inr a, s')
    end.

Declare Scope js_scope.
Delimit Scope js_scope with js.
Notation "x <- m ;; k" := (bind m (fun x => k))
  (at level 20, m at level 99, k at level 200, only parsing) : js_scope.
Notation "m ;; k" := (bind m (fun _ => k))
  (at level 100, k at level 200, only parsing, right associativity) : js_scope.
Local Open Scope js_scope.

(** [await client.send(command)]: the call and its answer are appended to
    the history; a rejected promise throws. *)
Definition send (client : Client) (command : Command) : M Response :=
  fun w s =>
    let r := respond w (history s) (client, command) in
    let s' := {| history := history s ++ [((client, command), r)]; stderr := stderr s |} in
    match r with
    | Rejected n m => (inl (ServiceException n m), s')
    | _ => (inr r, s')
    end.

(** [console.error(line)].  The lines written with console.log are not
    recorded.  An exception that is written is recorded as its rendering
    [`${exception}`]. *)
Definition console_error (line : string) : M unit :=
  fun _ s => (inr tt, {| history := history s; stderr := stderr s ++ [line] |}).

Definition process_env_AWS_REGION : M (option string) :=
  fun w s => (inr (AWS_REGION w), s).

(** Reading a property of undefined throws. *)
Definition deref {A} (o : option A) : M A :=
  match o with
  | Some a => ret a
  | None => throw (TypeError "Cannot read properties of undefined")
  end.

(** [for (const x of l) { body }] *)
Fixpoint for_of {A} (l : list A) (body : A → M unit) : M unit :=
  match l with
  | [] => ret tt
  | x :: l' => body x ;; for_of l' body
  end.

(** Fields of an answer; absent fields are undefined. *)
Definition resources_of (r : Response) : option (list Resource) :=
  match r with ListResourcesResponse l => Some l | _ => None end.

Definition resourceShareInvitations_of (r : Response) : option (list ResourceShareInvitation) :=
  match r with GetResourceShareInvitationsResponse l => Some l | _ => None end.

Definition DataLakeSettings_of (r : Response) : option DataLakeSettings :=
  match r with GetDataLakeSettingsResponse s => Some s | _ => None end.

Definition Parameter_of (r : Response) : option (option string) :=
  match r with GetParameterResponse v => Some v | _ => None end.

(** ** The invocation event and the response *)

(** The LakeFormationPrincipals property: absent, a string, or an array.
    The template declares the parameter as a CommaDelimitedList, so the
    elements of an array are strings. *)
Inductive PrincipalsValue : Type :=
| PUndefined
| PString (s : string)
| PArray (l : list string).

(** Array.isArray *)
Definition isArray (v : PrincipalsValue) : bool :=
  match v with PArray _ => true | _ => false end.

(** The elements of a value that is an array. *)
Definition elements (v : PrincipalsValue) : list string :=
  match v with PArray l => l | _ => [] end.

Record Properties := {
  ResourceShareArn : option string;
  LakeFormationPrincipals : PrincipalsValue;
  LambdaRoleArn : option string;
  DTRegion : option string;
  AthenaResultsBucket : option string;
  StackIdProperty : option string
}.

Record Event := {
  RequestType : string;
  ResourceProperties : Properties;
  StackId : option string;
  RequestId : option string;
  LogicalResourceId : option string;
  PhysicalResourceId : option string
}.

Record Context := {
  logGroupName : string;
  logStreamName : string
}.

(** The body that sendResponse puts to the pre-signed URL ([Data] is the
    empty object).  The delivery of the body is outside the embedding: a
    handler returns the body it sends. *)
Record ResponseBody := {
  Status : string;
  ReasonText : string;
  PhysicalId : string;
  BodyStackId : option string;
  BodyRequestId : option string;
  BodyLogicalResourceId : option string
}.

Definition composeReason (context : Context) (reason : option Reason) : M string :=
  region <- process_env_AWS_REGION ;;
  let cwLogUrl :=
    "https://console.aws.amazon.com/cloudwatch/home?region=" +:+ ToString region
    +:+ "#logEventViewer:group=" +:+ logGroupName context
    +:+ ";stream=" +:+ logStreamName context in
  let cwLogStreamMessage := "See the details in CloudWatch Log Stream: " +:+ cwLogUrl in
  ret (match reason with
       | Some r => reason_text r +:+ " " +:+ cwLogStreamMessage
       | None => cwLogStreamMessage
       end).

(** sendResponse of the GlueDatabase handler; the other three pass no
    physical resource id. *)
Definition sendResponse_with (event : Event) (context : Context) (responseStatus : string)
           (physicalResourceId : option string) (reason : option Reason) : M ResponseBody :=
  text <- composeReason context reason ;;
  ret {| Status := responseStatus;
         ReasonText := text;
         PhysicalId := default (logStreamName context) physicalResourceId;
         BodyStackId := StackId event;
         BodyRequestId := RequestId event;
         BodyLogicalResourceId := LogicalResourceId event |}.

Definition sendResponse (event : Event) (context : Context) (responseStatus : string)
           (reason : option Reason) : M ResponseBody :=
  sendResponse_with event context responseStatus None reason.

(** * ResourceShareAcceptor: accept the invitation of a resource share *)

Module ResourceShareAcceptor.

(** ResourceShareInvitationStatus of the SDK. *)
Definition PENDING : string := "PENDING".
Definition ACCEPTED : string := "ACCEPTED".
Definition REJECTED : string := "REJECTED".
Definition EXPIRED : string := "EXPIRED".

Definition validateResourceShareArn (arn : option string) : M unit :=
  if negb (test RESOURCE_SHARE_ARN_REGEX (ToString arn))
  then throw (Error "Invalid ResourceShareArn.")
  else ret tt.

Definition getResourceShareArn (event : Event) : M (option string) :=
  let resourceShareArn := ResourceShareArn (ResourceProperties event) in
  validateResourceShareArn resourceShareArn ;;
  ret resourceShareArn.

Definition validateRegion (region : option string) : M unit :=
  if negb (test regionRegex (ToString region))
  then throw (Error ("Invalid region: " +:+ ToString region +:+ "."))
  else ret tt.

(** A match has the whole match and one group, so the test on the length
    of [captured] never fires. *)
Definition getResourceShareRegion (resourceShareArn : option string) : M (option string) :=
  match exec RESOURCE_SHARE_REGION_REGEX (ToString resourceShareArn) with
  | None => throw (Error "Could not parse region from resource share arn.")
  | Some captured =>
      let region := captured !! 1 in
      validateRegion region ;;
      ret region
  end.

Definition constructRAMClient (region : option string) : Client :=
  {| service := RAM; region := region |}.

Definition resourceShareAlreadyAccepted (ramClient : Client)
           (resourceShareArn : option string) : M bool :=
  response <- send ramClient (ListResourcesCommand "OTHER-ACCOUNTS" [resourceShareArn] None) ;;
  resources <- deref (resources_of response) ;;
  if Nat.eqb (length resources) 0 then ret false else ret true.

Definition getInvitation (ramClient : Client) (resourceShareArn : option string)
  : M (option string * option string) :=
  response <- send ramClient (GetResourceShareInvitationsCommand [resourceShareArn]) ;;
  resourceShareInvitations <- deref (resourceShareInvitations_of response) ;;
  let first := head resourceShareInvitations in
  if Nat.ltb 0 (length resourceShareInvitations)
     && truthy (first ≫= resourceShareInvitationArn)
  then ret (first ≫= status, first ≫= resourceShareInvitationArn)
  else
    accepted <- resourceShareAlreadyAccepted ramClient resourceShareArn ;;
    if accepted then ret (Some ACCEPTED, None)
    else throw (Error "Invalid ResourceShareArn: ResourceShareInvitationArn not found.").

Definition acceptInvitation (ramClient : Client) (inviteArn : option string) : M unit :=
  try_catch
    (send ramClient (AcceptResourceShareInvitationCommand inviteArn) ;; ret tt)
    (fun error =>
       if instanceof error "ResourceShareInvitationAlreadyAcceptedException"
       then ret tt
       else throw error).

Definition handleInvitation (ramClient : Client)
           (invitationStatus invitationArn : option string) : M unit :=
  if bool_decide (invitationStatus = Some PENDING) then
    acceptInvitation ramClient invitationArn
  else if bool_decide (invitationStatus = Some EXPIRED) then
    throw (Error "Invitation has expired.")
  else if bool_decide (invitationStatus = Some ACCEPTED) then
    ret tt
  else if bool_decide (invitationStatus = Some REJECTED) then
    throw (Error "Invitation has already been rejected.")
  else ret tt.

Definition startCreate (event : Event) (context : Context) : M (string * option Reason) :=
  try_catch
    (resourceShareArn <- getResourceShareArn event ;;
     region <- getResourceShareRegion resourceShareArn ;;
     let ramClient := constructRAMClient region in
     inv <- getInvitation ramClient resourceShareArn ;;
     handleInvitation ramClient inv.1 inv.2 ;;
     ret ("SUCCESS", None))
    (fun exception => ret ("FAILED", Some (Caught exception))).

Definition handler (event : Event) (context : Context) : M ResponseBody :=
  if String.eqb (RequestType event) "Update" then
    let reason := "RequestType is Update which is not supported." in
    console_error reason ;;
    sendResponse event context "FAILED" (Some (Text reason))
  else
    r <- (if String.eqb (RequestType event) "Create" then
            startCreate event context
          else if String.eqb (RequestType event) "Delete" then
            ret ("SUCCESS", None)
          else
            let reason := "Received unknown RequestType " +:+ RequestType event +:+ "." in
            console_error reason ;;
            ret ("FAILED", Some (Text reason))) ;;
    sendResponse event context r.1 r.2.

End ResourceShareAcceptor.

(** * GlueDatabase: mirror the shared database in the local catalog *)

Module GlueDatabase.

Definition validateResourceShareArn (arn : option string) : M unit :=
  if negb (test RESOURCE_SHARE_ARN_REGEX (ToString arn))
  then throw (Error "Invalid ResourceShareArn.")
  else ret tt.

Definition getResourceShareArn (event : Event) : M (option string) :=
  let resourceShareArn := ResourceShareArn (ResourceProperties event) in
  validateResourceShareArn resourceShareArn ;;
  ret resourceShareArn.

Definition getSharedGlueDatabaseArn (ramClient : Client) (resourceShareArn : option string)
  : M (option string) :=
  response <- send ramClient
    (ListResourcesCommand "OTHER-ACCOUNTS" [resourceShareArn] (Some "glue:database")) ;;
  resources <- deref (resources_of response) ;;
  if Nat.eqb (length resources) 0
  then throw (Error "Found no resources associated with resource share ARN.")
  else
    first <- deref (head resources) ;;
    ret (arn first).

(** [arnParts[4]], then [arnParts[5].split('/')[1]]: an index past the end
    of an array reads undefined, and splitting undefined throws. *)
Definition getDatabaseArnParts (glueDatabaseArn : option string)
  : M (option string * option string) :=
  if negb (test glueDatabaseRegex (ToString glueDatabaseArn))
  then throw (Error ("Glue database discovered via RAM does not match expected ARN format: "
                     +:+ ToString glueDatabaseArn +:+ "."))
  else
    s <- deref glueDatabaseArn ;;
    let arnParts := split ":" s in
    let securityLakeAdminAccount := arnParts !! 4 in
    part <- deref (arnParts !! 5) ;;
    let databaseName := split "/" part !! 1 in
    ret (securityLakeAdminAccount, databaseName).

Definition createGlueDatabase (glueClient : Client)
           (securityLakeAdminAccount databaseName : option string) : M unit :=
  try_catch
    (send glueClient
       (CreateDatabaseCommand databaseName securityLakeAdminAccount databaseName) ;;
     ret tt)
    (fun e =>
       if instanceof e "AlreadyExistsException" then ret tt else throw e).

Definition startCreate (event : Event) (context : Context)
  : M (string * option string * option Reason) :=
  region <- process_env_AWS_REGION ;;
  try_catch
    (let ramClient := {| service := RAM; region := region |} in
     let glueClient := {| service := Glue; region := region |} in
     resourceShareArn <- getResourceShareArn event ;;
     sharedGlueDatabaseArn <- getSharedGlueDatabaseArn ramClient resourceShareArn ;;
     parts <- getDatabaseArnParts sharedGlueDatabaseArn ;;
     let securityLakeAdminAccount := parts.1 in
     let databaseName := parts.2 in
     createGlueDatabase glueClient securityLakeAdminAccount databaseName ;;
     ret ("SUCCESS", databaseName, None))
    (fun exception => ret ("FAILED", None, Some (Caught exception))).

Definition handler (event : Event) (context : Context) : M ResponseBody :=
  if String.eqb (RequestType event) "Update" then
    let reason := "RequestType is Update which is not supported." in
    console_error reason ;;
    sendResponse_with event context "FAILED" None (Some (Text reason))
  else
    r <- (if String.eqb (RequestType event) "Create" then
            startCreate event context
          else if String.eqb (RequestType event) "Delete" then
            ret ("SUCCESS", PhysicalResourceId event, None)
          else
            let reason := "Unrecognized cloudformation request type received. This custom resource only supports creation and deletion." in
            console_error reason ;;
            ret ("FAILED", None, Some (Text reason))) ;;
    sendResponse_with event context r.1.1 r.1.2 r.2.

End GlueDatabase.

(** * GlueTables: grant SELECT on the shared tables (glue-table-custom-resource/index.mjs) *)

Module GlueTables.

Definition validateResourceShareArn (arn : option string) : M unit :=
  if negb (test RESOURCE_SHARE_ARN_REGEX (ToString arn))
  then throw (Error "Invalid ResourceShareArn.")
  else ret tt.

Definition getResourceShareArn (event : Event) : M (option string) :=
  let resourceShareArn := ResourceShareArn (ResourceProperties event) in
  validateResourceShareArn resourceShareArn ;;
  ret resourceShareArn.

Definition getAccountId (stackId : option string) : M (option string) :=
  match exec ACCOUNT_ID_FROM_STACK_REGEX (ToString stackId) with
  | None => throw (Error "Could not parse account id from stack ID.")
  | Some captured => ret (captured !! 1)
  end.

Definition buildClients (resourceShareRegion : option string) : Client * Client :=
  ({| service := RAM; region := resourceShareRegion |},
   {| service := LakeFormation; region := resourceShareRegion |}).

Definition validateIAMPrincipal (principal : string) (accountId : option string) : M unit :=
  if negb (test (iamPrincipalRegex (ToString accountId)) principal)
  then throw (Error ("Invalid IAM principal, or IAM principal does not belong to account "
                     +:+ ToString accountId +:+ "."))
  else ret tt.

Definition validatePrincipals (principals : PrincipalsValue) (accountId : option string)
  : M unit :=
  if negb (isArray principals)
  then throw (Error "LakeFormationPrincipals is not an array.")
  else for_of (elements principals) (fun principal => validateIAMPrincipal principal accountId).

Definition getLakeFormationDataLakePrincipals (event : Event) : M (list string) :=
  let principals := LakeFormationPrincipals (ResourceProperties event) in
  accountId <- getAccountId (StackId event) ;;
  validatePrincipals principals accountId ;;
  let uniquePrincipals := new_Set (elements principals) in
  ret uniquePrincipals.

Definition getDatabaseNameArn (ramClient : Client) (resourceShareArn : option string)
  : M (option string) :=
  response <- send ramClient
    (ListResourcesCommand "OTHER-ACCOUNTS" [resourceShareArn] (Some "glue:database")) ;;
  resources <- deref (resources_of response) ;;
  if Nat.eqb (length resources) 0
  then throw (Error "Found no database associated with resource share ARN.")
  else
    first <- deref (head resources) ;;
    ret (arn first).

Definition getDatabaseName (ramClient : Client) (resourceShareArn : option string)
  : M (option string) :=
  databaseArn <- getDatabaseNameArn ramClient resourceShareArn ;;
  match exec DATABASE_NAME_CAPTURE_REGEX (ToString databaseArn) with
  | None => throw (Error "Could not parse database from database arn.")
  | Some captured => ret (captured !! 1)
  end.

Definition setLakeFormationDataLakeSettings (lakeFormationClient : Client)
           (dataLakeSettings : DataLakeSettings) : M unit :=
  send lakeFormationClient (PutDataLakeSettingsCommand dataLakeSettings) ;;
  ret tt.

(** [existingDataLakeAdmins.map] throws when the field is absent or is
    not an array. *)
Definition buildDataLakeAdmins (existingDataLakeAdmins : option Value)
           (iamPrincipals : list (option string)) : M (list DataLakePrincipal) :=
  match existingDataLakeAdmins with
  | Some (Principals admins) =>
      let existingPrincipals := DataLakePrincipalIdentifier <$> admins in
      let newPrincipals := new_Set (existingPrincipals ++ iamPrincipals) in
      ret ((fun principal => {| DataLakePrincipalIdentifier := principal |}) <$> newPrincipals)
  | _ => throw (TypeError "Cannot read properties of undefined (reading 'map')")
  end.

(** [{...existingDataLakeSettings, DataLakeAdmins: newDatalakeAdmins}] *)
Definition buildDataLakeSettings (existingDataLakeSettings : option DataLakeSettings)
           (iamPrincipals : list (option string)) : M DataLakeSettings :=
  existing <- deref existingDataLakeSettings ;;
  newDatalakeAdmins <- buildDataLakeAdmins (existing !! "DataLakeAdmins") iamPrincipals ;;
  ret (<["DataLakeAdmins" := Principals newDatalakeAdmins]> existing).

Definition getLakeFormationDataLakeSettings (lakeFormationClient : Client)
  : M (option DataLakeSettings) :=
  response <- send lakeFormationClient GetDataLakeSettingsCommand ;;
  ret (DataLakeSettings_of response).

Definition grantLakeFormationPermission (lakeFormationClient : Client)
           (databaseName : option string) (principals : list string) : M unit :=
  for_of principals (fun principal =>
    send lakeFormationClient (GrantPermissionsCommand principal databaseName ["SELECT"]) ;;
    ret tt).

Definition getCurrentCallerIdentityArn (event : Event) : M (option string) :=
  ret (LambdaRoleArn (ResourceProperties event)).

Definition startCreate (event : Event) (context : Context) : M (string * option Reason) :=
  try_catch
    (resourceShareArn <- getResourceShareArn event ;;
     currentRegion <- process_env_AWS_REGION ;;
     let clients := buildClients currentRegion in
     let ramClient := clients.1 in
     let lakeFormationClient := clients.2 in
     lakeformationDataLakePrincipals <- getLakeFormationDataLakePrincipals event ;;
     databaseName <- getDatabaseName ramClient resourceShareArn ;;
     existingDataLakeSettings <- getLakeFormationDataLakeSettings lakeFormationClient ;;
     newDataLakeSettings <- buildDataLakeSettings existingDataLakeSettings
                              (Some <$> lakeformationDataLakePrincipals) ;;
     currentCallerIdentityArn <- getCurrentCallerIdentityArn event ;;
     temporaryDataLakeSettings <- buildDataLakeSettings (Some newDataLakeSettings)
                                    [currentCallerIdentityArn] ;;
     setLakeFormationDataLakeSettings lakeFormationClient temporaryDataLakeSettings ;;
     grantLakeFormationPermission lakeFormationClient databaseName
                                  lakeformationDataLakePrincipals ;;
     setLakeFormationDataLakeSettings lakeFormationClient newDataLakeSettings ;;
     ret ("SUCCESS", None))
    (fun exception =>
       console_error (render exception) ;;
       ret ("FAILED", Some (Caught exception))).

Definition handler (event : Event) (context : Context) : M ResponseBody :=
  if String.eqb (RequestType event) "Update" then
    let reason := "RequestType is Update which is not supported." in
    console_error reason ;;
    sendResponse event context "FAILED" (Some (Text reason))
  else
    r <- (if String.eqb (RequestType event) "Create" then
            startCreate event context
          else if String.eqb (RequestType event) "Delete" then
            ret ("SUCCESS", None)
          else
            let reason := "Unrecognized cloudformation request type received. This custom resource only supports creation and deletion." in
            console_error reason ;;
            ret ("FAILED", Some (Text reason))) ;;
    sendResponse event context r.1 r.2.

End GlueTables.

(** * SsmParameters: publish the names as SSM parameters (ssm-parameter-custom-resource/index.mjs) *)

Module SsmParameters.

Record ParameterSpec := {
  Name : string;
  Description : string;
  Type_ : string;
  AllowedPattern : string
}.

Definition RESOURCE_SHARE_ARN_PARAMETER : ParameterSpec :=
  {| Name := "/Detective/SLI/ResourceShareArn";
     Description := "Security Lake resource share arn";
     Type_ := "String";
     AllowedPattern := "^arn:aws[-\w]{0,10}?:ram:.+" |}.
Definition ATHENA_RESULT_BUCKET_PARAMETER : ParameterSpec :=
  {| Name := "/Detective/SLI/S3Bucket";
     Description := "Athena result bucket";
     Type_ := "String";
     AllowedPattern := "^[a-z0-9][a-z0-9-]{1,61}[a-z0-9]$" |}.
Definition TABLE_NAMES_PARAMETER : ParameterSpec :=
  {| Name := "/Detective/SLI/TableNames";
     Description := "List of table names in Security Lake resource share arn";
     Type_ := "StringList";
     AllowedPattern := ".+" |}.
Definition DATABASE_NAME_PARAMETER : ParameterSpec :=
  {| Name := "/Detective/SLI/DatabaseName";
     Description := "Database name in Security Lake resource share arn";
     Type_ := "String";
     AllowedPattern := ".+" |}.
Definition STACK_ID_PARAMETER : ParameterSpec :=
  {| Name := "/Detective/SLI/StackId";
     Description := "Stack Id of security lake integration stack";
     Type_ := "String";
     AllowedPattern := ".+" |}.

(** [new RegExp(RESOURCE_SHARE_ARN_PARAMETER.AllowedPattern)] is
    [RESOURCE_SHARE_ARN_REGEX]: the two pattern strings are the same. *)
Definition validateResourceShareArn (arn : option string) : M unit :=
  let resourceShareRegex := RESOURCE_SHARE_ARN_REGEX in
  if negb (test resourceShareRegex (ToString arn))
  then throw (Error "Invalid ResourceShareArn.")
  else ret tt.

Definition getResourceShareArn (event : Event) : M (option string) :=
  let resourceShareArn := ResourceShareArn (ResourceProperties event) in
  validateResourceShareArn resourceShareArn ;;
  ret resourceShareArn.

Definition validateRegion (region : option string) : M unit :=
  if negb (test regionRegex (ToString region))
  then throw (Error ("Invalid region: " +:+ ToString region +:+ "."))
  else ret tt.

Definition getResourceShareRegion (resourceShareArn : option string) : M (option string) :=
  match exec RESOURCE_SHARE_REGION_REGEX (ToString resourceShareArn) with
  | None => throw (Error "Could not parse region from resource share arn.")
  | Some captured =>
      let region := captured !! 1 in
      validateRegion region ;;
      ret region
  end.

Definition getDTRegion (event : Event) : M (option string) :=
  let region := DTRegion (ResourceProperties event) in
  validateRegion region ;;
  ret region.

Definition getAthenaResultBucket (event : Event) : M (option string) :=
  let bucketName := AthenaResultsBucket (ResourceProperties event) in
  if negb (test bucketRegex (ToString bucketName))
  then throw (Error "Invalid bucket name.")
  else ret bucketName.

Definition getStackId (event : Event) : M (option string) :=
  let stackId := StackIdProperty (ResourceProperties event) in
  if negb (test stackIdRegex (ToString stackId))
  then throw (Error "Invalid stackId.")
  else ret stackId.

Definition getDatabaseNameArn (ramClient : Client) (resourceShareArn : option string)
  : M (option string) :=
  response <- send ramClient
    (ListResourcesCommand "OTHER-ACCOUNTS" [resourceShareArn] (Some "glue:database")) ;;
  resources <- deref (resources_of response) ;;
  if Nat.eqb (length resources) 0
  then throw (Error "Found no database associated with resource share ARN.")
  else
    first <- deref (head resources) ;;
    ret (arn first).

Definition getDatabaseName (ramClient : Client) (resourceShareArn : option string)
  : M (option string) :=
  databaseArn <- getDatabaseNameArn ramClient resourceShareArn ;;
  match exec DATABASE_NAME_CAPTURE_REGEX (ToString databaseArn) with
  | None => throw (Error "Could not parse database from database arn.")
  | Some captured => ret (captured !! 1)
  end.

Definition getTableArns (ramClient : Client) (resourceShareArn : option string)
  : M (list (option string)) :=
  response <- send ramClient
    (ListResourcesCommand "OTHER-ACCOUNTS" [resourceShareArn] (Some "glue:table")) ;;
  resources <- deref (resources_of response) ;;
  if Nat.eqb (length resources) 0
  then throw (Error "Found no table associated with resource share ARN.")
  else ret (arn <$> resources).

(** The loop of getTableNames, with the array it pushes to. *)
Fixpoint parseTableNames (tableArns : list (option string)) (tableNames : list (option string))
  : M (list (option string)) :=
  match tableArns with
  | [] => ret tableNames
  | tableArn :: tableArns' =>
      match exec TABLE_NAME_CAPTURE_REGEX (ToString tableArn) with
      | None => throw (Error "Could not parse table name from table arn.")
      | Some captured => parseTableNames tableArns' (tableNames ++ [captured !! 1])
      end
  end.

Definition getTableNames (ramClient : Client) (resourceShareArn : option string)
  : M (list (option string)) :=
  tableArns <- getTableArns ramClient resourceShareArn ;;
  parseTableNames tableArns [].

(** Return undefined if not found or any error. *)
Definition getStackIdParameter (ssmClient : Client) : M (option string) :=
  try_catch
    (response <- send ssmClient (GetParameterCommand (Name STACK_ID_PARAMETER)) ;;
     deref (Parameter_of response))
    (fun exception => ret None).

Definition saveParameter (ssmClient : Client) (parameter : ParameterSpec)
           (parameterValue : option string) : M unit :=
  let command :=
    PutParameterCommand (Name parameter) (Description parameter) parameterValue
                        (Type_ parameter) (AllowedPattern parameter) "Standard" in
  try_catch
    (send ssmClient command ;; ret tt)
    (fun error =>
       (if instanceof error "ParameterAlreadyExists" then
          stackId <- getStackIdParameter ssmClient ;;
          if truthy stackId then
            console_error ("SSM Parameter " +:+ Name parameter
              +:+ " already exists, another stack with stack ID " +:+ ToString stackId
              +:+ " created by this template already exists, please delete it first.")
          else
            console_error ("SSM Parameter " +:+ Name parameter
              +:+ " already exists, another stack created by this template could already exist, please delete the existing stack before creating a new one.")
        else ret tt) ;;
       throw error).

Definition createParameters (event : Event) (context : Context) : M (string * option Reason) :=
  try_catch
    (resourceShareArn <- getResourceShareArn event ;;
     resourceShareRegion <- getResourceShareRegion resourceShareArn ;;
     dtRegion <- getDTRegion event ;;
     athenaResultBucket <- getAthenaResultBucket event ;;
     stackId <- getStackId event ;;
     let ramClient := {| service := RAM; region := resourceShareRegion |} in
     databaseName <- getDatabaseName ramClient resourceShareArn ;;
     tableNameList <- getTableNames ramClient resourceShareArn ;;
     let ssmClient := {| service := SSM; region := dtRegion |} in
     saveParameter ssmClient STACK_ID_PARAMETER stackId ;;
     saveParameter ssmClient RESOURCE_SHARE_ARN_PARAMETER resourceShareArn ;;
     saveParameter ssmClient ATHENA_RESULT_BUCKET_PARAMETER athenaResultBucket ;;
     saveParameter ssmClient DATABASE_NAME_PARAMETER databaseName ;;
     saveParameter ssmClient TABLE_NAMES_PARAMETER
                   (Some (join "," (default EmptyString <$> tableNameList))) ;;
     ret ("SUCCESS", None))
    (fun exception =>
       console_error (render exception) ;;
       ret ("FAILED", Some (Caught exception))).

Definition deleteSSMParameters (ssmClient : Client) (parameterNames : list string) : M unit :=
  send ssmClient (DeleteParametersCommand parameterNames) ;;
  ret tt.

Definition deleteParameters (event : Event) (context : Context) : M (string * option Reason) :=
  try_catch
    (let parametersToDelete :=
       [ Name STACK_ID_PARAMETER;
         Name RESOURCE_SHARE_ARN_PARAMETER;
         Name ATHENA_RESULT_BUCKET_PARAMETER;
         Name DATABASE_NAME_PARAMETER;
         Name TABLE_NAMES_PARAMETER ] in
     dtRegion <- getDTRegion event ;;
     let ssmClient := {| service := SSM; region := dtRegion |} in
     deleteSSMParameters ssmClient parametersToDelete ;;
     ret ("SUCCESS", None))
    (fun exception =>
       console_error (render exception) ;;
       ret ("FAILED", Some (Caught exception))).

Definition handler (event : Event) (context : Context) : M ResponseBody :=
  if String.eqb (RequestType event) "Update" then
    let reason := "RequestType is Update which is not supported." in
    console_error reason ;;
    sendResponse event context "FAILED" (Some (Text reason))
  else
    r <- (if String.eqb (RequestType event) "Create" then
            createParameters event context
          else if String.eqb (RequestType event) "Delete" then
            deleteParameters event context
          else
            let reason := "Received unknown RequestType " +:+ RequestType event +:+ "." in
            console_error reason ;;
            ret ("FAILED", Some (Text reason))) ;;
    sendResponse event context r.1 r.2.

End SsmParameters.

(** ** The fuel of RepeatMatcher *)

(** A state that a matcher started in [x] can hand to its continuation:
    further in the same input. *)
Definition reach (x y : RegExp.state) : Prop :=
  (endIndex x ≤ endIndex y)%nat ∧
  (endIndex y + length (rest y) = endIndex x + length (rest x))%nat.

(** A matcher looks at its continuation only on states it can reach. *)
Definition extensional (m : RegExp.state → cont → option RegExp.state) : Prop :=
  ∀ x c c', (∀ y, reach x y → c y = c' y) → m x c = m x c'.

(** * Vocabulary of the properties *)

(** The calls that a run from [s] to [s'] appended to the history. *)
Definition calls_since (s s' : Machine) : History :=
  drop (length (history s)) (history s').

Definition is_accept (c : Command) : bool :=
  match c with AcceptResourceShareInvitationCommand _ => true | _ => false end.
Definition is_grant (c : Command) : bool :=
  match c with GrantPermissionsCommand _ _ _ => true | _ => false end.
Definition is_put_settings (c : Command) : bool :=
  match c with PutDataLakeSettingsCommand _ => true | _ => false end.
Definition is_delete_parameters (c : Command) : bool :=
  match c with DeleteParametersCommand _ => true | _ => false end.

(** The number of calls of a kind in a history. *)
Definition count (P : Command → bool) (t : History) : nat :=
  length (filter (fun e => P e.1.2 = true) t).

(** The principals of the grant calls of a history, in order. *)
Definition grants_of (t : History) : list string :=
  omap (fun e => match e.1.2 with GrantPermissionsCommand p _ _ => Some p | _ => None end) t.

Definition rejected (r : Response) : bool :=
  match r with Rejected _ _ => true | _ => false end.

(** The body that sendResponse builds, as a function of its arguments. *)
Definition responseBody (w : World) (event : Event) (context : Context)
           (responseStatus : string) (physicalResourceId : option string)
           (reason : option Reason) : ResponseBody :=
  let cwLogStreamMessage :=
    "See the details in CloudWatch Log Stream: "
    +:+ ("https://console.aws.amazon.com/cloudwatch/home?region=" +:+ ToString (AWS_REGION w)
    +:+ "#logEventViewer:group=" +:+ logGroupName context
    +:+ ";stream=" +:+ logStreamName context) in
  {| Status := responseStatus;
     ReasonText := match reason with
                   | Some r => reason_text r +:+ " " +:+ cwLogStreamMessage
                   | None => cwLogStreamMessage
                   end;
     PhysicalId := default (logStreamName context) physicalResourceId;
     BodyStackId := StackId event;
     BodyRequestId := RequestId event;
     BodyLogicalResourceId := LogicalResourceId event |}.

Definition succeeded (w : World) (ev : Event) (ctx : Context) : ResponseBody :=
  responseBody w ev ctx "SUCCESS" None None.

Definition failed (w : World) (ev : Event) (ctx : Context) (e : Exception) : ResponseBody :=
  responseBody w ev ctx "FAILED" None (Some (Caught e)).

(** String.prototype.includes *)
Fixpoint includes (needle hay : string) : bool :=
  String.prefix needle hay ||
  match hay with
  | EmptyString => false
  | String _ hay' => includes needle hay'
  end.

(** ** Runs of GlueTables.startCreate *)

Definition identifiers (admins : list DataLakePrincipal) : list (option string) :=
  DataLakePrincipalIdentifier <$> admins.

Definition admins_of (l : list (option string)) : list DataLakePrincipal :=
  (fun principal => {| DataLakePrincipalIdentifier := principal |}) <$> l.

Section TablesRun.
Variable ev : Event.
Variable w : World.
Let shareArn := ResourceShareArn (ResourceProperties ev).
Let targets := new_Set (elements (LakeFormationPrincipals (ResourceProperties ev))).
Let self := LambdaRoleArn (ResourceProperties ev).
Let ram := {| service := RAM; region := AWS_REGION w |}.
Let lf := {| service := LakeFormation; region := AWS_REGION w |}.
Let listing := (ram, ListResourcesCommand "OTHER-ACCOUNTS" [shareArn] (Some "glue:database")).
Let reading := (lf, GetDataLakeSettingsCommand).

(** newDataLakeSettings of startCreate: the settings read, with the
    target principals added to the administrators. *)
Definition desired (existing : DataLakeSettings) (admins : list DataLakePrincipal)
  : DataLakeSettings :=
  <["DataLakeAdmins" :=
      Principals (admins_of (new_Set (identifiers admins ++ (Some <$> targets))))]> existing.

(** temporaryDataLakeSettings of startCreate: the desired settings with
    the role of the Lambda added. *)
Definition elevated (existing : DataLakeSettings) (admins : list DataLakePrincipal)
  : DataLakeSettings :=
  <["DataLakeAdmins" :=
      Principals (admins_of (new_Set
        (identifiers (admins_of (new_Set (identifiers admins ++ (Some <$> targets))))
         ++ [self])))]> (desired existing admins).

(** The status of a run and the calls it made.  A run stops at the first
    exception: before any call, after the listing, after the settings are
    read, while the grants are issued, or it runs to the final put. *)
Inductive TablesRun : string → History → Prop :=
| run_rejected_input :
    TablesRun "FAILED" []
| run_no_database r1 :
    TablesRun "FAILED" [(listing, r1)]
| run_no_settings r1 r2 :
    TablesRun "FAILED" [(listing, r1); (reading, r2)]
| run_interrupted r1 existing admins r3 db k g :
    existing !! "DataLakeAdmins" = Some (Principals admins) →
    g.*1 = (fun p => (lf, GrantPermissionsCommand p db ["SELECT"])) <$> take k targets →
    TablesRun "FAILED"
      ([(listing, r1); (reading, GetDataLakeSettingsResponse existing);
        ((lf, PutDataLakeSettingsCommand (elevated existing admins)), r3)] ++ g)
| run_complete r1 existing admins r3 db g r4 st :
    existing !! "DataLakeAdmins" = Some (Principals admins) →
    g.*1 = (fun p => (lf, GrantPermissionsCommand p db ["SELECT"])) <$> targets →
    st = "SUCCESS" ∨ st = "FAILED" →
    TablesRun st
      ([(listing, r1); (reading, GetDataLakeSettingsResponse existing);
        ((lf, PutDataLakeSettingsCommand (elevated existing admins)), r3)] ++ g
       ++ [((lf, PutDataLakeSettingsCommand (desired existing admins)), r4)]).
End TablesRun.

(** ** Runs of SsmParameters.createParameters *)

(** The stack id that getStackIdParameter reads from an answer. *)
Definition found_stack_id (answer : Response) : option string :=
  match answer with GetParameterResponse v => v | _ => None end.

(** The line that saveParameter writes with console.error on a collision. *)
Definition collision_line (name : string) (stackId : option string) : string :=
  if truthy stackId then
    "SSM Parameter " +:+ name +:+ " already exists, another stack with stack ID "
    +:+ ToString stackId +:+ " created by this template already exists, please delete it first."
  else
    "SSM Parameter " +:+ name +:+ " already exists, another stack created by this template could already exist, please delete the existing stack before creating a new one.".

(** What a run of createParameters with result [r], calls [t] and error
    lines [errs] does about a write that the parameter store rejects
    because the name is taken: the rejection is the reported failure, the
    stack id is looked up next, and the line with the outcome of the lookup
    is logged before the exception. *)
Definition CollisionReported (r : string * option Reason) (t : History) (errs : list string)
  : Prop :=
  ∀ ssm name description value type pattern tier m,
    ((ssm, PutParameterCommand name description value type pattern tier),
     Rejected "ParameterAlreadyExists" m) ∈ t →
    r = ("FAILED", Some (Caught (ServiceException "ParameterAlreadyExists" m))) ∧
    ∃ before found,
      t = before ++ [((ssm, PutParameterCommand name description value type pattern tier),
                      Rejected "ParameterAlreadyExists" m);
                     ((ssm, GetParameterCommand "/Detective/SLI/StackId"), found)] ∧
      errs = [collision_line name (found_stack_id found);
              render (ServiceException "ParameterAlreadyExists" m)] ∧
      (∀ v, found_stack_id found = Some v → v ≠ EmptyString →
            includes v (collision_line name (found_stack_id found)) = true).

(** The five names that the handler owns. *)
Definition FIVE_NAMES : list string :=
  [ "/Detective/SLI/StackId"; "/Detective/SLI/ResourceShareArn"; "/Detective/SLI/S3Bucket";
    "/Detective/SLI/DatabaseName"; "/Detective/SLI/TableNames" ].

(** * Scenarios *)

(** An account in which the share lists one database and two tables.  The
    catalog and the parameter store are read off the history: a database
    that was created exists, a parameter that was put is there until it is
    deleted. *)
Module Scenario.

Definition shareArn : string := "arn:aws:ram:us-west-2:111111111111:resource-share/abc".
Definition stackArn : string :=
  "arn:aws:cloudformation:us-west-2:123456789012:stack/detective-sli/1a2b".
Definition otherStackArn : string :=
  "arn:aws:cloudformation:us-west-2:123456789012:stack/earlier/9f8e".
Definition lambdaRole : string := "arn:aws:iam::123456789012:role/GlueTablesLambdaRole".
Definition analyst : string := "arn:aws:iam::123456789012:role/analyst".
Definition auditor : string := "arn:aws:iam::123456789012:role/auditor".
Definition lakeAdmin : string := "arn:aws:iam::123456789012:role/lake-admin".

Definition properties (arn : option string) (principals : PrincipalsValue)
           (dtRegion : option string) : Properties :=
  {| ResourceShareArn := arn;
     LakeFormationPrincipals := principals;
     LambdaRoleArn := Some lambdaRole;
     DTRegion := dtRegion;
     AthenaResultsBucket := Some "athena-results-1";
     StackIdProperty := Some stackArn |}.

Definition request (type : string) (props : Properties) : Event :=
  {| RequestType := type;
     ResourceProperties := props;
     StackId := Some stackArn;
     RequestId := Some "request-1";
     LogicalResourceId := Some "Resource";
     PhysicalResourceId := None |}.

Definition context : Context :=
  {| logGroupName := "/aws/lambda/handler"; logStreamName := "2024/01/01/[$LATEST]0001" |}.

Definition laterContext : Context :=
  {| logGroupName := "/aws/lambda/handler"; logStreamName := "2024/01/02/[$LATEST]0002" |}.

Definition fresh : Machine := {| history := []; stderr := [] |}.

Definition database : Resource :=
  {| arn := Some "arn:aws:glue:us-west-2:222222222222:database/shared_db" |}.
Definition tables : list Resource :=
  [ {| arn := Some "arn:aws:glue:us-west-2:222222222222:table/shared_db/cloud_trail" |};
    {| arn := Some "arn:aws:glue:us-west-2:222222222222:table/shared_db/vpc_flow" |} ].

Definition settings : DataLakeSettings :=
  {[ "DataLakeAdmins" := Principals [ {| DataLakePrincipalIdentifier := Some lakeAdmin |} ];
     "CreateDatabaseDefaultPermissions" := Opaque "[]";
     "TrustedResourceOwners" := Opaque "[222222222222]" ]}.

Definition invitation (state : string) : ResourceShareInvitation :=
  {| status := Some state;
     resourceShareInvitationArn :=
       Some "arn:aws:ram:us-west-2:111111111111:resource-share-invitation/inv-1" |}.

Definition database_exists (h : History) (name : option string) : bool :=
  existsb (fun e =>
    match e.1.2 with
    | CreateDatabaseCommand n _ _ => negb (rejected e.2) && bool_decide (n = name)
    | _ => false
    end) h.

Definition parameters (h : History) : gmap string (option string) :=
  foldl (fun m e =>
    match e.1.2 with
    | PutParameterCommand n _ v _ _ _ => if rejected e.2 then m else <[n := v]> m
    | DeleteParametersCommand names => if rejected e.2 then m else foldr delete m names
    | _ => m
    end) ∅ h.

Definition account (invitations : list ResourceShareInvitation) : World :=
  {| respond := fun h req =>
       match req.2 with
       | ListResourcesCommand _ _ type =>
           if bool_decide (type = Some "glue:table") then ListResourcesResponse tables
           else if bool_decide (type = Some "glue:database") then ListResourcesResponse [database]
           else ListResourcesResponse (database :: tables)
       | GetResourceShareInvitationsCommand _ =>
           GetResourceShareInvitationsResponse invitations
       | CreateDatabaseCommand name _ _ =>
           if database_exists h name
           then Rejected "AlreadyExistsException" "Database already exists."
           else EmptyResponse
       | GetDataLakeSettingsCommand => GetDataLakeSettingsResponse settings
       | PutParameterCommand name _ _ _ _ _ =>
           match parameters h !! name with
           | Some _ => Rejected "ParameterAlreadyExists" "The parameter already exists."
           | None => EmptyResponse
           end
       | GetParameterCommand name =>
           match parameters h !! name with
           | Some v => GetParameterResponse v
           | None => Rejected "ParameterNotFound" "Parameter not found."
           end
       | _ => EmptyResponse
       end;
     AWS_REGION := Some "us-west-2" |}.

(** The machine after another stack has published its stack id. *)
Definition occupied : Machine :=
  {| history :=
       [(({| service := SSM; region := Some "us-east-1" |},
          PutParameterCommand "/Detective/SLI/StackId"
            "Stack Id of security lake integration stack" (Some otherStackArn)
            "String" ".+" "Standard"),
         EmptyResponse)];
     stderr := [] |}.

(** Requests. *)
Definition createRequest (principals : PrincipalsValue) : Event :=
  request "Create" (properties (Some shareArn) principals (Some "us-east-1")).

Definition malformedRequest : Event :=
  request "Create"
    (properties (Some "arn:aws:s3:::some-bucket") (PArray [analyst]) (Some "us-east-1")).

Definition deleteRequest (dtRegion : option string) : Event :=
  request "Delete" (properties (Some shareArn) (PArray [analyst]) dtRegion).

(** The captures of the region pattern on the share ARN. *)
Definition regionCaptures : gmap nat string := {[ 1 := "us-west-2" ]}.

End Scenario.

(** ** What a pattern matches *)

(** [Run r x y]: the pattern [r] matches from the state [x] to the state
    [y].  An iteration of a repetition that is not required and consumes
    nothing is not a match, as in RepeatMatcher. *)
Inductive Run : regex → RegExp.state → RegExp.state → Prop :=
| run_eps x :
    Run Eps x x
| run_lit a x t :
    rest x = a :: t → Run (Lit a) x (advance x t)
| run_class p x b t :
    rest x = b :: t → p b = true → Run (Class p) x (advance x t)
| run_seq r1 r2 x y z :
    Run r1 x y → Run r2 y z → Run (Seq r1 r2) x z
| run_repeat_done min max greedy r x :
    min = 0 ∨ max = Some 0 → Run (Repeat min max greedy r) x x
| run_repeat_more min max greedy r x y z :
    max ≠ Some 0 →
    Run r x y →
    (min = 0 → endIndex y ≠ endIndex x) →
    Run (Repeat (pred min) (pred <$> max) greedy r) y z →
    Run (Repeat min max greedy r) x z
| run_group n r x y :
    Run r x y → Run (Group n r) x (capture n x y)
| run_bol x :
    endIndex x = 0 → Run Bol x x
| run_eol x :
    rest x = [] → Run Eol x x.

(** The state in which a search starts at index [k] of the input [s]. *)
Definition start (k : nat) (s : string) : RegExp.state :=
  State k (drop k (list_ascii_of_string s)) ∅.

(** ** Runs of ResourceShareAcceptor.startCreate *)

Section AcceptorRun.
Variable ev : Event.
Variable shareRegion : option string.
Let shareArn := ResourceShareArn (ResourceProperties ev).
Let ram := ResourceShareAcceptor.constructRAMClient shareRegion.
Let lookup := (ram, GetResourceShareInvitationsCommand [shareArn]).
Let listing := (ram, ListResourcesCommand "OTHER-ACCOUNTS" [shareArn] None).

(** The status that handleInvitation leaves for an invitation that is not
    pending. *)
Definition decided (state : option string) : string :=
  if bool_decide (state = Some ResourceShareAcceptor.EXPIRED) then "FAILED"
  else if bool_decide (state = Some ResourceShareAcceptor.REJECTED) then "FAILED"
  else "SUCCESS".

(** The status of a run that passed the validation of its input, and the
    calls it made: the lookup alone, the lookup and the accept call for
    the first invitation, or the lookup and the listing of the share. *)
Inductive AcceptorRun : string → History → Prop :=
| acceptor_lookup_failed a1 :
    resourceShareInvitations_of a1 = None →
    AcceptorRun "FAILED" [(lookup, a1)]
| acceptor_decided inv others st :
    truthy (resourceShareInvitationArn inv) = true →
    status inv ≠ Some ResourceShareAcceptor.PENDING →
    st = decided (status inv) →
    AcceptorRun st [(lookup, GetResourceShareInvitationsResponse (inv :: others))]
| acceptor_accepted inv others a2 st :
    truthy (resourceShareInvitationArn inv) = true →
    status inv = Some ResourceShareAcceptor.PENDING →
    st = match a2 with
         | Rejected n _ =>
             if String.eqb n "ResourceShareInvitationAlreadyAcceptedException"
             then "SUCCESS" else "FAILED"
         | _ => "SUCCESS"
         end →
    AcceptorRun st
      [(lookup, GetResourceShareInvitationsResponse (inv :: others));
       ((ram, AcceptResourceShareInvitationCommand (resourceShareInvitationArn inv)), a2)]
| acceptor_listed invitations a2 st :
    truthy (head invitations ≫= resourceShareInvitationArn) = false →
    st = match a2 with ListResourcesResponse (_ :: _) => "SUCCESS" | _ => "FAILED" end →
    AcceptorRun st
      [(lookup, GetResourceShareInvitationsResponse invitations); (listing, a2)].
End AcceptorRun.

(** ** Runs of GlueDatabase.startCreate *)

Section DatabaseRun.
Variable ev : Event.
Variable w : World.
Let shareArn := ResourceShareArn (ResourceProperties ev).
Let ram := {| service := RAM; region := AWS_REGION w |}.
Let glue := {| service := Glue; region := AWS_REGION w |}.
Let listing := (ram, ListResourcesCommand "OTHER-ACCOUNTS" [shareArn] (Some "glue:database")).

(** The status of a run, the physical resource id it returns, and the
    calls it made: none, the listing alone, or the listing and the
    creation of the database named in the ARN of the first resource. *)
Inductive DatabaseRun : string → option string → History → Prop :=
| database_rejected_input :
    DatabaseRun "FAILED" None []
| database_not_found a1 :
    DatabaseRun "FAILED" None [(listing, a1)]
| database_created first others databaseArn part a2 st id :
    arn first = Some databaseArn →
    test glueDatabaseRegex databaseArn = true →
    split ":" databaseArn !! 5 = Some part →
    (st, id) = match a2 with
               | Rejected n _ =>
                   if String.eqb n "AlreadyExistsException"
                   then ("SUCCESS", split "/" part !! 1) else ("FAILED", None)
               | _ => ("SUCCESS", split "/" part !! 1)
               end →
    DatabaseRun st id
      [(listing, ListResourcesResponse (first :: others));
       ((glue, CreateDatabaseCommand (split "/" part !! 1) (split ":" databaseArn !! 4)
                 (split "/" part !! 1)), a2)].
End DatabaseRun.

Definition is_create_database (c : Command) : bool :=
  match c with CreateDatabaseCommand _ _ _ => true | _ => false end.

(** ** Runs that stop at the first rejected call *)

(** No call of the history was rejected. *)
Definition clean (t : History) : Prop := Forall (fun e => rejected e.2 = false) t.

(** The calls [t] of a run with result [x]: no call was rejected, or the
    last one was, and the run threw that rejection. *)
Definition stops_at_rejection {A} (x : Exception + A) (t : History) : Prop :=
  clean t ∨
  ∃ t0 request n m,
    t = t0 ++ [(request, Rejected n m)] ∧ clean t0 ∧ x = inl (ServiceException n m).

Definition failfast {A} (m : M A) : Prop :=
  ∀ w s, ∃ x t errs,
    m w s = (x, {| history := history s ++ t; stderr := stderr s ++ errs |}) ∧
    stops_at_rejection x t.

(** ** Runs of SsmParameters.createParameters, write by write *)

(** The write of a parameter with a value, as saveParameter issues it. *)
Definition put (ssmClient : Client) (pv : SsmParameters.ParameterSpec * option string)
  : Request :=
  (ssmClient,
   PutParameterCommand (SsmParameters.Name pv.1) (SsmParameters.Description pv.1) pv.2
     (SsmParameters.Type_ pv.1) (SsmParameters.AllowedPattern pv.1) "Standard").

(** The names that createParameters reads from the ARNs of the share. *)
Definition database_name (r : Resource) : option string :=
  exec DATABASE_NAME_CAPTURE_REGEX (ToString (arn r)) ≫= (.!! 1).

Definition table_name (r : Resource) : option string :=
  exec TABLE_NAME_CAPTURE_REGEX (ToString (arn r)) ≫= (.!! 1).

(** The five parameters with the values that createParameters gives them,
    in the order in which it saves them. *)
Definition published (ev : Event) (database : Resource) (tables : list Resource)
  : list (SsmParameters.ParameterSpec * option string) :=
  [ (SsmParameters.STACK_ID_PARAMETER, StackIdProperty (ResourceProperties ev));
    (SsmParameters.RESOURCE_SHARE_ARN_PARAMETER, ResourceShareArn (ResourceProperties ev));
    (SsmParameters.ATHENA_RESULT_BUCKET_PARAMETER, AthenaResultsBucket (ResourceProperties ev));
    (SsmParameters.DATABASE_NAME_PARAMETER, database_name database);
    (SsmParameters.TABLE_NAMES_PARAMETER,
     Some (join "," (default EmptyString <$> (table_name <$> tables)))) ].

(** The calls of a sequence of saves and its result: every write is
    accepted, or the sequence stops at the first write that is rejected,
    after the lookup of the stack id when the name was taken. *)
Inductive SaveRun (ssmClient : Client)
  : list (SsmParameters.ParameterSpec * option string) → Exception + unit → History → Prop :=
| saved_all :
    SaveRun ssmClient [] (inr tt) []
| saved_one pv ws a x t :
    rejected a = false →
    SaveRun ssmClient ws x t →
    SaveRun ssmClient (pv :: ws) x ((put ssmClient pv, a) :: t)
| save_rejected pv ws n m :
    String.eqb n "ParameterAlreadyExists" = false →
    SaveRun ssmClient (pv :: ws) (inl (ServiceException n m))
      [(put ssmClient pv, Rejected n m)]
| save_collided pv ws m found :
    SaveRun ssmClient (pv :: ws) (inl (ServiceException "ParameterAlreadyExists" m))
      [(put ssmClient pv, Rejected "ParameterAlreadyExists" m);
       ((ssmClient, GetParameterCommand "/Detective/SLI/StackId"), found)].

Section ParametersRun.
Variable ev : Event.
Variable shareRegion : option string.
Let shareArn := ResourceShareArn (ResourceProperties ev).
Let ram := {| service := RAM; region := shareRegion |}.
Let ssm := {| service := SSM; region := DTRegion (ResourceProperties ev) |}.
Let databases :=
  (ram, ListResourcesCommand "OTHER-ACCOUNTS" [shareArn] (Some "glue:database")).
Let tables :=
  (ram, ListResourcesCommand "OTHER-ACCOUNTS" [shareArn] (Some "glue:table")).

(** The status of a run that passed the validation of its input, and the
    calls it made: the listing of the databases, the listing of the tables,
    and the writes. *)
Inductive ParametersRun : string → History → Prop :=
| parameters_no_database a1 :
    ParametersRun "FAILED" [(databases, a1)]
| parameters_no_tables database others a2 :
    ParametersRun "FAILED"
      [(databases, ListResourcesResponse (database :: others)); (tables, a2)]
| parameters_saved database others table more x t st :
    SaveRun ssm (published ev database (table :: more)) x t →
    st = match x with inr _ => "SUCCESS" | inl _ => "FAILED" end →
    ParametersRun st
      ([(databases, ListResourcesResponse (database :: others));
        (tables, ListResourcesResponse (table :: more))] ++ t).
End ParametersRun.

Definition is_put_parameter (c : Command) : bool :=
  match c with PutParameterCommand _ _ _ _ _ _ => true | _ => false end.

(** The names of the parameters written in a history, in order. *)
Definition put_names (t : History) : list string :=
  omap (fun e => match e.1.2 with PutParameterCommand n _ _ _ _ _ => Some n | _ => None end) t.

(** The five checks that createParameters makes on its input before its
    first call. *)
Definition parameters_input_ok (ev : Event) : bool :=
  let props := ResourceProperties ev in
  test RESOURCE_SHARE_ARN_REGEX (ToString (ResourceShareArn props))
  && match exec RESOURCE_SHARE_REGION_REGEX (ToString (ResourceShareArn props)) with
     | Some captured => test regionRegex (ToString (captured !! 1))
     | None => false
     end
  && test regionRegex (ToString (DTRegion props))
  && test bucketRegex (ToString (AthenaResultsBucket props))
  && test stackIdRegex (ToString (StackIdProperty props)).

(** ** Handlers that answer every request *)

(** A handler answers: whatever the request and the services, it returns
    a response with status SUCCESS or FAILED that carries the identifiers
    of the request, and it only adds to the history and to the error
    log. *)
Definition answers (handler : Event → Context → M ResponseBody) : Prop :=
  ∀ ev ctx w s,
    ∃ body t errs,
      handler ev ctx w s
      = (inr body, {| history := history s ++ t; stderr := stderr s ++ errs |}) ∧
      (Status body = "SUCCESS" ∨ Status body = "FAILED") ∧
      BodyStackId body = StackId ev ∧
      BodyRequestId body = RequestId ev ∧
      BodyLogicalResourceId body = LogicalResourceId ev.

(** ** What a run of GlueTables.startCreate needs to succeed *)

(** The checks that startCreate makes on the event before its first call:
    the share ARN, the account id in the stack id, and the principals, which
    must be an array whose elements all pass validateIAMPrincipal.  Nothing
    else about the principals is tested: not their number, and not whether
    one occurs twice. *)
Definition tables_input_ok (ev : Event) : bool :=
  test RESOURCE_SHARE_ARN_REGEX (ToString (ResourceShareArn (ResourceProperties ev))) &&
  match exec ACCOUNT_ID_FROM_STACK_REGEX (ToString (StackId ev)) with
  | Some captured =>
      isArray (LakeFormationPrincipals (ResourceProperties ev)) &&
      forallb (test (iamPrincipalRegex (ToString (captured !! 1))))
              (elements (LakeFormationPrincipals (ResourceProperties ev)))
  | None => false
  end.

(** An answer to the listing from which getDatabaseName returns: a first
    resource whose ARN the capture pattern parses. *)
Definition names_a_database (answer : Response) : bool :=
  match resources_of answer with
  | Some (first :: _) =>
      match exec DATABASE_NAME_CAPTURE_REGEX (ToString (arn first)) with
      | Some _ => true
      | None => false
      end
  | _ => false
  end.

(** An answer to the read of the settings from which buildDataLakeSettings
    builds: settings with a list of administrators. *)
Definition holds_administrators (answer : Response) : bool :=
  match DataLakeSettings_of answer ≫= (.!! "DataLakeAdmins") with
  | Some (Principals _) => true
  | _ => false
  end.

(** A call of the create path of GlueTables whose answer lets the run go
    on: a listing that names a database, settings that hold
    administrators, and for any other call an answer that is not a
    rejection. *)
Definition answered (e : Request * Response) : bool :=
  match e.1.2 with
  | ListResourcesCommand _ _ _ => names_a_database e.2
  | GetDataLakeSettingsCommand => holds_administrators e.2
  | _ => negb (rejected e.2)
  end.


(** * Proofs *)

Arguments test : simpl never.
Arguments exec : simpl never.
Arguments new_Set : simpl never.
Arguments split : simpl never.
Arguments String.append : simpl never.
Arguments String.eqb : simpl never.

(** Unfold the monad, leaving the handler functions folded. *)
Ltac monad :=
  cbv beta iota zeta delta
    [bind ret throw try_catch deref console_error process_env_AWS_REGION];
  cbn [history stderr fst snd negb].

Tactic Notation "monad" "in" hyp(H) :=
  cbv beta iota zeta delta
    [bind ret throw try_catch deref console_error process_env_AWS_REGION] in H;
  cbn [history stderr fst snd negb] in H.

(** ** The patterns on sample inputs *)

Example share_arn_ok :
  test RESOURCE_SHARE_ARN_REGEX "arn:aws:ram:us-west-2:111111111111:resource-share/abc" = true.
Proof. vm_compute. reflexivity. Qed.

Example share_arn_partition_cn :
  test RESOURCE_SHARE_ARN_REGEX "arn:aws-cn:ram:cn-north-1:111111111111:resource-share/abc" = true.
Proof. vm_compute. reflexivity. Qed.

Example share_arn_not_ram :
  test RESOURCE_SHARE_ARN_REGEX "arn:aws:glue:us-west-2:111111111111:database/x" = false.
Proof. vm_compute. reflexivity. Qed.

Example share_arn_undefined :
  test RESOURCE_SHARE_ARN_REGEX (ToString None) = false.
Proof. vm_compute. reflexivity. Qed.

Example region_capture :
  exec RESOURCE_SHARE_REGION_REGEX "arn:aws:ram:us-west-2:111111111111:resource-share/abc" ≫= (.!! 1)
  = Some "us-west-2".
Proof. vm_compute. reflexivity. Qed.

Example region_ok : test regionRegex "us-west-2" = true.
Proof. vm_compute. reflexivity. Qed.

Example region_undefined : test regionRegex (ToString None) = false.
Proof. vm_compute. reflexivity. Qed.

Example database_capture :
  exec DATABASE_NAME_CAPTURE_REGEX "arn:aws:glue:us-west-2:222222222222:database/shared_db" ≫= (.!! 1)
  = Some "shared_db".
Proof. vm_compute. reflexivity. Qed.

Example table_capture :
  exec TABLE_NAME_CAPTURE_REGEX "arn:aws:glue:us-west-2:222222222222:table/shared_db/t1" ≫= (.!! 1)
  = Some "t1".
Proof. vm_compute. reflexivity. Qed.

Example account_capture :
  exec ACCOUNT_ID_FROM_STACK_REGEX "arn:aws:cloudformation:us-west-2:123456789012:stack/s/guid" ≫= (.!! 1)
  = Some "123456789012".
Proof. vm_compute. reflexivity. Qed.

Example principal_ok :
  test (iamPrincipalRegex "123456789012") "arn:aws:iam::123456789012:role/analyst" = true.
Proof. vm_compute. reflexivity. Qed.

Example principal_other_account :
  test (iamPrincipalRegex "123456789012") "arn:aws:iam::999999999999:role/analyst" = false.
Proof. vm_compute. reflexivity. Qed.

Example bucket_ok : test bucketRegex "athena-results-1" = true.
Proof. vm_compute. reflexivity. Qed.

Example bucket_empty : test bucketRegex EmptyString = false.
Proof. vm_compute. reflexivity. Qed.

Example split_arn :
  split ":" "arn:aws:glue:us-west-2:222222222222:database/shared_db"
  = ["arn"; "aws"; "glue"; "us-west-2"; "222222222222"; "database/shared_db"].
Proof. vm_compute. reflexivity. Qed.

Example new_Set_order : new_Set ["b"; "a"; "b"; "c"; "a"] = ["b"; "a"; "c"].
Proof. vm_compute. reflexivity. Qed.

(** ** Sets in insertion order *)

Section NewSet.
Context {A : Type} `{EqDecision A}.

Lemma foldl_Set_add (l acc : list A) :
  NoDup acc →
  NoDup (foldl Set_add acc l) ∧ ∀ x, x ∈ foldl Set_add acc l ↔ x ∈ acc ∨ x ∈ l.
Proof.
  revert acc. induction l as [|a l IH]; intros acc Hacc; cbn [foldl].
  - split; [done|]. intros x. rewrite elem_of_nil. tauto.
  - assert (Hstep : NoDup (Set_add acc a)).
    { unfold Set_add. case_decide; [done|].
      apply NoDup_app. repeat split; [done| |apply NoDup_singleton].
      intros x Hx Hxa. apply list_elem_of_singleton in Hxa. by subst. }
    destruct (IH _ Hstep) as [Hnd Hin]. split; [done|].
    intros x. rewrite Hin, elem_of_cons. unfold Set_add. case_decide.
    + split; [intros [?|?]; auto|intros [?|[->|?]]; auto].
    + rewrite elem_of_app, list_elem_of_singleton. tauto.
Qed.

Lemma NoDup_new_Set (l : list A) : NoDup (new_Set l).
Proof. apply foldl_Set_add, NoDup_nil_2. Qed.

Lemma elem_of_new_Set (l : list A) x : x ∈ new_Set l ↔ x ∈ l.
Proof.
  unfold new_Set. destruct (foldl_Set_add l [] (NoDup_nil_2)) as [_ ->].
  rewrite elem_of_nil. tauto.
Qed.


End NewSet.


(** ** Calls and histories *)

Lemma calls_since_app s e t :
  calls_since s {| history := history s ++ t; stderr := e |} = t.
Proof. unfold calls_since. cbn [history]. by rewrite drop_app_length. Qed.

Lemma calls_since_eq s s' t : history s' = history s ++ t → calls_since s s' = t.
Proof. unfold calls_since. intros ->. by rewrite drop_app_length. Qed.

Lemma count_length_grants t : count is_grant t = length (grants_of t).
Proof.
  unfold count, grants_of. induction t as [|[[c cmd] r] t IH]; [reflexivity|].
  destruct cmd; cbn; case_decide; try done; cbn; first [exact IH | f_equal; exact IH].
Qed.

Lemma grants_of_app t u : grants_of (t ++ u) = grants_of t ++ grants_of u.
Proof. unfold grants_of. apply omap_app. Qed.

Lemma grants_of_grants lf db (ps : list string) (g : History) :
  g.*1 = (fun p => (lf, GrantPermissionsCommand p db ["SELECT"])) <$> ps →
  grants_of g = ps.
Proof.
  revert ps. induction g as [|[req r] g IH]; intros [|p ps] Hg; try done.
  cbn in Hg. injection Hg as -> Hg. cbn. f_equal. by apply IH.
Qed.

Lemma bind_inr {A B} (m : M A) (f : A → M B) w s a s1 :
  m w s = (inr a, s1) → bind m f w s = f a w s1.
Proof. unfold bind. by intros ->. Qed.

Lemma bind_inl {A B} (m : M A) (f : A → M B) w s e s1 :
  m w s = (inl e, s1) → bind m f w s = (inl e, s1).
Proof. unfold bind. by intros ->. Qed.

Lemma send_run client command w s :
  ∃ x, send client command w s
       = (x, {| history := history s
                  ++ [((client, command), respond w (history s) (client, command))];
                stderr := stderr s |}) ∧
       (∀ r, x = inr r → r = respond w (history s) (client, command)) ∧
       match x with
       | inl e => ∃ n m, respond w (history s) (client, command) = Rejected n m
                         ∧ e = ServiceException n m
       | inr _ => rejected (respond w (history s) (client, command)) = false
       end.
Proof.
  unfold send. destruct (respond _ _ _) eqn:Hr; eexists; (split; [reflexivity|]);
    (split; [intros r0 Hx; congruence|]); eauto.
Qed.

(** ** String inclusion *)

Lemma prefix_append v b : String.prefix v (v +:+ b) = true.
Proof.
  induction v as [|a v IH]; [by destruct b|].
  change (String a v +:+ b) with (String a (v +:+ b)). cbn [String.prefix].
  destruct (ascii_dec a a); [exact IH|done].
Qed.

Lemma includes_head v b : includes v (v +:+ b) = true.
Proof. destruct (v +:+ b) eqn:E; cbn [includes]; rewrite <- E, prefix_append; reflexivity. Qed.

Lemma includes_prepend v a h : includes v h = true → includes v (a +:+ h) = true.
Proof.
  intros Hh. induction a as [|c a IH]; [exact Hh|].
  change (String c a +:+ h) with (String c (a +:+ h)).
  cbn [includes]. rewrite IH. apply orb_true_r.
Qed.

Lemma collision_line_includes name v :
  v ≠ EmptyString → includes v (collision_line name (Some v)) = true.
Proof.
  intros Hv. unfold collision_line.
  assert (Ht : truthy (Some v) = true).
  { cbn [truthy]. destruct (String.eqb_spec v EmptyString); done. }
  rewrite Ht. cbn [ToString].
  do 3 apply includes_prepend. apply includes_head.
Qed.

(** ** A request runs its path and reports the outcome *)

Lemma eqb_Create_Update : String.eqb "Create" "Update" = false.
Proof. reflexivity. Qed.
Lemma eqb_Create_Create : String.eqb "Create" "Create" = true.
Proof. reflexivity. Qed.
Lemma eqb_Delete_Update : String.eqb "Delete" "Update" = false.
Proof. reflexivity. Qed.
Lemma eqb_Delete_Create : String.eqb "Delete" "Create" = false.
Proof. reflexivity. Qed.
Lemma eqb_Delete_Delete : String.eqb "Delete" "Delete" = true.
Proof. reflexivity. Qed.

Lemma acceptor_handler_create ev ctx w s r s' :
  RequestType ev = "Create" →
  ResourceShareAcceptor.startCreate ev ctx w s = (inr r, s') →
  ResourceShareAcceptor.handler ev ctx w s = (inr (responseBody w ev ctx r.1 None r.2), s').
Proof.
  intros Hc Hr. unfold ResourceShareAcceptor.handler.
  rewrite Hc, eqb_Create_Update, eqb_Create_Create.
  by rewrite (bind_inr _ _ _ _ _ _ Hr).
Qed.

Lemma database_handler_create ev ctx w s r s' :
  RequestType ev = "Create" →
  GlueDatabase.startCreate ev ctx w s = (inr r, s') →
  GlueDatabase.handler ev ctx w s = (inr (responseBody w ev ctx r.1.1 r.1.2 r.2), s').
Proof.
  intros Hc Hr. unfold GlueDatabase.handler.
  rewrite Hc, eqb_Create_Update, eqb_Create_Create.
  by rewrite (bind_inr _ _ _ _ _ _ Hr).
Qed.

Lemma tables_handler_create ev ctx w s r s' :
  RequestType ev = "Create" →
  GlueTables.startCreate ev ctx w s = (inr r, s') →
  GlueTables.handler ev ctx w s = (inr (responseBody w ev ctx r.1 None r.2), s').
Proof.
  intros Hc Hr. unfold GlueTables.handler.
  rewrite Hc, eqb_Create_Update, eqb_Create_Create.
  by rewrite (bind_inr _ _ _ _ _ _ Hr).
Qed.

Lemma parameters_handler_create ev ctx w s r s' :
  RequestType ev = "Create" →
  SsmParameters.createParameters ev ctx w s = (inr r, s') →
  SsmParameters.handler ev ctx w s = (inr (responseBody w ev ctx r.1 None r.2), s').
Proof.
  intros Hc Hr. unfold SsmParameters.handler.
  rewrite Hc, eqb_Create_Update, eqb_Create_Create.
  by rewrite (bind_inr _ _ _ _ _ _ Hr).
Qed.

Lemma parameters_handler_delete ev ctx w s r s' :
  RequestType ev = "Delete" →
  SsmParameters.deleteParameters ev ctx w s = (inr r, s') →
  SsmParameters.handler ev ctx w s = (inr (responseBody w ev ctx r.1 None r.2), s').
Proof.
  intros Hc Hr. unfold SsmParameters.handler.
  rewrite Hc, eqb_Delete_Update, eqb_Delete_Create, eqb_Delete_Delete.
  by rewrite (bind_inr _ _ _ _ _ _ Hr).
Qed.

(** ** The fuel of RepeatMatcher suffices *)

Lemma reach_refl x : reach x x.
Proof. split; reflexivity. Qed.

Lemma reach_trans x y z : reach x y → reach y z → reach x z.
Proof. unfold reach. intros [? ?] [? ?]. split; lia. Qed.

Lemma reach_advance x b t : rest x = b :: t → reach x (advance x t).
Proof. unfold reach, advance. intros ->. cbn. split; lia. Qed.

Lemma RepeatMatcher_extensional m :
  extensional m →
  ∀ fuel min max greedy, extensional (fun x c => RepeatMatcher m fuel min max greedy x c).
Proof.
  intros Hm fuel. induction fuel as [|fuel IH]; intros min max greedy x c c' Hc; [reflexivity|].
  cbn [RepeatMatcher].
  assert (Hd : m x (fun y =>
                 if Nat.eqb min 0 && Nat.eqb (endIndex y) (endIndex x) then None
                 else RepeatMatcher m fuel (pred min) (pred <$> max) greedy y c)
             = m x (fun y =>
                 if Nat.eqb min 0 && Nat.eqb (endIndex y) (endIndex x) then None
                 else RepeatMatcher m fuel (pred min) (pred <$> max) greedy y c')).
  { apply Hm. intros y Hy. destruct (_ && _); [reflexivity|].
    apply IH. intros z Hz. apply Hc. by eapply reach_trans. }
  rewrite Hd, (Hc x (reach_refl x)). reflexivity.
Qed.

Lemma matcher_extensional r : extensional (matcher r).
Proof.
  induction r as [|a|p|r1 IH1 r2 IH2|min max greedy r1 IH1|n r1 IH1| |];
    intros x c c' Hc; cbn [matcher].
  - apply Hc, reach_refl.
  - destruct (rest x) as [|b t] eqn:Hrest; [reflexivity|].
    destruct (Ascii.eqb a b); [|reflexivity]. by apply Hc, reach_advance with b.
  - destruct (rest x) as [|b t] eqn:Hrest; [reflexivity|].
    destruct (p b); [|reflexivity]. by apply Hc, reach_advance with b.
  - apply IH1. intros y Hy. apply IH2. intros z Hz. apply Hc. by eapply reach_trans.
  - by apply (RepeatMatcher_extensional _ IH1).
  - apply IH1. intros y Hy. apply Hc. exact Hy.
  - destruct (Nat.eqb _ _); [apply Hc, reach_refl|reflexivity].
  - destruct (rest x); [apply Hc, reach_refl|reflexivity].
Qed.

(** With more fuel than [min + length (rest x)] the result does not depend
    on the fuel: the fuel that [matcher] gives to a repetition is never
    exhausted. *)
Lemma RepeatMatcher_fuel m :
  extensional m →
  ∀ fuel1 fuel2 min max greedy x c,
    (min + length (rest x) < fuel1)%nat →
    (min + length (rest x) < fuel2)%nat →
    RepeatMatcher m fuel1 min max greedy x c = RepeatMatcher m fuel2 min max greedy x c.
Proof.
  intros Hm fuel1. induction fuel1 as [|fuel1 IH]; intros fuel2 min max greedy x c H1 H2; [lia|].
  destruct fuel2 as [|fuel2]; [lia|]. cbn [RepeatMatcher].
  assert (Hd : m x (fun y =>
                 if Nat.eqb min 0 && Nat.eqb (endIndex y) (endIndex x) then None
                 else RepeatMatcher m fuel1 (pred min) (pred <$> max) greedy y c)
             = m x (fun y =>
                 if Nat.eqb min 0 && Nat.eqb (endIndex y) (endIndex x) then None
                 else RepeatMatcher m fuel2 (pred min) (pred <$> max) greedy y c)).
  { apply Hm. intros y [Hle Hsum].
    destruct (Nat.eqb min 0) eqn:Hmin; cbn [andb].
    - apply Nat.eqb_eq in Hmin. subst min.
      destruct (Nat.eqb (endIndex y) (endIndex x)) eqn:Hsame; [reflexivity|].
      apply Nat.eqb_neq in Hsame. apply IH; cbn; lia.
    - apply Nat.eqb_neq in Hmin. apply IH; lia. }
  by rewrite Hd.
Qed.

Lemma matcher_Repeat_fuel min max greedy r x c extra :
  matcher (Repeat min max greedy r) x c
  = RepeatMatcher (matcher r) (min + length (rest x) + 1 + extra)%nat min max greedy x c.
Proof.
  cbn [matcher]. apply RepeatMatcher_fuel; [apply matcher_extensional|lia|lia].
Qed.

(** * Malformed share ARNs *)

Section MalformedArn.
Variables (ev : Event) (ctx : Context) (w : World) (s : Machine).
Hypothesis malformed :
  test RESOURCE_SHARE_ARN_REGEX (ToString (ResourceShareArn (ResourceProperties ev))) = false.

Lemma acceptor_malformed :
  ResourceShareAcceptor.startCreate ev ctx w s
  = (inr ("FAILED", Some (Caught (Error "Invalid ResourceShareArn."))), s).
Proof.
  unfold ResourceShareAcceptor.startCreate, try_catch, bind,
    ResourceShareAcceptor.getResourceShareArn, bind,
    ResourceShareAcceptor.validateResourceShareArn.
  by rewrite malformed.
Qed.

Lemma database_malformed :
  GlueDatabase.startCreate ev ctx w s
  = (inr ("FAILED", None, Some (Caught (Error "Invalid ResourceShareArn."))), s).
Proof.
  unfold GlueDatabase.startCreate, try_catch, bind,
    GlueDatabase.getResourceShareArn, bind,
    GlueDatabase.validateResourceShareArn.
  by rewrite malformed.
Qed.

Lemma tables_malformed :
  GlueTables.startCreate ev ctx w s
  = (inr ("FAILED", Some (Caught (Error "Invalid ResourceShareArn."))),
     {| history := history s;
        stderr := stderr s ++ ["Error: Invalid ResourceShareArn."] |}).
Proof.
  unfold GlueTables.startCreate, try_catch, bind,
    GlueTables.getResourceShareArn, bind,
    GlueTables.validateResourceShareArn.
  by rewrite malformed.
Qed.

Lemma parameters_malformed :
  SsmParameters.createParameters ev ctx w s
  = (inr ("FAILED", Some (Caught (Error "Invalid ResourceShareArn."))),
     {| history := history s;
        stderr := stderr s ++ ["Error: Invalid ResourceShareArn."] |}).
Proof.
  unfold SsmParameters.createParameters, try_catch, bind,
    SsmParameters.getResourceShareArn, bind,
    SsmParameters.validateResourceShareArn.
  by rewrite malformed.
Qed.
End MalformedArn.

(** C5.  A Create request whose share ARN does not match the share-ARN
    pattern fails in each of the four handlers with the error
    "Invalid ResourceShareArn.", and the history of SDK calls is the one
    the invocation started with: the ARN is validated first and no call of
    any kind is made. *)
Theorem malformed_share_arn_fails_before_any_call ev ctx w s :
  RequestType ev = "Create" →
  test RESOURCE_SHARE_ARN_REGEX (ToString (ResourceShareArn (ResourceProperties ev))) = false →
  (∃ s', ResourceShareAcceptor.handler ev ctx w s
         = (inr (failed w ev ctx (Error "Invalid ResourceShareArn.")), s')
         ∧ history s' = history s) ∧
  (∃ s', GlueDatabase.handler ev ctx w s
         = (inr (failed w ev ctx (Error "Invalid ResourceShareArn.")), s')
         ∧ history s' = history s) ∧
  (∃ s', GlueTables.handler ev ctx w s
         = (inr (failed w ev ctx (Error "Invalid ResourceShareArn.")), s')
         ∧ history s' = history s) ∧
  (∃ s', SsmParameters.handler ev ctx w s
         = (inr (failed w ev ctx (Error "Invalid ResourceShareArn.")), s')
         ∧ history s' = history s).
Proof.
  intros Hc Hbad. repeat split.
  - eexists. split; [|reflexivity].
    apply (acceptor_handler_create _ _ _ _ _ _ Hc (acceptor_malformed ev ctx w s Hbad)).
  - eexists. split; [|reflexivity].
    apply (database_handler_create _ _ _ _ _ _ Hc (database_malformed ev ctx w s Hbad)).
  - eexists. split;
      [apply (tables_handler_create _ _ _ _ _ _ Hc (tables_malformed ev ctx w s Hbad))|reflexivity].
  - eexists. split;
      [apply (parameters_handler_create _ _ _ _ _ _ Hc (parameters_malformed ev ctx w s Hbad))
      |reflexivity].
Qed.

Lemma malformed_share_arn_witness :
  RequestType Scenario.malformedRequest = "Create" ∧
  test RESOURCE_SHARE_ARN_REGEX
    (ToString (ResourceShareArn (ResourceProperties Scenario.malformedRequest))) = false ∧
  ∃ s', GlueTables.handler Scenario.malformedRequest Scenario.context
          (Scenario.account []) Scenario.fresh
        = (inr (failed (Scenario.account []) Scenario.malformedRequest Scenario.context
                  (Error "Invalid ResourceShareArn.")), s')
        ∧ history s' = [].
Proof.
  split; [reflexivity|]. split; [vm_compute; reflexivity|].
  apply (malformed_share_arn_fails_before_any_call Scenario.malformedRequest Scenario.context
           (Scenario.account []) Scenario.fresh); [reflexivity|vm_compute; reflexivity].
Defined.

(** * ResourceShareAcceptor *)

Section Acceptor.
Variables (ev : Event) (ctx : Context) (w : World) (s : Machine).
Variables (captured : gmap nat string) (invitations : list ResourceShareInvitation).
Hypothesis Harn :
  test RESOURCE_SHARE_ARN_REGEX (ToString (ResourceShareArn (ResourceProperties ev))) = true.
Hypothesis Hexec :
  exec RESOURCE_SHARE_REGION_REGEX (ToString (ResourceShareArn (ResourceProperties ev)))
  = Some captured.
Hypothesis Hregion : test regionRegex (ToString (captured !! 1)) = true.
Hypothesis Hlookup :
  respond w (history s)
    (ResourceShareAcceptor.constructRAMClient (captured !! 1),
     GetResourceShareInvitationsCommand [ResourceShareArn (ResourceProperties ev)])
  = GetResourceShareInvitationsResponse invitations.

Local Abbreviation arn := (ResourceShareArn (ResourceProperties ev)).
Local Abbreviation ramClient := (ResourceShareAcceptor.constructRAMClient (captured !! 1)).
Local Abbreviation looked :=
  (history s ++ [((ramClient, GetResourceShareInvitationsCommand [arn]),
                  GetResourceShareInvitationsResponse invitations)]).

Lemma acceptor_after_validation :
  ResourceShareAcceptor.startCreate ev ctx w s
  = try_catch
      (bind (ResourceShareAcceptor.getInvitation ramClient arn) (fun inv =>
       bind (ResourceShareAcceptor.handleInvitation ramClient inv.1 inv.2) (fun _ =>
       ret ("SUCCESS", None))))
      (fun exception => ret ("FAILED", Some (Caught exception))) w s.
Proof.
  unfold ResourceShareAcceptor.startCreate, ResourceShareAcceptor.getResourceShareArn,
    ResourceShareAcceptor.validateResourceShareArn,
    ResourceShareAcceptor.getResourceShareRegion, ResourceShareAcceptor.validateRegion.
  unfold try_catch, bind at 1 2 3. rewrite Harn. monad.
  rewrite Hexec. monad. by rewrite Hregion.
Qed.

Lemma acceptor_found inv rest :
  invitations = inv :: rest →
  truthy (resourceShareInvitationArn inv) = true →
  ResourceShareAcceptor.startCreate ev ctx w s
  = try_catch
      (bind (ResourceShareAcceptor.handleInvitation ramClient (status inv)
               (resourceShareInvitationArn inv)) (fun _ => ret ("SUCCESS", None)))
      (fun exception => ret ("FAILED", Some (Caught exception)))
      w {| history := looked; stderr := stderr s |}.
Proof.
  intros Hinvs Hfound. rewrite acceptor_after_validation.
  unfold try_catch at 1 2.
  unfold bind at 1, ResourceShareAcceptor.getInvitation, send. unfold bind at 1.
  rewrite Hlookup. subst invitations. monad.
  cbn [resourceShareInvitations_of length Nat.ltb Nat.leb head mbind option_bind andb].
  by rewrite Hfound.
Qed.

Lemma acceptor_not_found :
  truthy (head invitations ≫= resourceShareInvitationArn) = false →
  ResourceShareAcceptor.startCreate ev ctx w s
  = try_catch
      (bind (ResourceShareAcceptor.resourceShareAlreadyAccepted ramClient arn) (fun accepted =>
         if accepted then ret ("SUCCESS", None)
         else throw (Error "Invalid ResourceShareArn: ResourceShareInvitationArn not found.")))
      (fun exception => ret ("FAILED", Some (Caught exception)))
      w {| history := looked; stderr := stderr s |}.
Proof.
  intros Hnone. rewrite acceptor_after_validation.
  unfold try_catch at 1 2.
  unfold bind at 1, ResourceShareAcceptor.getInvitation, send. unfold bind at 1.
  rewrite Hlookup. monad.
  cbn [resourceShareInvitations_of]. rewrite Hnone, andb_false_r.
  destruct (ResourceShareAcceptor.resourceShareAlreadyAccepted _ _ _ _) as [[e|[|]] s1];
    reflexivity.
Qed.
End Acceptor.

(** C2.  A Create request of ResourceShareAcceptor whose lookup returns an
    invitation (the first one listed, carrying an invitation ARN) ends as
    the state of the invitation says.  PENDING: the accept call is issued,
    once, and the request succeeds, also when the call is rejected with
    ResourceShareInvitationAlreadyAcceptedException; any other rejection is
    the failure reported.  ACCEPTED: the request succeeds and no accept
    call is issued.  EXPIRED and REJECTED: the request fails, and the lookup
    is the only call. *)
Theorem invitation_state_decides ev ctx w s captured inv rest :
  let arn := ResourceShareArn (ResourceProperties ev) in
  let ramClient := ResourceShareAcceptor.constructRAMClient (captured !! 1) in
  let lookup := (ramClient, GetResourceShareInvitationsCommand [arn]) in
  let accept :=
    (ramClient, AcceptResourceShareInvitationCommand (resourceShareInvitationArn inv)) in
  let looked := history s ++ [(lookup, GetResourceShareInvitationsResponse (inv :: rest))] in
  let answer := respond w looked accept in
  let run := ResourceShareAcceptor.handler ev ctx w s in
  RequestType ev = "Create" →
  test RESOURCE_SHARE_ARN_REGEX (ToString arn) = true →
  exec RESOURCE_SHARE_REGION_REGEX (ToString arn) = Some captured →
  test regionRegex (ToString (captured !! 1)) = true →
  respond w (history s) lookup = GetResourceShareInvitationsResponse (inv :: rest) →
  truthy (resourceShareInvitationArn inv) = true →
  (status inv = Some ResourceShareAcceptor.PENDING →
     run = (inr match answer with
                | Rejected n m =>
                    if String.eqb n "ResourceShareInvitationAlreadyAcceptedException"
                    then succeeded w ev ctx
                    else failed w ev ctx (ServiceException n m)
                | _ => succeeded w ev ctx
                end,
            {| history := looked ++ [(accept, answer)]; stderr := stderr s |}) ∧
     count is_accept (calls_since s run.2) = 1) ∧
  (status inv = Some ResourceShareAcceptor.ACCEPTED →
     run = (inr (succeeded w ev ctx), {| history := looked; stderr := stderr s |}) ∧
     count is_accept (calls_since s run.2) = 0) ∧
  (status inv = Some ResourceShareAcceptor.EXPIRED →
     run = (inr (failed w ev ctx (Error "Invitation has expired.")),
            {| history := looked; stderr := stderr s |})) ∧
  (status inv = Some ResourceShareAcceptor.REJECTED →
     run = (inr (failed w ev ctx (Error "Invitation has already been rejected.")),
            {| history := looked; stderr := stderr s |})).
Proof.
  intros arn ramClient lookup accept looked answer run Hc Harn Hexec Hregion Hlookup Hfound.
  pose proof (acceptor_found ev ctx w s captured _ Harn Hexec Hregion Hlookup inv rest
                eq_refl Hfound) as Hrun.
  fold arn ramClient lookup looked in Hrun.
  unfold ResourceShareAcceptor.handleInvitation in Hrun.
  split; [|split; [|split]]; intros Hst; rewrite Hst in Hrun.
  - rewrite bool_decide_eq_true_2 in Hrun by done.
    unfold ResourceShareAcceptor.acceptInvitation, send in Hrun. monad in Hrun.
    fold accept answer in Hrun.
    assert (Hgo : run = (inr match answer with
                | Rejected n m =>
                    if String.eqb n "ResourceShareInvitationAlreadyAcceptedException"
                    then succeeded w ev ctx
                    else failed w ev ctx (ServiceException n m)
                | _ => succeeded w ev ctx
                end,
            {| history := looked ++ [(accept, answer)]; stderr := stderr s |})).
    { destruct answer as [n m| | | | |];
        try exact (acceptor_handler_create _ _ _ _ _ _ Hc Hrun).
      cbn [instanceof] in Hrun.
      destruct (String.eqb n _); exact (acceptor_handler_create _ _ _ _ _ _ Hc Hrun). }
    split; [exact Hgo|]. rewrite Hgo. cbn [snd]. unfold looked.
    rewrite <- app_assoc, calls_since_app. reflexivity.
  - rewrite bool_decide_eq_false_2 in Hrun by done.
    rewrite bool_decide_eq_false_2 in Hrun by done.
    rewrite bool_decide_eq_true_2 in Hrun by done.
    pose proof (acceptor_handler_create _ _ _ _ _ _ Hc Hrun) as Hgo.
    split; [exact Hgo|]. fold run in Hgo. rewrite Hgo. cbn [snd]. unfold looked.
    rewrite calls_since_app. reflexivity.
  - rewrite bool_decide_eq_false_2 in Hrun by done.
    rewrite bool_decide_eq_true_2 in Hrun by done.
    exact (acceptor_handler_create _ _ _ _ _ _ Hc Hrun).
  - rewrite bool_decide_eq_false_2 in Hrun by done.
    rewrite bool_decide_eq_false_2 in Hrun by done.
    rewrite bool_decide_eq_false_2 in Hrun by done.
    rewrite bool_decide_eq_true_2 in Hrun by done.
    exact (acceptor_handler_create _ _ _ _ _ _ Hc Hrun).
Qed.

Lemma invitation_state_witness :
  (ResourceShareAcceptor.handler (Scenario.createRequest (PArray []))
     Scenario.context (Scenario.account [Scenario.invitation "PENDING"])
     Scenario.fresh).1
  = inr (succeeded (Scenario.account [Scenario.invitation "PENDING"])
           (Scenario.createRequest (PArray [])) Scenario.context)
  ∧ count is_accept
      (calls_since Scenario.fresh
         (ResourceShareAcceptor.handler (Scenario.createRequest (PArray []))
            Scenario.context (Scenario.account [Scenario.invitation "PENDING"])
            Scenario.fresh).2) = 1.
Proof.
  destruct (invitation_state_decides (Scenario.createRequest (PArray [])) Scenario.context
              (Scenario.account [Scenario.invitation "PENDING"]) Scenario.fresh
              Scenario.regionCaptures (Scenario.invitation "PENDING") [])
    as [Hpending _];
    [reflexivity|vm_compute; reflexivity|vm_compute; reflexivity|vm_compute; reflexivity
    |reflexivity|reflexivity|].
  destruct (Hpending eq_refl) as [Hrun Hcount]. split; [|exact Hcount].
  rewrite Hrun. reflexivity.
Defined.

(** C3.  A Create request of ResourceShareAcceptor whose lookup returns no
    invitation lists the resources of the share next.  With a listing that
    is not empty the request succeeds; with an empty listing it fails with
    the error that the invitation was not found.  In both cases the lookup
    and the listing are the only calls, so no accept call is issued. *)
Theorem no_invitation_checks_the_listing ev ctx w s captured invitations resources :
  let arn := ResourceShareArn (ResourceProperties ev) in
  let ramClient := ResourceShareAcceptor.constructRAMClient (captured !! 1) in
  let lookup := (ramClient, GetResourceShareInvitationsCommand [arn]) in
  let listing := (ramClient, ListResourcesCommand "OTHER-ACCOUNTS" [arn] None) in
  let looked := history s ++ [(lookup, GetResourceShareInvitationsResponse invitations)] in
  let listed := looked ++ [(listing, ListResourcesResponse resources)] in
  let run := ResourceShareAcceptor.handler ev ctx w s in
  RequestType ev = "Create" →
  test RESOURCE_SHARE_ARN_REGEX (ToString arn) = true →
  exec RESOURCE_SHARE_REGION_REGEX (ToString arn) = Some captured →
  test regionRegex (ToString (captured !! 1)) = true →
  respond w (history s) lookup = GetResourceShareInvitationsResponse invitations →
  truthy (head invitations ≫= resourceShareInvitationArn) = false →
  respond w looked listing = ListResourcesResponse resources →
  run = (inr (match resources with
              | [] => failed w ev ctx
                        (Error "Invalid ResourceShareArn: ResourceShareInvitationArn not found.")
              | _ :: _ => succeeded w ev ctx
              end),
         {| history := listed; stderr := stderr s |}) ∧
  count is_accept (calls_since s run.2) = 0.
Proof.
  intros arn ramClient lookup listing looked listed run Hc Harn Hexec Hregion Hlookup Hnone Hlist.
  pose proof (acceptor_not_found ev ctx w s captured _ Harn Hexec Hregion Hlookup Hnone) as Hrun.
  fold arn ramClient lookup looked in Hrun.
  unfold ResourceShareAcceptor.resourceShareAlreadyAccepted, send in Hrun.
  unfold try_catch, bind at 1 2 in Hrun. cbn [history stderr] in Hrun.
  fold listing in Hrun. rewrite Hlist in Hrun. fold listed in Hrun. monad in Hrun.
  cbn [resources_of] in Hrun.
  assert (Hgo : run = (inr (match resources with
              | [] => failed w ev ctx
                        (Error "Invalid ResourceShareArn: ResourceShareInvitationArn not found.")
              | _ :: _ => succeeded w ev ctx
              end),
         {| history := listed; stderr := stderr s |})).
  { destruct resources; exact (acceptor_handler_create _ _ _ _ _ _ Hc Hrun). }
  split; [exact Hgo|]. rewrite Hgo. cbn [snd]. unfold listed, looked.
  rewrite <- app_assoc, calls_since_app. reflexivity.
Qed.

Lemma no_invitation_witness :
  (ResourceShareAcceptor.handler (Scenario.createRequest (PArray []))
     Scenario.context (Scenario.account []) Scenario.fresh).1
  = inr (succeeded (Scenario.account []) (Scenario.createRequest (PArray [])) Scenario.context)
  ∧ count is_accept
      (calls_since Scenario.fresh
         (ResourceShareAcceptor.handler (Scenario.createRequest (PArray []))
            Scenario.context (Scenario.account []) Scenario.fresh).2) = 0.
Proof.
  destruct (no_invitation_checks_the_listing (Scenario.createRequest (PArray []))
              Scenario.context (Scenario.account []) Scenario.fresh
              Scenario.regionCaptures [] (Scenario.database :: Scenario.tables))
    as [Hrun Hcount];
    [reflexivity|vm_compute; reflexivity|vm_compute; reflexivity|vm_compute; reflexivity
    |reflexivity|reflexivity|reflexivity|].
  split; [|exact Hcount]. rewrite Hrun. reflexivity.
Defined.

(** * GlueDatabase *)

Section Database.
Variables (ev : Event) (ctx : Context) (w : World) (s : Machine).
Variables (first : Resource) (rest : list Resource) (databaseArn part : string).
Hypothesis Harn :
  test RESOURCE_SHARE_ARN_REGEX (ToString (ResourceShareArn (ResourceProperties ev))) = true.
Hypothesis Hlist :
  respond w (history s)
    ({| service := RAM; region := AWS_REGION w |},
     ListResourcesCommand "OTHER-ACCOUNTS" [ResourceShareArn (ResourceProperties ev)]
       (Some "glue:database"))
  = ListResourcesResponse (first :: rest).
Hypothesis Hfirst : arn first = Some databaseArn.
Hypothesis Hshape : test glueDatabaseRegex databaseArn = true.
Hypothesis Hpart : split ":" databaseArn !! 5 = Some part.

Local Abbreviation listing :=
  ({| service := RAM; region := AWS_REGION w |},
   ListResourcesCommand "OTHER-ACCOUNTS" [ResourceShareArn (ResourceProperties ev)]
     (Some "glue:database")).
Local Abbreviation create :=
  ({| service := Glue; region := AWS_REGION w |},
   CreateDatabaseCommand (split "/" part !! 1) (split ":" databaseArn !! 4)
     (split "/" part !! 1)).
Local Abbreviation listed := (history s ++ [(listing, ListResourcesResponse (first :: rest))]).

Lemma database_create_run :
  GlueDatabase.startCreate ev ctx w s
  = (inr match respond w listed create with
         | Rejected n m =>
             if String.eqb n "AlreadyExistsException"
             then ("SUCCESS", split "/" part !! 1, None)
             else ("FAILED", None, Some (Caught (ServiceException n m)))
         | _ => ("SUCCESS", split "/" part !! 1, None)
         end,
     {| history := listed ++ [(create, respond w listed create)]; stderr := stderr s |}).
Proof.
  unfold GlueDatabase.startCreate. unfold bind at 1. unfold process_env_AWS_REGION at 1.
  unfold try_catch, bind at 1.
  unfold GlueDatabase.getResourceShareArn, GlueDatabase.validateResourceShareArn.
  unfold bind at 1. rewrite Harn. monad.
  unfold GlueDatabase.getSharedGlueDatabaseArn, send. unfold bind at 1. unfold bind at 1.
  rewrite Hlist. monad. cbn [resources_of length Nat.eqb head].
  rewrite Hfirst.
  unfold GlueDatabase.getDatabaseArnParts. cbn [ToString]. rewrite Hshape. monad.
  rewrite Hpart.
  unfold GlueDatabase.createGlueDatabase, send. monad.
  destruct (respond w listed create) as [n m| | | | |]; try reflexivity.
  cbn [instanceof]. by destruct (String.eqb n _).
Qed.
End Database.

(** C4.  Two Create requests of GlueDatabase with the same inputs, one
    after the other: the share lists the same database both times, the
    first run creates it, and the second run is told by Glue that the
    database already exists.  Both runs report SUCCESS, the second by
    downgrading AlreadyExistsException, and both report the same physical
    resource id, the simple name taken from the ARN of the shared
    database. *)
Theorem database_create_is_idempotent
        ev ctx1 ctx2 w s first rest1 rest2 databaseArn part name m :
  let shareArn := ResourceShareArn (ResourceProperties ev) in
  let ram := {| service := RAM; region := AWS_REGION w |} in
  let glue := {| service := Glue; region := AWS_REGION w |} in
  let listing := (ram, ListResourcesCommand "OTHER-ACCOUNTS" [shareArn] (Some "glue:database")) in
  let create :=
    (glue, CreateDatabaseCommand (Some name) (split ":" databaseArn !! 4) (Some name)) in
  let h1 := history s ++ [(listing, ListResourcesResponse (first :: rest1))] in
  let h2 := h1 ++ [(create, respond w h1 create)] in
  let h3 := h2 ++ [(listing, ListResourcesResponse (first :: rest2))] in
  let h4 := h3 ++ [(create, Rejected "AlreadyExistsException" m)] in
  RequestType ev = "Create" →
  test RESOURCE_SHARE_ARN_REGEX (ToString shareArn) = true →
  arn first = Some databaseArn →
  test glueDatabaseRegex databaseArn = true →
  split ":" databaseArn !! 5 = Some part →
  split "/" part !! 1 = Some name →
  respond w (history s) listing = ListResourcesResponse (first :: rest1) →
  rejected (respond w h1 create) = false →
  respond w h2 listing = ListResourcesResponse (first :: rest2) →
  respond w h3 create = Rejected "AlreadyExistsException" m →
  GlueDatabase.handler ev ctx1 w s
  = (inr (responseBody w ev ctx1 "SUCCESS" (Some name) None),
     {| history := h2; stderr := stderr s |}) ∧
  GlueDatabase.handler ev ctx2 w {| history := h2; stderr := stderr s |}
  = (inr (responseBody w ev ctx2 "SUCCESS" (Some name) None),
     {| history := h4; stderr := stderr s |}) ∧
  PhysicalId (responseBody w ev ctx1 "SUCCESS" (Some name) None) = name ∧
  PhysicalId (responseBody w ev ctx2 "SUCCESS" (Some name) None) = name.
Proof.
  intros shareArn ram glue listing create h1 h2 h3 h4 Hc Harn Hfirst Hshape Hpart Hname
    Hlist1 Hcreated Hlist2 Hexists.
  split; [|split; [|split; reflexivity]].
  - pose proof (database_create_run ev ctx1 w s first rest1 databaseArn part
                  Harn Hlist1 Hfirst Hshape Hpart) as Hrun.
    rewrite Hname in Hrun. fold shareArn ram glue listing create h1 in Hrun.
    apply (database_handler_create _ _ _ _ _ _ Hc) in Hrun.
    rewrite Hrun. fold h2.
    destruct (respond w h1 create); try discriminate Hcreated; reflexivity.
  - pose proof (database_create_run ev ctx2 w {| history := h2; stderr := stderr s |}
                  first rest2 databaseArn part Harn Hlist2 Hfirst Hshape Hpart) as Hrun.
    rewrite Hname in Hrun. cbn [history stderr] in Hrun.
    fold shareArn ram glue listing create h3 in Hrun. rewrite Hexists in Hrun.
    apply (database_handler_create _ _ _ _ _ _ Hc) in Hrun.
    exact Hrun.
Qed.

Lemma database_create_twice_witness :
  ∃ s1 s2,
    GlueDatabase.handler (Scenario.createRequest (PArray [])) Scenario.context
      (Scenario.account []) Scenario.fresh
    = (inr (responseBody (Scenario.account []) (Scenario.createRequest (PArray []))
              Scenario.context "SUCCESS" (Some "shared_db") None), s1) ∧
    GlueDatabase.handler (Scenario.createRequest (PArray [])) Scenario.laterContext
      (Scenario.account []) s1
    = (inr (responseBody (Scenario.account []) (Scenario.createRequest (PArray []))
              Scenario.laterContext "SUCCESS" (Some "shared_db") None), s2).
Proof.
  destruct (database_create_is_idempotent (Scenario.createRequest (PArray []))
              Scenario.context Scenario.laterContext (Scenario.account []) Scenario.fresh
              Scenario.database [] [] "arn:aws:glue:us-west-2:222222222222:database/shared_db"
              "database/shared_db" "shared_db" "Database already exists.")
    as (Hfirst & Hsecond & _);
    [reflexivity|vm_compute; reflexivity|reflexivity|vm_compute; reflexivity
    |vm_compute; reflexivity|vm_compute; reflexivity|reflexivity|reflexivity
    |reflexivity|vm_compute; reflexivity|].
  eexists _, _. split; [exact Hfirst|exact Hsecond].
Defined.

(** * GlueTables *)

Lemma validate_loop l acc w s :
  ∃ x, for_of l (fun principal => GlueTables.validateIAMPrincipal principal acc) w s = (x, s).
Proof.
  revert s. induction l as [|p l IH]; intros s; [by eexists|].
  cbn [for_of]. unfold bind, GlueTables.validateIAMPrincipal.
  destruct (negb _); monad; [by eexists|apply IH].
Qed.

Lemma send_state client command w s :
  (send client command w s).2
  = {| history := history s ++ [((client, command), respond w (history s) (client, command))];
       stderr := stderr s |}.
Proof. unfold send. by destruct (respond _ _ _). Qed.

(** The grant loop issues the calls for a prefix of the principals, in
    order, and for all of them when it returns. *)
Lemma grant_loop lf db ps w s :
  ∃ x g k,
    GlueTables.grantLakeFormationPermission lf db ps w s
    = (x, {| history := history s ++ g; stderr := stderr s |}) ∧
    g.*1 = (fun p => (lf, GrantPermissionsCommand p db ["SELECT"])) <$> take k ps ∧
    (∀ u, x = inr u →
          g.*1 = (fun p => (lf, GrantPermissionsCommand p db ["SELECT"])) <$> ps).
Proof.
  revert s. induction ps as [|p ps IH]; intros s.
  - exists (inr tt), [], 0. cbn. rewrite app_nil_r. by destruct s.
  - unfold GlueTables.grantLakeFormationPermission. cbn [for_of].
    unfold bind at 1. unfold bind at 1.
    pose proof (send_state lf (GrantPermissionsCommand p db ["SELECT"]) w s) as Hsend.
    destruct (send lf (GrantPermissionsCommand p db ["SELECT"]) w s) as [[e|r] s1].
    + cbn [snd] in Hsend. subst s1. eexists (inl e), [_], 1. cbn. split; [reflexivity|].
      split; [by rewrite take_0|]. intros u Hu. discriminate.
    + cbn [snd] in Hsend. destruct (IH s1) as (x & g & k & Hs & Hg & Hok).
      unfold GlueTables.grantLakeFormationPermission in Hs.
      eexists x, (_ :: g), (S k). unfold ret at 1. cbv beta iota. rewrite Hs. subst s1.
      cbn [history stderr].
      rewrite <- app_assoc. split; [reflexivity|]. split.
      * cbn. by rewrite Hg.
      * intros u Hu. cbn. by rewrite (Hok u Hu).
Qed.

Lemma getDatabaseName_run ram arn w s :
  ∃ x answer,
    GlueTables.getDatabaseName ram arn w s
    = (x, {| history := history s
               ++ [((ram, ListResourcesCommand "OTHER-ACCOUNTS" [arn] (Some "glue:database")),
                    answer)];
             stderr := stderr s |}).
Proof.
  unfold GlueTables.getDatabaseName, GlueTables.getDatabaseNameArn.
  unfold bind at 1. unfold bind at 1.
  destruct (send_run ram (ListResourcesCommand "OTHER-ACCOUNTS" [arn] (Some "glue:database")) w s)
    as (x & -> & _).
  destruct x as [e|r]; [by eexists _, _|]. monad.
  destruct (resources_of r) as [[|r0 l]|]; cbn; try by eexists _, _.
  destruct (exec _ _); by eexists _, _.
Qed.

Lemma getSettings_run lf w s :
  ∃ x answer,
    GlueTables.getLakeFormationDataLakeSettings lf w s
    = (x, {| history := history s ++ [((lf, GetDataLakeSettingsCommand), answer)];
             stderr := stderr s |}) ∧
    ∀ o, x = inr o → o = DataLakeSettings_of answer.
Proof.
  unfold GlueTables.getLakeFormationDataLakeSettings. unfold bind at 1.
  destruct (send_run lf GetDataLakeSettingsCommand w s) as (x & -> & Hx & _).
  destruct x as [e|r]; monad; eexists _, _; (split; [reflexivity|]); intros o Ho; [done|].
  injection Ho as <-. by rewrite (Hx r eq_refl).
Qed.

Lemma buildDataLakeSettings_run o ps w s :
  ∃ x, GlueTables.buildDataLakeSettings o ps w s = (x, s) ∧
       ∀ new, x = inr new →
         ∃ existing admins,
           o = Some existing ∧
           existing !! "DataLakeAdmins" = Some (Principals admins) ∧
           new = <["DataLakeAdmins" := Principals (admins_of (new_Set (identifiers admins ++ ps)))]>
                   existing.
Proof.
  unfold GlueTables.buildDataLakeSettings, GlueTables.buildDataLakeAdmins.
  destruct o as [existing|]; monad; [|eexists; split; [reflexivity|done]].
  destruct (existing !! "DataLakeAdmins") as [[admins|json]|] eqn:Hadm;
    eexists; (split; [reflexivity|]); intros new Hnew; try done.
  injection Hnew as <-. by exists existing, admins.
Qed.

Lemma setSettings_run lf settings w s :
  ∃ x answer,
    GlueTables.setLakeFormationDataLakeSettings lf settings w s
    = (x, {| history := history s ++ [((lf, PutDataLakeSettingsCommand settings), answer)];
             stderr := stderr s |}).
Proof.
  unfold GlueTables.setLakeFormationDataLakeSettings. unfold bind at 1.
  destruct (send_run lf (PutDataLakeSettingsCommand settings) w s) as (x & -> & _).
  destruct x; by eexists _, _.
Qed.

(** Every run of the create path has one of the shapes of [TablesRun]. *)
Lemma tables_run ev ctx w s :
  ∃ st reason t errs,
    GlueTables.startCreate ev ctx w s
    = (inr (st, reason), {| history := history s ++ t; stderr := stderr s ++ errs |}) ∧
    TablesRun ev w st t.
Proof.
  unfold GlueTables.startCreate.
  unfold try_catch, bind at 1.
  unfold GlueTables.getResourceShareArn, GlueTables.validateResourceShareArn.
  unfold bind at 1.
  destruct (test RESOURCE_SHARE_ARN_REGEX _) eqn:Harn; monad.
  2:{ eexists _, _, [], [_]. rewrite app_nil_r. split; [reflexivity|constructor]. }
  unfold GlueTables.getLakeFormationDataLakePrincipals, GlueTables.getAccountId.
  destruct (exec ACCOUNT_ID_FROM_STACK_REGEX _) as [captured|] eqn:Hacc; monad.
  2:{ eexists _, _, [], [_]. rewrite app_nil_r. split; [reflexivity|constructor]. }
  unfold GlueTables.validatePrincipals.
  destruct (isArray _) eqn:Harr; monad.
  2:{ eexists _, _, [], [_]. rewrite app_nil_r. split; [reflexivity|constructor]. }
  destruct (validate_loop (elements (LakeFormationPrincipals (ResourceProperties ev)))
              (captured !! 1) w s) as [x Hval].
  rewrite Hval. destruct x as [e|[]]; monad.
  { eexists _, _, [], [_]. rewrite app_nil_r. split; [reflexivity|constructor]. }
  unfold GlueTables.buildClients, GlueTables.getCurrentCallerIdentityArn. monad.
  destruct (getDatabaseName_run {| service := RAM; region := AWS_REGION w |}
              (ResourceShareArn (ResourceProperties ev)) w s) as (x & r1 & ->).
  destruct x as [e|db]; cbn [history stderr].
  { eexists _, _, [_], [_]. split; [reflexivity|constructor]. }
  match goal with |- context [GlueTables.getLakeFormationDataLakeSettings ?c ?w ?s] =>
    destruct (getSettings_run c w s) as (x & r2 & -> & Hx) end.
  cbn [history stderr] in *.
  destruct x as [e|o]; cbn [history stderr].
  { eexists _, _, [_; _], [_]. rewrite <- app_assoc. split; [reflexivity|constructor]. }
  specialize (Hx o eq_refl).
  match goal with |- context [GlueTables.buildDataLakeSettings ?o ?ps ?w ?s] =>
    destruct (buildDataLakeSettings_run o ps w s) as (x & -> & Hnew) end.
  destruct x as [e|new]; cbn [history stderr].
  { eexists _, _, [_; _], [_]. rewrite <- app_assoc. split; [reflexivity|constructor]. }
  destruct (Hnew new eq_refl) as (existing & admins & -> & Hadm & ->). clear Hnew.
  match goal with |- context [GlueTables.buildDataLakeSettings ?o ?ps ?w ?s] =>
    destruct (buildDataLakeSettings_run o ps w s) as (x & -> & Htmp) end.
  destruct x as [e|tmp]; cbn [history stderr].
  { eexists _, _, [_; _], [_]. rewrite <- app_assoc. split; [reflexivity|constructor]. }
  destruct (Htmp tmp eq_refl) as (new' & admins' & Hn & Hadm' & ->). clear Htmp.
  injection Hn as <-. rewrite lookup_insert_eq in Hadm'. injection Hadm' as <-.
  match goal with |- context [GlueTables.setLakeFormationDataLakeSettings ?c ?x ?w ?s] =>
    destruct (setSettings_run c x w s) as (x1 & r3 & ->) end.
  cbn [history stderr].
  symmetry in Hx. destruct r2; try discriminate Hx. cbn in Hx. injection Hx as ->.
  destruct x1 as [e|[]].
  { eexists _, _, _, [_]. rewrite <- !app_assoc. split; [reflexivity|].
    cbn [app].
    apply (run_interrupted ev w _ existing admins _ db 0 [] Hadm). by rewrite take_0. }
  match goal with |- context [GlueTables.grantLakeFormationPermission ?c ?d ?ps ?w ?s] =>
    destruct (grant_loop c d ps w s) as (x2 & g & k & -> & Hg & Hall) end.
  cbn [history stderr].
  destruct x2 as [e|[]].
  { eexists _, _, _, [_]. rewrite <- !app_assoc. split; [reflexivity|].
    cbn [app]. apply (run_interrupted ev w _ existing admins _ db k g Hadm Hg). }
  specialize (Hall tt eq_refl).
  match goal with |- context [GlueTables.setLakeFormationDataLakeSettings ?c ?x ?w ?s] =>
    destruct (setSettings_run c x w s) as (x3 & r4 & ->) end.
  cbn [history stderr].
  destruct x3 as [e|[]].
  - eexists _, _, _, [_]. rewrite <- !app_assoc. split; [reflexivity|].
    cbn [app]. apply (run_complete ev w _ existing admins _ db g _ _ Hadm Hall). by right.
  - eexists _, _, _, []. rewrite (app_nil_r (stderr s)), <- !app_assoc. split; [reflexivity|].
    cbn [app]. apply (run_complete ev w _ existing admins _ db g _ _ Hadm Hall). by left.
Qed.

Lemma tables_handler_run ev ctx w s :
  RequestType ev = "Create" →
  ∃ st reason t s',
    GlueTables.handler ev ctx w s = (inr (responseBody w ev ctx st None reason), s') ∧
    calls_since s s' = t ∧
    TablesRun ev w st t.
Proof.
  intros Hc. destruct (tables_run ev ctx w s) as (st & reason & t & errs & Hrun & Hshape).
  exists st, reason, t. eexists. split; [|split; [|exact Hshape]].
  - exact (tables_handler_create _ _ _ _ _ _ Hc Hrun).
  - apply calls_since_app.
Qed.

Lemma identifiers_admins_of l : identifiers (admins_of l) = l.
Proof.
  unfold identifiers, admins_of. rewrite <- list_fmap_compose.
  induction l as [|a l IH]; [reflexivity|]. cbn. by rewrite IH.
Qed.

Lemma grants_are_grants lf db (ps : list string) (g : History) e :
  g.*1 = (fun p => (lf, GrantPermissionsCommand p db ["SELECT"])) <$> ps →
  e ∈ g → is_grant e.1.2 = true.
Proof.
  intros Hg He. assert (Hin : e.1 ∈ g.*1) by (apply list_elem_of_fmap; eauto).
  rewrite Hg in Hin. apply list_elem_of_fmap in Hin as (p & -> & _). reflexivity.
Qed.

(** ** Why a run fails *)

Lemma validate_loop_checks l accountId w s :
  for_of l (fun principal => GlueTables.validateIAMPrincipal principal accountId) w s
  = (if forallb (test (iamPrincipalRegex (ToString accountId))) l
     then inr tt
     else inl (Error ("Invalid IAM principal, or IAM principal does not belong to account "
                      +:+ ToString accountId +:+ ".")), s).
Proof.
  induction l as [|p l IH]; [reflexivity|].
  cbn [for_of forallb]. unfold bind at 1, GlueTables.validateIAMPrincipal at 1.
  destruct (test (iamPrincipalRegex (ToString accountId)) p); monad; [exact IH|reflexivity].
Qed.

(** getDatabaseName returns exactly when the listing names a database. *)
Lemma getDatabaseName_answered ram shareArn w s :
  let listing := (ram, ListResourcesCommand "OTHER-ACCOUNTS" [shareArn] (Some "glue:database")) in
  ∃ x,
    GlueTables.getDatabaseName ram shareArn w s
    = (x, {| history := history s ++ [(listing, respond w (history s) listing)];
             stderr := stderr s |}) ∧
    (∀ e, x = inl e → names_a_database (respond w (history s) listing) = false).
Proof.
  intros listing.
  unfold GlueTables.getDatabaseName, GlueTables.getDatabaseNameArn.
  unfold bind at 1. unfold bind at 1.
  destruct (send_run ram (ListResourcesCommand "OTHER-ACCOUNTS" [shareArn] (Some "glue:database"))
              w s) as (x & -> & Hx & Hrej).
  fold listing in Hx, Hrej |- *.
  destruct x as [e|r].
  { eexists. split; [reflexivity|]. intros _ _.
    destruct Hrej as (n & m & -> & _). reflexivity. }
  rewrite <- (Hx r eq_refl). monad. unfold names_a_database.
  destruct (resources_of r) as [[|first others]|]; cbn;
    try (eexists; split; [reflexivity|]; by intros).
  destruct (exec _ _); eexists; (split; [reflexivity|]); by intros.
Qed.

(** A call either returns its answer or throws on a rejection. *)
Lemma send_cases client command w s :
  ∃ x a,
    send client command w s
    = (x, {| history := history s ++ [((client, command), a)]; stderr := stderr s |}) ∧
    (∀ e, x = inl e → rejected a = true) ∧
    (∀ r, x = inr r → r = a).
Proof.
  unfold send. destruct (respond _ _ _) eqn:Hr; eexists _, _;
    (split; [reflexivity|]); split; intros ? [=]; by subst.
Qed.

(** The grant loop throws only when a grant is rejected. *)
Lemma grant_loop_answered lf db ps w s :
  ∃ x g,
    GlueTables.grantLakeFormationPermission lf db ps w s
    = (x, {| history := history s ++ g; stderr := stderr s |}) ∧
    (∀ e, x = inl e → forallb answered g = false).
Proof.
  revert s. induction ps as [|p ps IH]; intros s.
  - exists (inr tt), []. cbn. rewrite app_nil_r. by destruct s.
  - unfold GlueTables.grantLakeFormationPermission. cbn [for_of].
    unfold bind at 1. unfold bind at 1.
    destruct (send_cases lf (GrantPermissionsCommand p db ["SELECT"]) w s)
      as (x & a & -> & Hrej & _).
    destruct x as [e|r].
    + eexists (inl e), [_]. split; [reflexivity|]. intros _ _.
      cbn [forallb]. unfold answered. cbn [fst snd]. by rewrite (Hrej e eq_refl).
    + unfold ret at 1. cbv beta iota.
      match goal with |- context [for_of ps _ w ?s1] =>
        destruct (IH s1) as (x & g & Hs & Hx) end.
      unfold GlueTables.grantLakeFormationPermission in Hs.
      rewrite Hs. cbn [history stderr].
      eexists x, (_ :: g). rewrite <- app_assoc. split; [reflexivity|].
      intros e He. cbn [forallb]. rewrite (Hx e He). apply andb_false_r.
Qed.

(** buildDataLakeSettings throws only when the settings hold no list of
    administrators. *)
Lemma buildDataLakeSettings_throws o ps w s e s' :
  GlueTables.buildDataLakeSettings o ps w s = (inl e, s') →
  ∀ admins, o ≫= (.!! "DataLakeAdmins") ≠ Some (Principals admins).
Proof.
  unfold GlueTables.buildDataLakeSettings, GlueTables.buildDataLakeAdmins.
  destruct o as [existing|]; monad; [|done].
  cbn. destruct (existing !! "DataLakeAdmins") as [[admins|json]|]; by intros.
Qed.

(** Why a run of the create path fails.  When the input passes the checks
    the first call is made; and the run then succeeds unless a call of the
    run was not answered as the run needs. *)
Lemma tables_outcome ev ctx w s :
  let listing :=
    ({| service := RAM; region := AWS_REGION w |},
     ListResourcesCommand "OTHER-ACCOUNTS" [ResourceShareArn (ResourceProperties ev)]
       (Some "glue:database")) in
  ∃ st reason t errs,
    GlueTables.startCreate ev ctx w s
    = (inr (st, reason), {| history := history s ++ t; stderr := stderr s ++ errs |}) ∧
    (tables_input_ok ev = false → t = []) ∧
    (tables_input_ok ev = true →
       (∃ rest, t = (listing, respond w (history s) listing) :: rest) ∧
       (forallb answered t = true → st = "SUCCESS")).
Proof.
  intros listing. unfold tables_input_ok.
  unfold GlueTables.startCreate.
  unfold try_catch, bind at 1.
  unfold GlueTables.getResourceShareArn, GlueTables.validateResourceShareArn.
  unfold bind at 1.
  destruct (test RESOURCE_SHARE_ARN_REGEX _) eqn:Harn; monad.
  2:{ eexists _, _, [], [_]. rewrite app_nil_r. split; [reflexivity|]. by split. }
  unfold GlueTables.getLakeFormationDataLakePrincipals, GlueTables.getAccountId.
  destruct (exec ACCOUNT_ID_FROM_STACK_REGEX _) as [captured|] eqn:Hacc; monad.
  2:{ eexists _, _, [], [_]. rewrite app_nil_r. split; [reflexivity|]. by split. }
  unfold GlueTables.validatePrincipals.
  destruct (isArray _) eqn:Harr; monad.
  2:{ eexists _, _, [], [_]. rewrite app_nil_r. split; [reflexivity|]. by split. }
  rewrite validate_loop_checks.
  destruct (forallb _ _) eqn:Hval; monad.
  2:{ eexists _, _, [], [_]. rewrite app_nil_r. split; [reflexivity|]. by split. }
  unfold GlueTables.buildClients, GlueTables.getCurrentCallerIdentityArn. monad.
  destruct (getDatabaseName_answered {| service := RAM; region := AWS_REGION w |}
              (ResourceShareArn (ResourceProperties ev)) w s) as (x & -> & Hdb).
  fold listing in Hdb |- *.
  generalize dependent (respond w (history s) listing). intros a1 Hdb.
  destruct x as [e|db]; cbn [history stderr].
  { eexists _, _, [_], [_]. split; [reflexivity|]. split; [done|]. intros _.
    split; [by eexists|]. cbn [forallb]. unfold answered at 1. cbn [fst snd listing].
    rewrite (Hdb e eq_refl). done. }
  clear Hdb.
  unfold GlueTables.getLakeFormationDataLakeSettings. unfold bind at 1.
  match goal with |- context [send ?c GetDataLakeSettingsCommand w ?s1] =>
    destruct (send_cases c GetDataLakeSettingsCommand w s1) as (x & a2 & -> & Hrej & Hx) end.
  cbn [history stderr] in *.
  destruct x as [e|r2]; cbn [history stderr].
  { eexists _, _, [_; _], [_]. rewrite <- app_assoc. split; [reflexivity|].
    split; [done|]. intros _. split; [by eexists|].
    cbn [forallb]. unfold answered at 2. cbn [fst snd].
    destruct a2; try discriminate (Hrej e eq_refl). cbn. by rewrite andb_false_r. }
  rewrite (Hx r2 eq_refl). clear Hx Hrej r2. unfold ret at 1. cbv beta iota.
  match goal with |- context [GlueTables.buildDataLakeSettings ?o ?ps ?w ?s] =>
    destruct (GlueTables.buildDataLakeSettings o ps w s) as [x s1] eqn:Hbuild;
    destruct (buildDataLakeSettings_run o ps w s) as (x' & Hb & Hnew) end.
  rewrite Hbuild in Hb. injection Hb as <- ->.
  destruct x as [e|new]; cbn [history stderr].
  { eexists _, _, [_; _], [_]. rewrite <- app_assoc. split; [reflexivity|].
    split; [done|]. intros _. split; [by eexists|].
    cbn [forallb]. unfold answered at 2. cbn [fst snd].
    pose proof (buildDataLakeSettings_throws _ _ _ _ _ _ Hbuild) as Hno.
    unfold holds_administrators.
    destruct (DataLakeSettings_of a2 ≫= _) as [[admins|json]|];
      [by destruct (Hno admins)|by rewrite andb_false_r..]. }
  destruct (Hnew new eq_refl) as (existing & admins & Ho & Hadm & ->). clear Hnew Hbuild.
  match goal with |- context [GlueTables.buildDataLakeSettings ?o ?ps ?w ?s] =>
    destruct (GlueTables.buildDataLakeSettings o ps w s) as [x s1] eqn:Hbuild;
    destruct (buildDataLakeSettings_run o ps w s) as (x' & Hb & _) end.
  rewrite Hbuild in Hb. injection Hb as <- ->.
  destruct x as [e|tmp]; cbn [history stderr].
  { pose proof (buildDataLakeSettings_throws _ _ _ _ _ _ Hbuild) as Hno.
    cbn in Hno. rewrite lookup_insert_eq in Hno. exfalso. eapply Hno. reflexivity. }
  clear Hbuild.
  unfold GlueTables.setLakeFormationDataLakeSettings at 1. unfold bind at 1.
  match goal with |- context [send ?c (PutDataLakeSettingsCommand ?x) w ?s1] =>
    destruct (send_cases c (PutDataLakeSettingsCommand x) w s1) as (x1 & a3 & -> & Hrej1 & _) end.
  cbn [history stderr] in *.
  destruct x1 as [e|r3]; cbn [history stderr].
  { eexists _, _, [_; _; _], [_]. rewrite <- !app_assoc. split; [reflexivity|].
    split; [done|]. intros _. split; [by eexists|].
    cbn [forallb]. unfold answered at 3. cbn [fst snd]. rewrite (Hrej1 e eq_refl).
    cbn. by rewrite !andb_false_r. }
  unfold ret at 1. cbv beta iota.
  match goal with |- context [GlueTables.grantLakeFormationPermission ?c ?d ?ps ?w ?s] =>
    destruct (grant_loop_answered c d ps w s) as (x2 & g & -> & Hg) end.
  cbn [history stderr].
  destruct x2 as [e|[]].
  { eexists _, _, ([_; _; _] ++ g), [_]. rewrite <- !app_assoc. split; [reflexivity|].
    split; [done|]. intros _. split; [by eexists|].
    rewrite forallb_app, (Hg e eq_refl), andb_false_r. done. }
  unfold GlueTables.setLakeFormationDataLakeSettings at 1. unfold bind at 1.
  match goal with |- context [send ?c (PutDataLakeSettingsCommand ?x) w ?s1] =>
    destruct (send_cases c (PutDataLakeSettingsCommand x) w s1) as (x3 & a4 & -> & Hrej3 & _) end.
  cbn [history stderr] in *.
  destruct x3 as [e|r4]; cbn [history stderr].
  - eexists _, _, ([_; _; _] ++ g ++ [_]), [_]. rewrite <- !app_assoc. split; [reflexivity|].
    split; [done|]. intros _. split; [by eexists|].
    rewrite !forallb_app. cbn [forallb]. intros H.
    apply andb_prop in H as [_ H]. apply andb_prop in H as [_ H].
    apply andb_prop in H as [H _]. unfold answered in H. cbn [fst snd] in H.
    rewrite (Hrej3 e eq_refl) in H. discriminate H.
  - eexists _, _, ([_; _; _] ++ g ++ [_]), []. rewrite (app_nil_r (stderr s)), <- !app_assoc.
    split; [reflexivity|]. split; [done|]. intros _. split; [by eexists|]. done.
Qed.

Lemma tables_handler_outcome ev ctx w s :
  let listing :=
    ({| service := RAM; region := AWS_REGION w |},
     ListResourcesCommand "OTHER-ACCOUNTS" [ResourceShareArn (ResourceProperties ev)]
       (Some "glue:database")) in
  RequestType ev = "Create" →
  ∃ st reason t s',
    GlueTables.handler ev ctx w s = (inr (responseBody w ev ctx st None reason), s') ∧
    calls_since s s' = t ∧
    TablesRun ev w st t ∧
    (tables_input_ok ev = false → t = []) ∧
    (tables_input_ok ev = true →
       (∃ rest, t = (listing, respond w (history s) listing) :: rest) ∧
       (forallb answered t = true → st = "SUCCESS")).
Proof.
  intros listing Hc.
  destruct (tables_run ev ctx w s) as (st & reason & t & errs & Hrun & Hshape).
  destruct (tables_outcome ev ctx w s) as (st' & reason' & t' & errs' & Hrun' & Hbad & Hok).
  rewrite Hrun in Hrun'. injection Hrun' as <- <- Ht _. apply app_inv_head in Ht as <-.
  exists st, reason, t. eexists. split; [|split; [|split; [exact Hshape|split; assumption]]].
  - exact (tables_handler_create _ _ _ _ _ _ Hc Hrun).
  - apply calls_since_app.
Qed.




Lemma elem_of_Some_new_Set (l : list string) (p : option string) :
  p ∈ Some <$> new_Set l ↔ p ∈ Some <$> l.
Proof.
  rewrite !list_elem_of_fmap. split; intros (x & -> & Hx); exists x;
    (split; [done|]); by apply elem_of_new_Set.
Qed.

Lemma count_zero (P : Command → bool) (t : History) :
  (∀ e, e ∈ t → P e.1.2 = false) → count P t = 0.
Proof.
  unfold count. induction t as [|e t IH]; intros Hall; [reflexivity|].
  cbn. case_decide as He.
  - rewrite (Hall e) in He by left. discriminate He.
  - apply IH. intros e' He'. apply Hall. by right.
Qed.

Lemma count_put_grants lf db (ps : list string) (g : History) :
  g.*1 = (fun p => (lf, GrantPermissionsCommand p db ["SELECT"])) <$> ps →
  count is_put_settings g = 0.
Proof.
  intros Hg. apply count_zero. intros e He.
  pose proof (grants_are_grants _ _ _ _ _ Hg He) as Hgrant.
  by destruct (e.1.2).
Qed.

(** C1.  When a Create request of GlueTables succeeds, the calls of the
    run are the listing, the read of the settings, the put of the elevated
    settings (whose administrators include the role of the Lambda), the
    grants, and last the put of the final settings.  The administrators of
    the final settings are, without repetition, the administrators read
    together with the target principals; so the role of the Lambda is
    among them only if it was an administrator before or is a target
    principal. *)
Theorem final_administrators_are_original_and_targets ev ctx w s :
  RequestType ev = "Create" →
  ∃ body s',
    GlueTables.handler ev ctx w s = (inr body, s') ∧
    (Status body = "SUCCESS" →
     ∃ listing lf first existing admins elevatedSettings elevatedAdmins second grants
       finalSettings finalAdmins last,
       calls_since s s'
       = [(listing, first);
          ((lf, GetDataLakeSettingsCommand), GetDataLakeSettingsResponse existing);
          ((lf, PutDataLakeSettingsCommand elevatedSettings), second)]
         ++ grants ++ [((lf, PutDataLakeSettingsCommand finalSettings), last)] ∧
       count is_put_settings grants = 0 ∧
       existing !! "DataLakeAdmins" = Some (Principals admins) ∧
       elevatedSettings !! "DataLakeAdmins" = Some (Principals elevatedAdmins) ∧
       LambdaRoleArn (ResourceProperties ev) ∈ identifiers elevatedAdmins ∧
       finalSettings !! "DataLakeAdmins" = Some (Principals finalAdmins) ∧
       NoDup (identifiers finalAdmins) ∧
       (∀ p, p ∈ identifiers finalAdmins ↔
             p ∈ identifiers admins ∨
             p ∈ Some <$> elements (LakeFormationPrincipals (ResourceProperties ev))) ∧
       (LambdaRoleArn (ResourceProperties ev) ∈ identifiers finalAdmins →
          LambdaRoleArn (ResourceProperties ev) ∈ identifiers admins ∨
          LambdaRoleArn (ResourceProperties ev)
            ∈ Some <$> elements (LakeFormationPrincipals (ResourceProperties ev)))).
Proof.
  intros Hc.
  destruct (tables_handler_run ev ctx w s Hc) as (st & reason & t & s' & Hrun & Ht & Hshape).
  eexists _, s'. split; [exact Hrun|]. rewrite Ht. cbn [Status responseBody]. intros Hst.
  destruct Hshape as [|r1|r1 r2|r1 existing admins r3 db k g Hadm Hg
                      |r1 existing admins r3 db g r4 st Hadm Hg Hst'];
    try discriminate Hst.
  assert (Hmem : ∀ p,
    p ∈ new_Set (identifiers admins
                 ++ (Some <$> new_Set (elements (LakeFormationPrincipals (ResourceProperties ev)))))
    ↔ p ∈ identifiers admins ∨
      p ∈ Some <$> elements (LakeFormationPrincipals (ResourceProperties ev))).
  { intros p. by rewrite elem_of_new_Set, elem_of_app, elem_of_Some_new_Set. }
  eexists _, _, r1, existing, admins, _, _, r3, g, _, _, r4.
  split; [reflexivity|]. split; [exact (count_put_grants _ _ _ _ Hg)|].
  split; [exact Hadm|]. split; [apply lookup_insert_eq|].
  split.
  { rewrite identifiers_admins_of, elem_of_new_Set, elem_of_app, list_elem_of_singleton.
    by right. }
  split; [apply lookup_insert_eq|].
  rewrite identifiers_admins_of.
  split; [apply NoDup_new_Set|]. split; [exact Hmem|]. apply Hmem.
Qed.

Lemma final_administrators_witness :
  ∃ body s' before lf finalSettings finalAdmins last,
    GlueTables.handler (Scenario.createRequest (PArray [Scenario.analyst; Scenario.analyst]))
      Scenario.context (Scenario.account []) Scenario.fresh = (inr body, s') ∧
    Status body = "SUCCESS" ∧
    calls_since Scenario.fresh s'
    = before ++ [((lf, PutDataLakeSettingsCommand finalSettings), last)] ∧
    finalSettings !! "DataLakeAdmins" = Some (Principals finalAdmins) ∧
    NoDup (identifiers finalAdmins) ∧
    Some Scenario.analyst ∈ identifiers finalAdmins.
Proof.
  destruct (final_administrators_are_original_and_targets
              (Scenario.createRequest (PArray [Scenario.analyst; Scenario.analyst]))
              Scenario.context (Scenario.account []) Scenario.fresh eq_refl)
    as (body & s' & Hrun & Hsuccess).
  assert (Hst : Status body = "SUCCESS").
  { assert (Hdone :
      (GlueTables.handler (Scenario.createRequest (PArray [Scenario.analyst; Scenario.analyst]))
         Scenario.context (Scenario.account []) Scenario.fresh).1
      = inr (succeeded (Scenario.account [])
               (Scenario.createRequest (PArray [Scenario.analyst; Scenario.analyst]))
               Scenario.context)) by (vm_compute; reflexivity).
    rewrite Hrun in Hdone. cbn [fst] in Hdone. injection Hdone as ->. reflexivity. }
  destruct (Hsuccess Hst)
    as (listing & lf & first & existing & admins & elevatedSettings & elevatedAdmins & second
        & grants & finalSettings & finalAdmins & last
        & Hcalls & _ & _ & _ & _ & Hfinal & Hnodup & Hmem & _).
  exists body, s'. eexists _, lf, finalSettings, finalAdmins, last.
  split; [exact Hrun|]. split; [exact Hst|].
  split; [rewrite Hcalls; rewrite app_assoc; reflexivity|].
  split; [exact Hfinal|]. split; [exact Hnodup|].
  apply Hmem. right. apply list_elem_of_fmap. exists Scenario.analyst. split; [reflexivity|].
  left.
Defined.

(** C10.  Every settings object that a run of a Create request of
    GlueTables writes, the elevated settings as well as the final ones,
    agrees with the settings object that the run read, the only one it
    reads, on every field other than DataLakeAdmins: a field is present in
    the one exactly when it is present in the other, with the same
    value. *)
Theorem settings_writes_change_only_the_administrators ev ctx w s :
  RequestType ev = "Create" →
  ∃ body s',
    GlueTables.handler ev ctx w s = (inr body, s') ∧
    ∀ client written answer,
      ((client, PutDataLakeSettingsCommand written), answer) ∈ calls_since s s' →
      ∃ existing,
        ((client, GetDataLakeSettingsCommand), GetDataLakeSettingsResponse existing)
          ∈ calls_since s s' ∧
        (∀ client' read,
           ((client', GetDataLakeSettingsCommand), read) ∈ calls_since s s' →
           read = GetDataLakeSettingsResponse existing) ∧
        ∀ field, field ≠ "DataLakeAdmins" → written !! field = existing !! field.
Proof.
  intros Hc.
  destruct (tables_handler_run ev ctx w s Hc) as (st & reason & t & s' & Hrun & Ht & Hshape).
  eexists _, s'. split; [exact Hrun|]. rewrite Ht.
  intros client written answer Hput.
  assert (Hframe1 : ∀ existing admins field, field ≠ "DataLakeAdmins" →
            desired ev existing admins !! field = existing !! field).
  { intros existing admins field Hf. unfold desired. by rewrite lookup_insert_ne. }
  assert (Hframe2 : ∀ existing admins field, field ≠ "DataLakeAdmins" →
            elevated ev existing admins !! field = existing !! field).
  { intros existing admins field Hf. unfold elevated.
    rewrite lookup_insert_ne by done. by apply Hframe1. }
  destruct Hshape as [|r1|r1 r2|r1 existing admins r3 db k g Hadm Hg
                      |r1 existing admins r3 db g r4 st Hadm Hg Hst'].
  - by apply elem_of_nil in Hput.
  - set_unfold in Hput. destruct_or?; by simplify_eq.
  - set_unfold in Hput. destruct_or?; by simplify_eq.
  - assert (Hread : ∀ client' read,
              ((client', GetDataLakeSettingsCommand), read)
                ∈ [(({| service := RAM; region := AWS_REGION w |},
                     ListResourcesCommand "OTHER-ACCOUNTS"
                       [ResourceShareArn (ResourceProperties ev)] (Some "glue:database")), r1);
                   (({| service := LakeFormation; region := AWS_REGION w |},
                     GetDataLakeSettingsCommand), GetDataLakeSettingsResponse existing);
                   (({| service := LakeFormation; region := AWS_REGION w |},
                     PutDataLakeSettingsCommand (elevated ev existing admins)), r3)] ++ g →
              read = GetDataLakeSettingsResponse existing).
    { intros client' read Hin. rewrite elem_of_app in Hin. destruct Hin as [Hin|Hin].
      - set_unfold in Hin. destruct_or?; simplify_eq; done.
      - pose proof (grants_are_grants _ _ _ _ _ Hg Hin) as Hgr. cbn in Hgr. discriminate Hgr. }
    rewrite elem_of_app in Hput. destruct Hput as [Hput|Hput].
    + set_unfold in Hput. destruct_or?; simplify_eq;
        (exists existing; split; [set_solver|]; split; [exact Hread|]; by apply Hframe2).
    + pose proof (grants_are_grants _ _ _ _ _ Hg Hput) as Hgr. cbn in Hgr. discriminate Hgr.
  - assert (Hread : ∀ client' read,
              ((client', GetDataLakeSettingsCommand), read)
                ∈ [(({| service := RAM; region := AWS_REGION w |},
                     ListResourcesCommand "OTHER-ACCOUNTS"
                       [ResourceShareArn (ResourceProperties ev)] (Some "glue:database")), r1);
                   (({| service := LakeFormation; region := AWS_REGION w |},
                     GetDataLakeSettingsCommand), GetDataLakeSettingsResponse existing);
                   (({| service := LakeFormation; region := AWS_REGION w |},
                     PutDataLakeSettingsCommand (elevated ev existing admins)), r3)] ++ g
                  ++ [(({| service := LakeFormation; region := AWS_REGION w |},
                        PutDataLakeSettingsCommand (desired ev existing admins)), r4)] →
              read = GetDataLakeSettingsResponse existing).
    { intros client' read Hin. rewrite !elem_of_app in Hin. destruct Hin as [Hin|[Hin|Hin]].
      - set_unfold in Hin. destruct_or?; simplify_eq; done.
      - pose proof (grants_are_grants _ _ _ _ _ Hg Hin) as Hgr. cbn in Hgr. discriminate Hgr.
      - set_unfold in Hin. destruct_or?; by simplify_eq. }
    rewrite !elem_of_app in Hput. destruct Hput as [Hput|[Hput|Hput]].
    + set_unfold in Hput. destruct_or?; simplify_eq;
        (exists existing; split; [set_solver|]; split; [exact Hread|]; by apply Hframe2).
    + pose proof (grants_are_grants _ _ _ _ _ Hg Hput) as Hgr. cbn in Hgr. discriminate Hgr.
    + set_unfold in Hput. destruct_or?; simplify_eq;
        (exists existing; split; [set_solver|]; split; [exact Hread|]; by apply Hframe1).
Qed.

Lemma settings_writes_witness :
  ∃ body s',
    GlueTables.handler (Scenario.createRequest (PArray [Scenario.analyst]))
      Scenario.context (Scenario.account []) Scenario.fresh = (inr body, s') ∧
    count is_put_settings (calls_since Scenario.fresh s') = 2 ∧
    ∀ client written answer,
      ((client, PutDataLakeSettingsCommand written), answer) ∈ calls_since Scenario.fresh s' →
      ∃ existing : DataLakeSettings,
        ∀ field, field ≠ "DataLakeAdmins" → written !! field = existing !! field.
Proof.
  destruct (settings_writes_change_only_the_administrators
              (Scenario.createRequest (PArray [Scenario.analyst]))
              Scenario.context (Scenario.account []) Scenario.fresh eq_refl)
    as (body & s' & Hrun & Hframe).
  exists body, s'. split; [exact Hrun|]. split.
  - assert (Hputs :
      count is_put_settings
        (calls_since Scenario.fresh
           (GlueTables.handler (Scenario.createRequest (PArray [Scenario.analyst]))
              Scenario.context (Scenario.account []) Scenario.fresh).2) = 2)
      by (vm_compute; reflexivity).
    rewrite Hrun in Hputs. exact Hputs.
  - intros client written answer Hin.
    destruct (Hframe client written answer Hin) as (existing & _ & _ & Hsame).
    exists existing. exact Hsame.
Defined.

(** C7, the part that the code denies: an empty list of principals passes
    validatePrincipals, which only tests that the value is an array and
    then validates each element.  The request succeeds, after writing the
    settings twice. *)
Lemma empty_principals_are_accepted :
  (GlueTables.handler (Scenario.createRequest (PArray [])) Scenario.context
     (Scenario.account []) Scenario.fresh).1
  = inr (succeeded (Scenario.account []) (Scenario.createRequest (PArray [])) Scenario.context)
  ∧ count is_put_settings
      (calls_since Scenario.fresh
         (GlueTables.handler (Scenario.createRequest (PArray [])) Scenario.context
            (Scenario.account []) Scenario.fresh).2) = 2.
Proof. split; vm_compute; reflexivity. Qed.

(** C7, as the code has it.  A Create request of GlueTables whose
    principals are not an array fails with an error about its input (the
    share ARN, the stack id, or the principals not being an array, whichever
    is found first) and makes no call at all: no settings write and no
    grant.  A request whose principals are the empty array is not rejected
    for that.  It issues no grant call; and when its share ARN and its stack
    id pass their checks it proceeds to its first call, the listing of the
    share, and succeeds, having written the settings twice, whenever every
    call of the run is answered (the listing names a database, the settings
    hold administrators, no put is rejected). *)
Theorem principals_that_are_not_a_list_are_rejected ev ctx w s :
  RequestType ev = "Create" →
  (isArray (LakeFormationPrincipals (ResourceProperties ev)) = false →
     ∃ e s',
       GlueTables.handler ev ctx w s = (inr (failed w ev ctx e), s') ∧
       (e = Error "Invalid ResourceShareArn." ∨
        e = Error "Could not parse account id from stack ID." ∨
        e = Error "LakeFormationPrincipals is not an array.") ∧
       calls_since s s' = []) ∧
  (LakeFormationPrincipals (ResourceProperties ev) = PArray [] →
     ∃ body s',
       GlueTables.handler ev ctx w s = (inr body, s') ∧
       count is_grant (calls_since s s') = 0 ∧
       (test RESOURCE_SHARE_ARN_REGEX (ToString (ResourceShareArn (ResourceProperties ev)))
        = true →
        is_Some (exec ACCOUNT_ID_FROM_STACK_REGEX (ToString (StackId ev))) →
        (∃ rest,
           calls_since s s'
           = (({| service := RAM; region := AWS_REGION w |},
               ListResourcesCommand "OTHER-ACCOUNTS" [ResourceShareArn (ResourceProperties ev)]
                 (Some "glue:database")),
              respond w (history s)
                ({| service := RAM; region := AWS_REGION w |},
                 ListResourcesCommand "OTHER-ACCOUNTS"
                   [ResourceShareArn (ResourceProperties ev)] (Some "glue:database")))
             :: rest) ∧
        (forallb answered (calls_since s s') = true →
           Status body = "SUCCESS" ∧
           count is_put_settings (calls_since s s') = 2))).
Proof.
  intros Hc. split.
  - intros Hnot.
    assert (Hrun : ∃ e errs,
      GlueTables.startCreate ev ctx w s
      = (inr ("FAILED", Some (Caught e)),
         {| history := history s ++ []; stderr := stderr s ++ errs |}) ∧
      (e = Error "Invalid ResourceShareArn." ∨
       e = Error "Could not parse account id from stack ID." ∨
       e = Error "LakeFormationPrincipals is not an array.")).
    { unfold GlueTables.startCreate.
      unfold try_catch, bind at 1.
      unfold GlueTables.getResourceShareArn, GlueTables.validateResourceShareArn.
      unfold bind at 1. rewrite app_nil_r.
      destruct (test RESOURCE_SHARE_ARN_REGEX _); monad; [|eexists _, [_]; by eauto].
      unfold GlueTables.getLakeFormationDataLakePrincipals, GlueTables.getAccountId.
      destruct (exec ACCOUNT_ID_FROM_STACK_REGEX _); monad; [|eexists _, [_]; by eauto].
      unfold GlueTables.validatePrincipals. rewrite Hnot. monad.
      eexists _, [_]; by eauto. }
    destruct Hrun as (e & errs & Hrun & He).
    exists e. eexists. split; [exact (tables_handler_create _ _ _ _ _ _ Hc Hrun)|].
    split; [exact He|]. apply calls_since_app.
  - intros Hempty.
    destruct (tables_handler_outcome ev ctx w s Hc)
      as (st & reason & t & s' & Hrun & Ht & Hshape & _ & Hok).
    eexists _, s'. split; [exact Hrun|]. rewrite Ht. cbn [Status responseBody]. split.
    { rewrite count_length_grants.
      destruct Hshape as [|r1|r1 r2|r1 existing admins r3 db k g Hadm Hg
                          |r1 existing admins r3 db g r4 st Hadm Hg Hst'];
        try reflexivity.
      + rewrite Hempty in Hg. change (new_Set (elements (PArray []))) with (@nil string) in Hg.
        rewrite take_nil in Hg. rewrite grants_of_app, (grants_of_grants _ _ _ _ Hg).
        reflexivity.
      + rewrite Hempty in Hg. change (new_Set (elements (PArray []))) with (@nil string) in Hg.
        rewrite !grants_of_app, (grants_of_grants _ _ _ _ Hg). reflexivity. }
    intros Harn [captured Hacc].
    assert (Hin : tables_input_ok ev = true).
    { unfold tables_input_ok. rewrite Harn, Hacc, Hempty. reflexivity. }
    destruct (Hok Hin) as [Hfirst Hdone]. split; [exact Hfirst|].
    intros Hans. specialize (Hdone Hans). split; [exact Hdone|].
    destruct Hshape as [|r1|r1 r2|r1 existing admins r3 db k g Hadm Hg
                        |r1 existing admins r3 db g r4 st Hadm Hg Hst'];
      try discriminate Hdone.
    rewrite Hempty in Hg. change (new_Set (elements (PArray []))) with (@nil string) in Hg.
    apply fmap_nil_inv in Hg as ->.
    unfold count. cbn. repeat case_decide; done.
Qed.

Lemma principals_not_a_list_witness :
  (∃ e s',
     GlueTables.handler (Scenario.createRequest (PString Scenario.analyst)) Scenario.context
       (Scenario.account []) Scenario.fresh
     = (inr (failed (Scenario.account []) (Scenario.createRequest (PString Scenario.analyst))
               Scenario.context e), s') ∧
     (e = Error "Invalid ResourceShareArn." ∨
      e = Error "Could not parse account id from stack ID." ∨
      e = Error "LakeFormationPrincipals is not an array.") ∧
     calls_since Scenario.fresh s' = []) ∧
  (∃ body s',
     GlueTables.handler (Scenario.createRequest (PArray [])) Scenario.context
       (Scenario.account []) Scenario.fresh = (inr body, s') ∧
     count is_grant (calls_since Scenario.fresh s') = 0 ∧
     length (calls_since Scenario.fresh s') = 4 ∧
     Status body = "SUCCESS" ∧
     count is_put_settings (calls_since Scenario.fresh s') = 2).
Proof.
  split.
  - destruct (principals_that_are_not_a_list_are_rejected
                (Scenario.createRequest (PString Scenario.analyst)) Scenario.context
                (Scenario.account []) Scenario.fresh eq_refl) as [Hnot _].
    exact (Hnot eq_refl).
  - destruct (principals_that_are_not_a_list_are_rejected
                (Scenario.createRequest (PArray [])) Scenario.context
                (Scenario.account []) Scenario.fresh eq_refl) as [_ Hempty].
    destruct (Hempty eq_refl) as (body & s' & Hrun & Hgrants & Hproceeds).
    destruct Hproceeds as [_ Hdone]; [vm_compute; reflexivity|vm_compute; by eexists|].
    assert (Hcalls :
      forallb answered
        (calls_since Scenario.fresh
           (GlueTables.handler (Scenario.createRequest (PArray [])) Scenario.context
              (Scenario.account []) Scenario.fresh).2) = true
      ∧ length
          (calls_since Scenario.fresh
             (GlueTables.handler (Scenario.createRequest (PArray [])) Scenario.context
                (Scenario.account []) Scenario.fresh).2) = 4)
      by (split; vm_compute; reflexivity).
    rewrite Hrun in Hcalls. destruct Hcalls as [Hans Hlen].
    destruct (Hdone Hans) as [Hst Hputs].
    exists body, s'. by repeat split.
Defined.

(** * SsmParameters *)

Lemma getStackIdParameter_run ssm w s :
  SsmParameters.getStackIdParameter ssm w s
  = (inr (found_stack_id
            (respond w (history s) (ssm, GetParameterCommand "/Detective/SLI/StackId"))),
     {| history := history s
          ++ [((ssm, GetParameterCommand "/Detective/SLI/StackId"),
               respond w (history s) (ssm, GetParameterCommand "/Detective/SLI/StackId"))];
        stderr := stderr s |}).
Proof.
  unfold SsmParameters.getStackIdParameter, try_catch. unfold bind at 1.
  change (SsmParameters.Name SsmParameters.STACK_ID_PARAMETER) with "/Detective/SLI/StackId".
  destruct (send_run ssm (GetParameterCommand "/Detective/SLI/StackId") w s)
    as (x & -> & Hx & Hrej).
  destruct x as [e|r].
  - destruct Hrej as (n & m & -> & _). reflexivity.
  - rewrite <- (Hx r eq_refl). by destruct r.
Qed.

(** The three ways a write ends: accepted; rejected for another reason,
    and rethrown; rejected because the name is taken, then the stack id is
    looked up, the line is logged and the rejection is rethrown. *)
Lemma save_cases ssm parameter value w s :
  ∃ answer,
    (rejected answer = false ∧
     SsmParameters.saveParameter ssm parameter value w s
     = (inr tt,
        {| history := history s
             ++ [((ssm, PutParameterCommand (SsmParameters.Name parameter)
                          (SsmParameters.Description parameter) value
                          (SsmParameters.Type_ parameter)
                          (SsmParameters.AllowedPattern parameter) "Standard"), answer)];
           stderr := stderr s |})) ∨
    (∃ n m, answer = Rejected n m ∧ String.eqb n "ParameterAlreadyExists" = false ∧
     SsmParameters.saveParameter ssm parameter value w s
     = (inl (ServiceException n m),
        {| history := history s
             ++ [((ssm, PutParameterCommand (SsmParameters.Name parameter)
                          (SsmParameters.Description parameter) value
                          (SsmParameters.Type_ parameter)
                          (SsmParameters.AllowedPattern parameter) "Standard"), answer)];
           stderr := stderr s |})) ∨
    (∃ m found, answer = Rejected "ParameterAlreadyExists" m ∧
     SsmParameters.saveParameter ssm parameter value w s
     = (inl (ServiceException "ParameterAlreadyExists" m),
        {| history := history s
             ++ [((ssm, PutParameterCommand (SsmParameters.Name parameter)
                          (SsmParameters.Description parameter) value
                          (SsmParameters.Type_ parameter)
                          (SsmParameters.AllowedPattern parameter) "Standard"), answer);
                 ((ssm, GetParameterCommand "/Detective/SLI/StackId"), found)];
           stderr := stderr s
             ++ [collision_line (SsmParameters.Name parameter) (found_stack_id found)] |})).
Proof.
  destruct (send_run ssm
              (PutParameterCommand (SsmParameters.Name parameter)
                 (SsmParameters.Description parameter) value (SsmParameters.Type_ parameter)
                 (SsmParameters.AllowedPattern parameter) "Standard") w s)
    as (x & Hsend & _ & Hx).
  exists (respond w (history s)
            (ssm, PutParameterCommand (SsmParameters.Name parameter)
                    (SsmParameters.Description parameter) value (SsmParameters.Type_ parameter)
                    (SsmParameters.AllowedPattern parameter) "Standard")).
  unfold SsmParameters.saveParameter, try_catch.
  destruct x as [e|r].
  - destruct Hx as (n & m & Hans & ->). rewrite Hans in Hsend |- *.
    rewrite (bind_inl _ _ _ _ _ _ Hsend). cbn [instanceof].
    destruct (String.eqb n _) eqn:Hn.
    + apply String.eqb_eq in Hn. subst n. right; right. exists m.
      exists (respond w
                (history s
                   ++ [((ssm, PutParameterCommand (SsmParameters.Name parameter)
                                (SsmParameters.Description parameter) value
                                (SsmParameters.Type_ parameter)
                                (SsmParameters.AllowedPattern parameter) "Standard"),
                        Rejected "ParameterAlreadyExists" m)])
                (ssm, GetParameterCommand "/Detective/SLI/StackId")).
      split; [reflexivity|].
      unfold bind at 1. unfold bind at 1. rewrite getStackIdParameter_run.
      cbn [history stderr]. unfold collision_line.
      rewrite <- app_assoc. cbn [app].
      destruct (truthy (found_stack_id _)); reflexivity.
    + right; left. exists n, m. split; [reflexivity|]. split; [exact Hn|reflexivity].
  - left. split; [exact Hx|]. by rewrite (bind_inr _ _ _ _ _ _ Hsend).
Qed.

Lemma parseTableNames_run l acc w s :
  ∃ x, SsmParameters.parseTableNames l acc w s = (x, s).
Proof.
  revert acc. induction l as [|a l IH]; intros acc; [by eexists|].
  cbn [SsmParameters.parseTableNames]. destruct (exec _ _); [apply IH|by eexists].
Qed.

Lemma parameters_getDatabaseName_run ram arn w s :
  ∃ x answer,
    SsmParameters.getDatabaseName ram arn w s
    = (x, {| history := history s
               ++ [((ram, ListResourcesCommand "OTHER-ACCOUNTS" [arn] (Some "glue:database")),
                    answer)];
             stderr := stderr s |}).
Proof.
  unfold SsmParameters.getDatabaseName, SsmParameters.getDatabaseNameArn.
  unfold bind at 1. unfold bind at 1.
  destruct (send_run ram (ListResourcesCommand "OTHER-ACCOUNTS" [arn] (Some "glue:database")) w s)
    as (x & -> & _).
  destruct x as [e|r]; [by eexists _, _|]. monad.
  destruct (resources_of r) as [[|r0 l]|]; cbn; try by eexists _, _.
  destruct (exec _ _); by eexists _, _.
Qed.

Lemma parameters_getTableNames_run ram arn w s :
  ∃ x answer,
    SsmParameters.getTableNames ram arn w s
    = (x, {| history := history s
               ++ [((ram, ListResourcesCommand "OTHER-ACCOUNTS" [arn] (Some "glue:table")),
                    answer)];
             stderr := stderr s |}).
Proof.
  unfold SsmParameters.getTableNames, SsmParameters.getTableArns.
  unfold bind at 1. unfold bind at 1.
  destruct (send_run ram (ListResourcesCommand "OTHER-ACCOUNTS" [arn] (Some "glue:table")) w s)
    as (x & -> & _).
  destruct x as [e|r]; [by eexists _, _|]. monad.
  destruct (resources_of r) as [l|]; [|by eexists _, _].
  destruct (Nat.eqb _ _); [by eexists _, _|].
  match goal with |- context [SsmParameters.parseTableNames ?l ?acc ?w ?s] =>
    destruct (parseTableNames_run l acc w s) as (x & ->) end.
  by eexists _, _.
Qed.

Lemma getResourceShareRegion_run arn w s :
  ∃ x, SsmParameters.getResourceShareRegion arn w s = (x, s).
Proof.
  unfold SsmParameters.getResourceShareRegion, SsmParameters.validateRegion.
  destruct (exec _ _); [|by eexists]. unfold bind. destruct (negb _); by eexists.
Qed.

Lemma getDTRegion_run ev w s :
  SsmParameters.getDTRegion ev w s
  = (if test regionRegex (ToString (DTRegion (ResourceProperties ev)))
     then inr (DTRegion (ResourceProperties ev))
     else inl (Error ("Invalid region: "
                      +:+ ToString (DTRegion (ResourceProperties ev)) +:+ ".")),
     s).
Proof.
  unfold SsmParameters.getDTRegion, SsmParameters.validateRegion. unfold bind.
  by destruct (test _ _).
Qed.

Lemma getAthenaResultBucket_run ev w s :
  ∃ x, SsmParameters.getAthenaResultBucket ev w s = (x, s).
Proof. unfold SsmParameters.getAthenaResultBucket. destruct (negb _); by eexists. Qed.

Lemma getStackId_run ev w s :
  ∃ x, SsmParameters.getStackId ev w s = (x, s).
Proof. unfold SsmParameters.getStackId. destruct (negb _); by eexists. Qed.

(** An entry of the calls of a run that is not a rejected write. *)
Ltac entry_absurd H :=
  first
    [ discriminate H
    | simplify_eq;
      match goal with
      | Hok : rejected (Rejected _ _) = false |- _ => discriminate Hok
      | Hn : String.eqb ?n ?n = false |- _ => rewrite String.eqb_refl in Hn; discriminate Hn
      end ].

Ltac no_collision :=
  let Hin := fresh "Hin" in
  intros ? ? ? ? ? ? ? ? Hin; set_unfold in Hin; destruct_or?; entry_absurd Hin.

Ltac stopped errs :=
  eexists _, _; (split; [reflexivity|]); cbn [history stderr]; rewrite <- ?app_assoc;
  eexists _, errs; do 2 (split; [reflexivity|]).

Ltac collision :=
  let Hin := fresh "Hin" in
  intros ? ? ? ? ? ? ? ? Hin; set_unfold in Hin; destruct_or?; try entry_absurd Hin;
  simplify_eq; (split; [reflexivity|]);
  eexists _, _; (split; [rewrite ?app_assoc; reflexivity|]);
  (split; [reflexivity|]);
  let v := fresh "v" in let Hv := fresh "Hv" in
  intros v Hv ?; rewrite Hv; by apply collision_line_includes.

Ltac save_step :=
  let n := fresh "n" in let m := fresh "m" in let found := fresh "found" in
  let Hok := fresh "Hok" in let Hn := fresh "Hn" in let p := fresh "p" in
  match goal with |- context [SsmParameters.saveParameter ?c ?q ?v ?w ?s] =>
    destruct (save_cases c q v w s)
      as (p & [[Hok ->]|[(n & m & -> & Hn & ->)|(m & found & -> & ->)]]);
    [ cbn [history stderr]
    | stopped [render (ServiceException n m)]; no_collision
    | stopped [collision_line (SsmParameters.Name q) (found_stack_id found);
               render (ServiceException "ParameterAlreadyExists" m)]; collision ]
  end.

Lemma parameters_run ev ctx w s :
  ∃ r s',
    SsmParameters.createParameters ev ctx w s = (inr r, s') ∧
    ∃ t errs,
      history s' = history s ++ t ∧ stderr s' = stderr s ++ errs ∧
      CollisionReported r t errs.
Proof.
  unfold SsmParameters.createParameters.
  unfold try_catch, bind at 1.
  unfold SsmParameters.getResourceShareArn, SsmParameters.validateResourceShareArn.
  unfold bind at 1.
  destruct (test RESOURCE_SHARE_ARN_REGEX _) eqn:Harn; monad.
  2:{ eexists _, _. split; [reflexivity|]. eexists [], [_]. cbn [history stderr].
      rewrite app_nil_r. do 2 (split; [reflexivity|]).
      intros ? ? ? ? ? ? ? ? Hin. by apply elem_of_nil in Hin. }
  destruct (getResourceShareRegion_run (ResourceShareArn (ResourceProperties ev)) w s)
    as (x & ->).
  destruct x as [e|region].
  { eexists _, _. split; [reflexivity|]. eexists [], [_]. cbn [history stderr].
    rewrite app_nil_r. do 2 (split; [reflexivity|]).
    intros ? ? ? ? ? ? ? ? Hin. by apply elem_of_nil in Hin. }
  rewrite getDTRegion_run.
  destruct (test regionRegex _).
  2:{ eexists _, _. split; [reflexivity|]. eexists [], [_]. cbn [history stderr].
      rewrite app_nil_r. do 2 (split; [reflexivity|]).
      intros ? ? ? ? ? ? ? ? Hin. by apply elem_of_nil in Hin. }
  destruct (getAthenaResultBucket_run ev w s) as (x & ->).
  destruct x as [e|bucket].
  { eexists _, _. split; [reflexivity|]. eexists [], [_]. cbn [history stderr].
    rewrite app_nil_r. do 2 (split; [reflexivity|]).
    intros ? ? ? ? ? ? ? ? Hin. by apply elem_of_nil in Hin. }
  destruct (getStackId_run ev w s) as (x & ->).
  destruct x as [e|stackId].
  { eexists _, _. split; [reflexivity|]. eexists [], [_]. cbn [history stderr].
    rewrite app_nil_r. do 2 (split; [reflexivity|]).
    intros ? ? ? ? ? ? ? ? Hin. by apply elem_of_nil in Hin. }
  match goal with |- context [SsmParameters.getDatabaseName ?c ?a ?w ?s] =>
    destruct (parameters_getDatabaseName_run c a w s) as (x & a1 & ->) end.
  destruct x as [e|databaseName]; [stopped [render e]; no_collision|].
  match goal with |- context [SsmParameters.getTableNames ?c ?a ?w ?s] =>
    destruct (parameters_getTableNames_run c a w s) as (x & a2 & ->) end.
  destruct x as [e|tableNameList]; [stopped [render e]; no_collision|].
  cbn [history stderr].
  do 5 save_step.
  eexists _, _; (split; [reflexivity|]); cbn [history stderr]; rewrite <- ?app_assoc.
  eexists _, []. split; [reflexivity|]. split; [by rewrite app_nil_r|]. no_collision.
Qed.

(** C6, the part that the code denies: the failure reported for a
    collision is the rejection as the parameter store sent it.  Here the
    name is taken by another stack and the lookup finds its stack id, yet
    the reason of the response does not include it. *)
Lemma collision_reason_omits_the_stack_id :
  (SsmParameters.handler (Scenario.createRequest (PArray [])) Scenario.context
     (Scenario.account []) Scenario.occupied).1
  = inr (failed (Scenario.account []) (Scenario.createRequest (PArray [])) Scenario.context
           (ServiceException "ParameterAlreadyExists" "The parameter already exists."))
  ∧ last (history (SsmParameters.handler (Scenario.createRequest (PArray [])) Scenario.context
                     (Scenario.account []) Scenario.occupied).2)
    = Some (({| service := SSM; region := Some "us-east-1" |},
             GetParameterCommand "/Detective/SLI/StackId"),
            GetParameterResponse (Some Scenario.otherStackArn))
  ∧ includes Scenario.otherStackArn
      (ReasonText
         (failed (Scenario.account []) (Scenario.createRequest (PArray [])) Scenario.context
            (ServiceException "ParameterAlreadyExists" "The parameter already exists.")))
    = false.
Proof. repeat split; vm_compute; reflexivity. Qed.

(** C6, as the code has it.  In a run of a Create request of
    SsmParameters, a write that the parameter store rejects with
    ParameterAlreadyExists is the last write: the handler looks up the
    stack id parameter next, logs with console.error a line that names the
    parameter and, when the lookup found a stack id that is not empty,
    that stack id, and otherwise a line without one, logs the rejection,
    and fails with the rejection itself as the reason.  The failure is
    reported whatever the lookup answers. *)
Theorem collision_is_reported_and_logged ev ctx w s :
  RequestType ev = "Create" →
  ∃ r s' errs,
    SsmParameters.handler ev ctx w s = (inr (responseBody w ev ctx r.1 None r.2), s') ∧
    stderr s' = stderr s ++ errs ∧
    CollisionReported r (calls_since s s') errs.
Proof.
  intros Hc.
  destruct (parameters_run ev ctx w s) as (r & s' & Hrun & t & errs & Ht & Herrs & Hreport).
  exists r, s', errs. split; [exact (parameters_handler_create _ _ _ _ _ _ Hc Hrun)|].
  split; [exact Herrs|]. by rewrite (calls_since_eq _ _ _ Ht).
Qed.

Lemma collision_witness :
  ∃ r s' errs,
    SsmParameters.handler (Scenario.createRequest (PArray [])) Scenario.context
      (Scenario.account []) Scenario.occupied
    = (inr (responseBody (Scenario.account []) (Scenario.createRequest (PArray []))
              Scenario.context r.1 None r.2), s') ∧
    stderr s' = stderr Scenario.occupied ++ errs ∧
    CollisionReported r (calls_since Scenario.occupied s') errs.
Proof.
  exact (collision_is_reported_and_logged (Scenario.createRequest (PArray [])) Scenario.context
           (Scenario.account []) Scenario.occupied eq_refl).
Defined.

(** The line logged in the scenario names the stack that holds the name. *)
Example collision_line_logged :
  stderr (SsmParameters.handler (Scenario.createRequest (PArray [])) Scenario.context
            (Scenario.account []) Scenario.occupied).2
  = [collision_line "/Detective/SLI/StackId" (Some Scenario.otherStackArn);
     "ParameterAlreadyExists: The parameter already exists."].
Proof. vm_compute. reflexivity. Qed.

(** C8, the part that the code denies: deleteParameters validates the
    DTRegion property before it builds the client.  A Delete request
    without a valid DTRegion fails and issues no delete call. *)
Lemma delete_without_region_issues_no_call :
  (SsmParameters.handler (Scenario.deleteRequest None) Scenario.context
     (Scenario.account []) Scenario.fresh).1
  = inr (failed (Scenario.account []) (Scenario.deleteRequest None) Scenario.context
           (Error "Invalid region: undefined."))
  ∧ count is_delete_parameters
      (calls_since Scenario.fresh
         (SsmParameters.handler (Scenario.deleteRequest None) Scenario.context
            (Scenario.account []) Scenario.fresh).2) = 0.
Proof. split; vm_compute; reflexivity. Qed.

(** C8, as the code has it.  A Delete request of SsmParameters whose
    DTRegion property has the form of a region issues exactly one call,
    DeleteParameters with the five fixed names, whatever the history before
    the request; it succeeds unless the call is rejected, and then the
    rejection is the failure reported.  A Delete request whose DTRegion
    property does not have the form of a region fails and issues no
    call. *)
Theorem delete_issues_one_batch_delete ev ctx w s :
  RequestType ev = "Delete" →
  let region := DTRegion (ResourceProperties ev) in
  let deletion := ({| service := SSM; region := region |}, DeleteParametersCommand FIVE_NAMES) in
  let answer := respond w (history s) deletion in
  let run := SsmParameters.handler ev ctx w s in
  (test regionRegex (ToString region) = true →
     run.1 = inr match answer with
                 | Rejected n m => failed w ev ctx (ServiceException n m)
                 | _ => succeeded w ev ctx
                 end ∧
     calls_since s run.2 = [(deletion, answer)] ∧
     count is_delete_parameters (calls_since s run.2) = 1) ∧
  (test regionRegex (ToString region) = false →
     run.1 = inr (failed w ev ctx (Error ("Invalid region: " +:+ ToString region +:+ "."))) ∧
     calls_since s run.2 = []).
Proof.
  intros Hc region deletion answer run. split; intros Hregion.
  - assert (Hrun : ∃ errs,
      SsmParameters.deleteParameters ev ctx w s
      = (inr match answer with
             | Rejected n m => ("FAILED", Some (Caught (ServiceException n m)))
             | _ => ("SUCCESS", None)
             end,
         {| history := history s ++ [(deletion, answer)]; stderr := stderr s ++ errs |})).
    { unfold SsmParameters.deleteParameters, try_catch. unfold bind at 1.
      rewrite getDTRegion_run. fold region. rewrite Hregion.
      unfold SsmParameters.deleteSSMParameters, send. monad.
      change [SsmParameters.Name SsmParameters.STACK_ID_PARAMETER;
              SsmParameters.Name SsmParameters.RESOURCE_SHARE_ARN_PARAMETER;
              SsmParameters.Name SsmParameters.ATHENA_RESULT_BUCKET_PARAMETER;
              SsmParameters.Name SsmParameters.DATABASE_NAME_PARAMETER;
              SsmParameters.Name SsmParameters.TABLE_NAMES_PARAMETER] with FIVE_NAMES.
      fold deletion. fold answer.
      destruct answer; first [by eexists [_] | exists []; by rewrite app_nil_r]. }
    destruct Hrun as [errs Hrun].
    apply (parameters_handler_delete _ _ _ _ _ _ Hc) in Hrun. fold run in Hrun.
    rewrite Hrun. cbn [fst snd]. rewrite calls_since_app.
    split; [by destruct answer|]. split; reflexivity.
  - assert (Hrun :
      SsmParameters.deleteParameters ev ctx w s
      = (inr ("FAILED", Some (Caught (Error ("Invalid region: " +:+ ToString region +:+ ".")))),
         {| history := history s ++ [];
            stderr := stderr s
              ++ [render (Error ("Invalid region: " +:+ ToString region +:+ "."))] |})).
    { unfold SsmParameters.deleteParameters, try_catch. unfold bind at 1.
      rewrite getDTRegion_run. fold region. rewrite Hregion. monad.
      by rewrite app_nil_r. }
    apply (parameters_handler_delete _ _ _ _ _ _ Hc) in Hrun. fold run in Hrun.
    rewrite Hrun. cbn [fst snd]. rewrite calls_since_app. split; reflexivity.
Qed.

Lemma delete_witness :
  (SsmParameters.handler (Scenario.deleteRequest (Some "us-east-1")) Scenario.context
     (Scenario.account []) Scenario.fresh).1
  = inr (succeeded (Scenario.account []) (Scenario.deleteRequest (Some "us-east-1"))
           Scenario.context)
  ∧ count is_delete_parameters
      (calls_since Scenario.fresh
         (SsmParameters.handler (Scenario.deleteRequest (Some "us-east-1")) Scenario.context
            (Scenario.account []) Scenario.fresh).2) = 1.
Proof.
  destruct (delete_issues_one_batch_delete (Scenario.deleteRequest (Some "us-east-1"))
              Scenario.context (Scenario.account []) Scenario.fresh eq_refl) as [Hvalid _].
  destruct (Hvalid ltac:(vm_compute; reflexivity)) as (Hrun & _ & Hcount).
  split; [exact Hrun|exact Hcount].
Defined.

(** * The scenarios, run *)

(** A pending invitation is accepted; the physical resource id is the log
    stream of the invocation. *)
Example acceptor_accepts_pending :
  (ResourceShareAcceptor.handler (Scenario.createRequest (PArray [])) Scenario.context
     (Scenario.account [Scenario.invitation "PENDING"]) Scenario.fresh).1
  = inr {| Status := "SUCCESS";
           ReasonText := "See the details in CloudWatch Log Stream: https://console.aws.amazon.com/cloudwatch/home?region=us-west-2#logEventViewer:group=/aws/lambda/handler;stream=2024/01/01/[$LATEST]0001";
           PhysicalId := "2024/01/01/[$LATEST]0001";
           BodyStackId := Some Scenario.stackArn;
           BodyRequestId := Some "request-1";
           BodyLogicalResourceId := Some "Resource" |}.
Proof. vm_compute. reflexivity. Qed.

(** The shared database is mirrored under its own name, with the owning
    account as catalog. *)
Example database_mirrors_shared_db :
  (GlueDatabase.handler (Scenario.createRequest (PArray [])) Scenario.context
     (Scenario.account []) Scenario.fresh).2
  = {| history :=
         [(({| service := RAM; region := Some "us-west-2" |},
            ListResourcesCommand "OTHER-ACCOUNTS" [Some Scenario.shareArn] (Some "glue:database")),
           ListResourcesResponse [Scenario.database]);
          (({| service := Glue; region := Some "us-west-2" |},
            CreateDatabaseCommand (Some "shared_db") (Some "222222222222") (Some "shared_db")),
           EmptyResponse)];
       stderr := [] |}.
Proof. vm_compute. reflexivity. Qed.

(** An Update request is refused by every handler. *)
Example update_is_not_supported :
  let update :=
    Scenario.request "Update"
      (Scenario.properties (Some Scenario.shareArn) (PArray []) (Some "us-east-1")) in
  let refused :=
    inr (responseBody (Scenario.account []) update Scenario.context "FAILED" None
           (Some (Text "RequestType is Update which is not supported."))) in
  (ResourceShareAcceptor.handler update Scenario.context (Scenario.account []) Scenario.fresh).1
  = refused ∧
  (GlueDatabase.handler update Scenario.context (Scenario.account []) Scenario.fresh).1
  = refused ∧
  (GlueTables.handler update Scenario.context (Scenario.account []) Scenario.fresh).1
  = refused ∧
  (SsmParameters.handler update Scenario.context (Scenario.account []) Scenario.fresh).1
  = refused.
Proof. repeat split; vm_compute; reflexivity. Qed.

(** The five parameters of a first stack are written in order. *)
Example parameters_published :
  (fun e : Request * Response =>
     match e.1.2 with
     | PutParameterCommand name _ value _ _ _ => (name, value)
     | _ => (EmptyString, None)
     end)
  <$> drop 2 (history
        (SsmParameters.handler (Scenario.createRequest (PArray [])) Scenario.context
           (Scenario.account []) Scenario.fresh).2)
  = [("/Detective/SLI/StackId", Some Scenario.stackArn);
     ("/Detective/SLI/ResourceShareArn", Some Scenario.shareArn);
     ("/Detective/SLI/S3Bucket", Some "athena-results-1");
     ("/Detective/SLI/DatabaseName", Some "shared_db");
     ("/Detective/SLI/TableNames", Some "cloud_trail,vpc_flow")].
Proof. vm_compute. reflexivity. Qed.

(** The principals of the grants and the administrators of the two puts,
    for a list with a repeated principal. *)
Example tables_grants_and_puts :
  (fun e : Request * Response =>
     match e.1.2 with
     | GrantPermissionsCommand p _ _ => [Some p]
     | PutDataLakeSettingsCommand settings =>
         match settings !! "DataLakeAdmins" with
         | Some (Principals admins) => identifiers admins
         | _ => []
         end
     | _ => []
     end)
  <$> drop 2 (history
        (GlueTables.handler
           (Scenario.createRequest (PArray [Scenario.analyst; Scenario.auditor; Scenario.analyst]))
           Scenario.context (Scenario.account []) Scenario.fresh).2)
  = [[Some Scenario.lakeAdmin; Some Scenario.analyst; Some Scenario.auditor;
      Some Scenario.lambdaRole];
     [Some Scenario.analyst];
     [Some Scenario.auditor];
     [Some Scenario.lakeAdmin; Some Scenario.analyst; Some Scenario.auditor]].
Proof. vm_compute. reflexivity. Qed.

(** ** The matcher and the declarative reading agree *)

Lemma Run_reach r x y : Run r x y → reach x y.
Proof.
  induction 1 as [x|a x t Hr|p x b t Hr Hp|r1 r2 x y z _ IH1 _ IH2|min max greedy r x Hd
                 |min max greedy r x y z Hmax _ IH1 Hne _ IH2|n r x y _ IH|x Hx|x Hx].
  - apply reach_refl.
  - by apply reach_advance with a.
  - by apply reach_advance with b.
  - by eapply reach_trans.
  - apply reach_refl.
  - by eapply reach_trans.
  - exact IH.
  - apply reach_refl.
  - apply reach_refl.
Qed.

Lemma RepeatMatcher_sound r :
  (∀ x c z, matcher r x c = Some z → ∃ y, Run r x y ∧ c y = Some z) →
  ∀ fuel min max greedy x c z,
    RepeatMatcher (matcher r) fuel min max greedy x c = Some z →
    ∃ y, Run (Repeat min max greedy r) x y ∧ c y = Some z.
Proof.
  intros Hm fuel. induction fuel as [|fuel IH]; intros min max greedy x c z Hz; [done|].
  cbn [RepeatMatcher] in Hz.
  assert (Hstep : ∀ z',
    max ≠ Some 0 →
    matcher r x (fun y =>
      if Nat.eqb min 0 && Nat.eqb (endIndex y) (endIndex x) then None
      else RepeatMatcher (matcher r) fuel (pred min) (pred <$> max) greedy y c) = Some z' →
    ∃ y, Run (Repeat min max greedy r) x y ∧ c y = Some z').
  { intros z' Hmax Hz'. apply Hm in Hz' as (y & Hy & Hd).
    destruct (Nat.eqb min 0 && Nat.eqb (endIndex y) (endIndex x)) eqn:Hcheck; [done|].
    apply IH in Hd as (y' & Hy' & Hc). exists y'. split; [|exact Hc].
    apply run_repeat_more with y; [exact Hmax|exact Hy| |exact Hy'].
    intros ->. cbn in Hcheck. by apply Nat.eqb_neq in Hcheck. }
  destruct max as [[|k]|].
  - exists x. split; [apply run_repeat_done; by right|exact Hz].
  - destruct min as [|min]; cbn [Nat.eqb negb] in Hz.
    + destruct greedy.
      * destruct (matcher r x _) as [z'|] eqn:Hm'.
        -- injection Hz as <-. by apply Hstep.
        -- exists x. split; [apply run_repeat_done; by left|exact Hz].
      * destruct (c x) as [z'|] eqn:Hc.
        -- exists x. split; [apply run_repeat_done; by left|by rewrite Hc].
        -- by apply Hstep.
    + by apply Hstep.
  - destruct min as [|min]; cbn [Nat.eqb negb] in Hz.
    + destruct greedy.
      * destruct (matcher r x _) as [z'|] eqn:Hm'.
        -- injection Hz as <-. by apply Hstep.
        -- exists x. split; [apply run_repeat_done; by left|exact Hz].
      * destruct (c x) as [z'|] eqn:Hc.
        -- exists x. split; [apply run_repeat_done; by left|by rewrite Hc].
        -- by apply Hstep.
    + by apply Hstep.
Qed.

(** Soundness: a match of the matcher is a match of the pattern, and the
    continuation accepted its end state. *)
Lemma matcher_sound r x c z :
  matcher r x c = Some z → ∃ y, Run r x y ∧ c y = Some z.
Proof.
  revert x c z.
  induction r as [|a|p|r1 IH1 r2 IH2|min max greedy r1 IH1|n r1 IH1| |];
    intros x c z Hz; cbn [matcher] in Hz.
  - exists x. split; [constructor|exact Hz].
  - destruct (rest x) as [|b t] eqn:Hrest; [done|].
    destruct (Ascii.eqb_spec a b) as [<-|]; [|done].
    exists (advance x t). split; [by constructor|exact Hz].
  - destruct (rest x) as [|b t] eqn:Hrest; [done|].
    destruct (p b) eqn:Hp; [|done].
    exists (advance x t). split; [by econstructor|exact Hz].
  - apply IH1 in Hz as (y & Hy & Hz). apply IH2 in Hz as (y' & Hy' & Hz).
    exists y'. split; [by econstructor|exact Hz].
  - by apply (RepeatMatcher_sound r1 IH1) in Hz.
  - apply IH1 in Hz as (y & Hy & Hz). exists (capture n x y). split; [by constructor|exact Hz].
  - destruct (Nat.eqb_spec (endIndex x) 0); [|done].
    exists x. split; [by constructor|exact Hz].
  - destruct (rest x) eqn:Hrest; [|done]. exists x. split; [by constructor|exact Hz].
Qed.

(** Completeness: when the pattern matches up to a state that the
    continuation accepts, the matcher finds a match. *)
Lemma matcher_complete r x y :
  Run r x y → ∀ c, is_Some (c y) → is_Some (matcher r x c).
Proof.
  induction 1 as [x|a x t Hr|p x b t Hr Hp|r1 r2 x y z _ IH1 _ IH2|min max greedy r x Hd
                 |min max greedy r x y z Hmax Hxy IH1 Hne Hyz IH2|n r x y _ IH|x Hx|x Hx];
    intros c Hc; cbn [matcher].
  - exact Hc.
  - rewrite Hr, Ascii.eqb_refl. exact Hc.
  - by rewrite Hr, Hp.
  - apply IH1, IH2, Hc.
  - rewrite Nat.add_1_r. cbn [RepeatMatcher].
    destruct max as [[|k]|]; [exact Hc| |].
    + destruct Hd as [->|?]; [|done]. cbn [Nat.eqb negb].
      destruct greedy; [destruct (matcher r x _); [done|exact Hc]|].
      destruct (c x); [done|]. by destruct Hc.
    + destruct Hd as [->|?]; [|done]. cbn [Nat.eqb negb].
      destruct greedy; [destruct (matcher r x _); [done|exact Hc]|].
      destruct (c x); [done|]. by destruct Hc.
  - rewrite Nat.add_1_r. cbn [RepeatMatcher].
    pose proof (Run_reach _ _ _ Hxy) as [Hle Hsum].
    assert (Hd : is_Some (matcher r x (fun y0 =>
              if Nat.eqb min 0 && Nat.eqb (endIndex y0) (endIndex x) then None
              else RepeatMatcher (matcher r) (min + length (rest x)) (pred min) (pred <$> max)
                     greedy y0 c))).
    { apply IH1.
      assert (Hcheck : Nat.eqb min 0 && Nat.eqb (endIndex y) (endIndex x) = false).
      { destruct (Nat.eqb_spec min 0) as [Hmin|]; [|done]. cbn.
        apply Nat.eqb_neq. by apply Hne. }
      rewrite Hcheck.
      specialize (IH2 c Hc). cbn [matcher] in IH2.
      rewrite (RepeatMatcher_fuel (matcher r) (matcher_extensional r)
                 (min + length (rest x)) (pred min + length (rest y) + 1)); [exact IH2| |lia].
      destruct min as [|min]; [|cbn; lia].
      specialize (Hne eq_refl). cbn. lia. }
    destruct max as [[|k]|]; [done| |].
    + destruct (negb (Nat.eqb min 0)); [exact Hd|].
      destruct greedy.
      * destruct Hd as [z' Hd]. by rewrite Hd.
      * destruct (c x); [done|exact Hd].
    + destruct (negb (Nat.eqb min 0)); [exact Hd|].
      destruct greedy.
      * destruct Hd as [z' Hd]. by rewrite Hd.
      * destruct (c x); [done|exact Hd].
  - apply IH. exact Hc.
  - rewrite Hx. exact Hc.
  - rewrite Hx. exact Hc.
Qed.

(** ** Searching *)

Lemma search_sound r s i z :
  search r i s = Some z → ∃ k, (k ≤ length s)%nat ∧ Run r (State (i + k) (drop k s) ∅) z.
Proof.
  revert i. induction s as [|a s IH]; intros i Hz; cbn [search] in Hz.
  - destruct (matcher r _ Some) as [y|] eqn:Hm; [|done]. injection Hz as <-.
    apply matcher_sound in Hm as (y' & Hy' & [= <-]).
    exists 0. rewrite Nat.add_0_r. split; [done|exact Hy'].
  - destruct (matcher r _ Some) as [y|] eqn:Hm.
    + injection Hz as <-. apply matcher_sound in Hm as (y' & Hy' & [= <-]).
      exists 0. rewrite Nat.add_0_r. split; [cbn; lia|exact Hy'].
    + apply IH in Hz as (k & Hk & Hrun). exists (S k).
      rewrite Nat.add_succ_r. split; [cbn; lia|exact Hrun].
Qed.

Lemma search_complete r s i k y :
  (k ≤ length s)%nat → Run r (State (i + k) (drop k s) ∅) y → is_Some (search r i s).
Proof.
  revert i k. induction s as [|a s IH]; intros i k Hk Hrun.
  - assert (k = 0) as -> by (cbn in Hk; lia). rewrite Nat.add_0_r in Hrun. cbn [search].
    destruct (matcher_complete _ _ _ Hrun Some) as [z Hz]; [done|]. cbn in Hz. by rewrite Hz.
  - cbn [search]. destruct (matcher r _ Some) as [z|] eqn:Hm; [done|].
    destruct k as [|k].
    + rewrite Nat.add_0_r in Hrun.
      destruct (matcher_complete _ _ _ Hrun Some) as [z Hz]; [done|]. cbn in Hz. congruence.
    + apply (IH (S i) k); [cbn in Hk; lia|]. by rewrite Nat.add_succ_r in Hrun.
Qed.

Lemma exec_sound r s caps :
  exec r s = Some caps →
  ∃ k y, (k ≤ length (list_ascii_of_string s))%nat ∧ Run r (start k s) y ∧ captures y = caps.
Proof.
  unfold exec. destruct (search r 0 _) as [z|] eqn:Hz; [|done]. intros [= <-].
  apply search_sound in Hz as (k & Hk & Hrun). by exists k, z.
Qed.

Lemma test_Run r s :
  test r s = true ↔
  ∃ k y, (k ≤ length (list_ascii_of_string s))%nat ∧ Run r (start k s) y.
Proof.
  unfold test. rewrite bool_decide_eq_true. split.
  - intros [caps Hc]. apply exec_sound in Hc as (k & y & Hk & Hrun & _). by exists k, y.
  - intros (k & y & Hk & Hrun). unfold exec.
    destruct (search_complete r _ 0 k y Hk Hrun) as [z ->]. by eexists.
Qed.

Lemma test_exec r s : test r s = true ↔ is_Some (exec r s).
Proof. unfold test. apply bool_decide_eq_true. Qed.

Lemma exec_None_test r s : exec r s = None → test r s = false.
Proof.
  intros Hn. destruct (test r s) eqn:Ht; [|done].
  apply test_exec in Ht as [c Hc]. congruence.
Qed.

(** ** What the parts of a pattern consume *)

Lemma Run_seq_inv r1 r2 x z : Run (Seq r1 r2) x z → ∃ y, Run r1 x y ∧ Run r2 y z.
Proof. inversion 1; subst. by eexists. Qed.

Lemma Run_group_inv n r x z : Run (Group n r) x z → ∃ y, Run r x y ∧ z = capture n x y.
Proof. inversion 1; subst. by eexists. Qed.

Lemma Run_bol_inv x y : Run Bol x y → y = x ∧ endIndex x = 0.
Proof. by inversion 1; subst. Qed.

Lemma Run_eol_inv x y : Run Eol x y → y = x ∧ rest x = [].
Proof. by inversion 1; subst. Qed.

Lemma Run_class_inv p x y :
  Run (Class p) x y → ∃ b, rest x = b :: rest y ∧ p b = true ∧
                           endIndex y = S (endIndex x) ∧ captures y = captures x.
Proof. inversion 1; subst. by exists b. Qed.

Lemma Run_lit s x y :
  Run (lit s) x y →
  rest x = list_ascii_of_string s ++ rest y ∧
  endIndex y = (endIndex x + length (list_ascii_of_string s))%nat ∧
  captures y = captures x.
Proof.
  revert x. induction s as [|a s IH]; intros x Hrun; cbn [lit] in Hrun.
  - inversion Hrun; subst. cbn. by rewrite Nat.add_0_r.
  - inversion Hrun as [| | |? ? ? y1 ? H1 H2| | | | |]; subst.
    inversion H1; subst. apply IH in H2 as (Hrest & Hidx & Hcap).
    cbn in *. split; [congruence|]. split; [lia|done].
Qed.

Lemma lit_Run s i t c :
  Run (lit s) (State i (list_ascii_of_string s ++ t) c)
      (State (i + length (list_ascii_of_string s)) t c).
Proof.
  revert i. induction s as [|a s IH]; intros i; cbn [lit list_ascii_of_string length app].
  - rewrite Nat.add_0_r. constructor.
  - eapply run_seq; [by apply run_lit|]. cbn. rewrite Nat.add_succ_r. apply (IH (S i)).
Qed.

(** A repetition of a character class consumes characters of the class,
    as many as its bounds allow. *)
Lemma Run_classes min max greedy p x y :
  (∀ m, max = Some m → min ≤ m)%nat →
  Run (Repeat min max greedy (Class p)) x y →
  ∃ u, rest x = u ++ rest y ∧
       endIndex y = (endIndex x + length u)%nat ∧
       captures y = captures x ∧
       Forall (fun a => p a = true) u ∧
       (min ≤ length u)%nat ∧ (∀ m, max = Some m → length u ≤ m)%nat.
Proof.
  intros Hb Hrun. remember (Repeat min max greedy (Class p)) as r eqn:Hr.
  revert min max Hb Hr.
  induction Hrun as [| | | |min' max' greedy' r' x Hd
                    |min' max' greedy' r' x y z Hmax Hxy _ Hne Hyz IH| | |];
    intros min max Hb Hr; try discriminate Hr; injection Hr as -> -> -> ->.
  - exists []. cbn. rewrite Nat.add_0_r. repeat split; try done.
    + destruct Hd as [-> | ->]; [lia|]. specialize (Hb 0 eq_refl). lia.
    + intros m _. lia.
  - apply Run_class_inv in Hxy as (b & Hrest & Hp & Hidx & Hcap).
    destruct (IH (pred min) (pred <$> max)) as (u & Hu & Hi & Hc & Hall & Hlo & Hhi);
      [|reflexivity|].
    { intros m Hm. destruct max as [k|]; [|done]. injection Hm as <-.
      specialize (Hb k eq_refl). lia. }
    exists (b :: u). cbn [length app].
    split; [by rewrite Hrest, Hu|]. split; [lia|]. split; [congruence|].
    split; [by constructor|]. split; [lia|].
    intros m ->. specialize (Hhi (pred m) eq_refl). destruct m; [done|]. cbn in Hhi. lia.
Qed.

Lemma classes_Run min max greedy p u i t c :
  Forall (fun a => p a = true) u →
  (min ≤ length u)%nat → (∀ m, max = Some m → length u ≤ m)%nat →
  Run (Repeat min max greedy (Class p)) (State i (u ++ t) c) (State (i + length u) t c).
Proof.
  intros Hall. revert min max i.
  induction Hall as [|b u Hb _ IH]; intros min max i Hlo Hhi; cbn [length app] in *.
  - rewrite Nat.add_0_r. apply run_repeat_done. left. lia.
  - eapply run_repeat_more.
    + intros ->. specialize (Hhi 0 eq_refl). lia.
    + by eapply (run_class p (State i (b :: u ++ t) c) b).
    + cbn. lia.
    + cbn. rewrite Nat.add_succ_r. apply (IH _ _ (S i)); [lia|].
      intros m Hm. destruct max as [k|]; [|done]. injection Hm as <-.
      specialize (Hhi k eq_refl). lia.
Qed.

(** The string captured by a group is what the group consumed. *)
Lemma capture_lookup n x y u :
  rest x = u ++ rest y → endIndex y = (endIndex x + length u)%nat →
  captures (capture n x y) !! n = Some (string_of_list_ascii u).
Proof.
  intros Hrest Hidx. unfold capture. cbn [captures]. rewrite lookup_insert_eq.
  rewrite Hrest, Hidx. f_equal. f_equal.
  replace (endIndex x + length u - endIndex x)%nat with (length u) by lia.
  by rewrite take_app_length.
Qed.

Lemma capture_lookup_ne n m x y :
  n ≠ m → captures (capture n x y) !! m = captures y !! m.
Proof. intros Hne. unfold capture. cbn [captures]. by rewrite lookup_insert_ne. Qed.

(** ** Strings and lists of characters *)

Lemma list_ascii_of_string_app (a b : string) :
  list_ascii_of_string (a +:+ b) = list_ascii_of_string a ++ list_ascii_of_string b.
Proof. induction a as [|c a IH]; [reflexivity|]. cbn. by rewrite <- IH. Qed.

Lemma string_of_list_ascii_app (u v : list ascii) :
  string_of_list_ascii (u ++ v) = string_of_list_ascii u +:+ string_of_list_ascii v.
Proof. induction u as [|c u IH]; [reflexivity|]. cbn. by rewrite IH. Qed.

Lemma string_of_list_eq (s : string) (l : list ascii) :
  list_ascii_of_string s = l → s = string_of_list_ascii l.
Proof. intros <-. by rewrite string_of_list_ascii_of_string. Qed.

Lemma length_string_of_list (u : list ascii) :
  String.length (string_of_list_ascii u) = length u.
Proof. induction u as [|c u IH]; [reflexivity|]. cbn. by rewrite IH. Qed.

(** ** Splitting and joining *)

Lemma split_from_app sep cur u v :
  sep ∉ u →
  split_from sep cur (u ++ sep :: v)
  = string_of_list_ascii (rev cur ++ u) :: split_from sep [] v.
Proof.
  revert cur. induction u as [|a u IH]; intros cur Hu; cbn [app split_from].
  - by rewrite Ascii.eqb_refl, app_nil_r.
  - apply not_elem_of_cons in Hu as [Ha Hu].
    destruct (Ascii.eqb_spec a sep) as [->|_]; [done|].
    rewrite IH by done. cbn [rev]. by rewrite <- app_assoc.
Qed.

Lemma split_from_end sep cur u :
  sep ∉ u → split_from sep cur u = [string_of_list_ascii (rev cur ++ u)].
Proof.
  revert cur. induction u as [|a u IH]; intros cur Hu; cbn [split_from].
  - by rewrite app_nil_r.
  - apply not_elem_of_cons in Hu as [Ha Hu].
    destruct (Ascii.eqb_spec a sep) as [->|_]; [done|].
    rewrite IH by done. cbn [rev]. by rewrite <- app_assoc.
Qed.

Lemma split_app sep (u v : list ascii) :
  sep ∉ u →
  split sep (string_of_list_ascii (u ++ sep :: v))
  = string_of_list_ascii u :: split sep (string_of_list_ascii v).
Proof.
  intros Hu. unfold split. rewrite !list_ascii_of_string_of_list_ascii.
  by rewrite split_from_app.
Qed.

Lemma split_end sep (u : list ascii) :
  sep ∉ u → split sep (string_of_list_ascii u) = [string_of_list_ascii u].
Proof.
  intros Hu. unfold split. rewrite list_ascii_of_string_of_list_ascii.
  by rewrite split_from_end.
Qed.

(** ** The patterns of the repository, read declaratively *)

Ltac run_bounds := let m := fresh in let H := fresh in intros m H; first [discriminate H | injection H as <-; lia].

(** Take a match of a pattern apart, part by part. *)
Ltac run_inv H :=
  lazymatch type of H with
  | Run (lit _) _ _ =>
      let Hr := fresh "Hrest" in let Hi := fresh "Hidx" in let Hc := fresh "Hcap" in
      apply Run_lit in H as (Hr & Hi & Hc)
  | Run (plus _) _ _ => unfold plus in H; run_inv H
  | Run (Repeat _ _ _ (Class _)) _ _ =>
      let u := fresh "u" in
      let Hr := fresh "Hrest" in let Hi := fresh "Hidx" in let Hc := fresh "Hcap" in
      let Ha := fresh "Hall" in let Hlo := fresh "Hlo" in let Hhi := fresh "Hhi" in
      apply Run_classes in H as (u & Hr & Hi & Hc & Ha & Hlo & Hhi); [|run_bounds]
  | Run (Class _) _ _ =>
      let b := fresh "b" in
      let Hr := fresh "Hrest" in let Hi := fresh "Hidx" in let Hc := fresh "Hcap" in
      let Hp := fresh "Hp" in
      apply Run_class_inv in H as (b & Hr & Hp & Hi & Hc)
  | Run (Seq _ _) _ _ =>
      let y := fresh "y" in let H1 := fresh "Hrun" in let H2 := fresh "Hrun" in
      apply Run_seq_inv in H as (y & H1 & H2); run_inv H1; run_inv H2
  | Run (Group _ _) _ _ =>
      let y := fresh "y" in let H1 := fresh "Hrun" in let He := fresh "Hgroup" in
      apply Run_group_inv in H as (y & H1 & He); run_inv H1
  | Run Bol _ _ =>
      let He := fresh "Hbol" in let Hi := fresh "Hzero" in
      apply Run_bol_inv in H as (He & Hi)
  | Run Eol _ _ =>
      let He := fresh "Heol" in let Hi := fresh "Hend" in
      apply Run_eol_inv in H as (He & Hi)
  | _ => idtac
  end.

Lemma Run_arn_prefix x y :
  Run arn_prefix x y →
  endIndex x = 0 ∧
  ∃ X, rest x = list_ascii_of_string "arn:aws" ++ X ++ ":"%char :: rest y ∧
       Forall (fun a => chr "-" a || word a = true) X ∧
       captures y = captures x.
Proof.
  unfold arn_prefix. intros Hrun. run_inv Hrun. subst.
  split; [done|]. exists u. split; [|split; [done|congruence]].
  rewrite Hrest, Hrest0, Hrest1. reflexivity.
Qed.

Ltac run_inv' H :=
  lazymatch type of H with
  | Run arn_prefix _ _ =>
      let X := fresh "X" in
      let Hz := fresh "Hzero" in let Hr := fresh "Hrest" in
      let Ha := fresh "Hall" in let Hc := fresh "Hcap" in
      apply Run_arn_prefix in H as (Hz & X & Hr & Ha & Hc)
  | Run (lit _) _ _ =>
      let Hr := fresh "Hrest" in let Hi := fresh "Hidx" in let Hc := fresh "Hcap" in
      apply Run_lit in H as (Hr & Hi & Hc)
  | Run (plus _) _ _ => unfold plus in H; run_inv' H
  | Run (Repeat _ _ _ (Class _)) _ _ =>
      let u := fresh "u" in
      let Hr := fresh "Hrest" in let Hi := fresh "Hidx" in let Hc := fresh "Hcap" in
      let Ha := fresh "Hall" in let Hlo := fresh "Hlo" in let Hhi := fresh "Hhi" in
      apply Run_classes in H as (u & Hr & Hi & Hc & Ha & Hlo & Hhi); [|run_bounds]
  | Run (Class _) _ _ =>
      let b := fresh "b" in
      let Hr := fresh "Hrest" in let Hi := fresh "Hidx" in let Hc := fresh "Hcap" in
      let Hp := fresh "Hp" in
      apply Run_class_inv in H as (b & Hr & Hp & Hi & Hc)
  | Run (Seq _ _) _ _ =>
      let y := fresh "y" in let H1 := fresh "Hrun" in let H2 := fresh "Hrun" in
      apply Run_seq_inv in H as (y & H1 & H2); run_inv' H1; run_inv' H2
  | Run (Group _ _) _ _ =>
      let y := fresh "y" in let H1 := fresh "Hrun" in let He := fresh "Hgroup" in
      apply Run_group_inv in H as (y & H1 & He); run_inv' H1
  | Run Bol _ _ =>
      let He := fresh "Hbol" in let Hi := fresh "Hzero" in
      apply Run_bol_inv in H as (He & Hi)
  | Run Eol _ _ =>
      let He := fresh "Heol" in let Hi := fresh "Hend" in
      apply Run_eol_inv in H as (He & Hi)
  | _ => idtac
  end.

Lemma start_zero k s y r :
  Run r (start k s) y → endIndex (start k s) = 0 →
  k = 0 ∧ rest (start k s) = list_ascii_of_string s.
Proof. unfold start. cbn. intros _ ->. by rewrite drop_0. Qed.

Lemma account_id_capture s caps :
  exec ACCOUNT_ID_FROM_STACK_REGEX s = Some caps →
  ∃ X R D T,
    list_ascii_of_string s
    = list_ascii_of_string "arn:aws" ++ X ++ ":"%char :: list_ascii_of_string "cloudformation:"
        ++ R ++ ":"%char :: D ++ ":"%char :: T ∧
    Forall (fun a => chr "-" a || word a = true) X ∧
    Forall (fun a => non ":" a = true) R ∧
    Forall (fun a => digit a = true) D ∧ length D = 12 ∧
    caps !! 1 = Some (string_of_list_ascii D).
Proof.
  intros Hexec. apply exec_sound in Hexec as (k & y & Hk & Hrun & <-).
  unfold ACCOUNT_ID_FROM_STACK_REGEX in Hrun. run_inv' Hrun.
  unfold start in *. cbn [endIndex rest captures] in *. subst k. rewrite drop_0 in Hrest.
  subst. cbn [capture rest endIndex captures] in *.
  exists X, u, u0, u1.
  split; [rewrite Hrest, Hrest0, Hrest1, Hrest2, Hrest3, Hrest4, Hrest5, Hend;
          cbn [list_ascii_of_string app]; by rewrite app_nil_r|].
  do 3 (split; [done|]). split; [specialize (Hhi0 12 eq_refl); lia|].
  rewrite lookup_insert_ne by done. rewrite Hcap5, Hcap4.
  by apply capture_lookup.
Qed.

Lemma class_not_sep (p : ascii → bool) (sep : ascii) (u : list ascii) :
  p sep = false → Forall (fun a => p a = true) u → sep ∉ u.
Proof.
  intros Hsep Hall Hin. rewrite Forall_forall in Hall. specialize (Hall _ Hin). congruence.
Qed.

(** A character is not in a literal list; a character outside a class is
    not in a list of characters of the class. *)
Ltac not_in_literal := apply (bool_decide_unpack _); vm_compute; exact I.
Ltac by_class :=
  match goal with
  | H : Forall (fun a => @?p a = true) ?u |- _ ∉ ?u =>
      apply (class_not_sep p _ u); [reflexivity|exact H]
  end.

Lemma account_id_field s caps :
  exec ACCOUNT_ID_FROM_STACK_REGEX s = Some caps →
  ∃ id, caps !! 1 = Some id ∧ String.length id = 12 ∧
        Forall (fun a => digit a = true) (list_ascii_of_string id) ∧
        split ":" s !! 4 = Some id.
Proof.
  intros Hexec. apply account_id_capture in Hexec as (X & R & D & T & Hs & HX & HR & HD & Hlen & Hcap).
  exists (string_of_list_ascii D). split; [exact Hcap|].
  split; [by rewrite length_string_of_list|].
  split; [by rewrite list_ascii_of_string_of_list_ascii|].
  apply string_of_list_eq in Hs. rewrite Hs.
  change (list_ascii_of_string "arn:aws" ++ X ++ ":"%char :: list_ascii_of_string "cloudformation:"
            ++ R ++ ":"%char :: D ++ ":"%char :: T)
    with (list_ascii_of_string "arn" ++ ":"%char :: (list_ascii_of_string "aws" ++ X)
            ++ ":"%char :: list_ascii_of_string "cloudformation"
            ++ ":"%char :: R ++ ":"%char :: D ++ ":"%char :: T).
  assert (HcX : ":"%char ∉ list_ascii_of_string "aws" ++ X).
  { rewrite not_elem_of_app. split; [not_in_literal|by_class]. }
  rewrite split_app by not_in_literal.
  rewrite split_app by exact HcX.
  rewrite split_app by not_in_literal.
  rewrite split_app by by_class.
  rewrite split_app by by_class.
  reflexivity.
Qed.

Ltac chain_rest :=
  repeat match goal with H : rest ?x = _ |- context [rest ?x] => rewrite H end.

Ltac anchored :=
  unfold start in *; cbn [endIndex rest captures] in *; subst;
  cbn [capture rest endIndex captures] in *;
  match goal with H : context [drop 0 _] |- _ => rewrite drop_0 in H end.

Lemma consumed_take (x y : RegExp.state) u :
  rest x = u ++ rest y → endIndex y = (endIndex x + length u)%nat →
  take (endIndex y - endIndex x) (rest x) = u.
Proof.
  intros -> ->. replace (endIndex x + length u - endIndex x)%nat with (length u) by lia.
  by rewrite take_app_length.
Qed.

Lemma nonempty_length {A} (u : list A) : (1 ≤ length u)%nat → u ≠ [].
Proof. by destruct u; cbn; [lia|]. Qed.

Lemma region_capture_field s caps :
  exec RESOURCE_SHARE_REGION_REGEX s = Some caps →
  ∃ X R T,
    list_ascii_of_string s
    = list_ascii_of_string "arn:aws" ++ X ++ ":"%char :: list_ascii_of_string "ram:"
        ++ R ++ ":"%char :: T ∧
    Forall (fun a => chr "-" a || word a = true) X ∧
    Forall (fun a => non ":" a = true) R ∧ R ≠ [] ∧ T ≠ [] ∧
    caps !! 1 = Some (string_of_list_ascii R).
Proof.
  intros Hexec. apply exec_sound in Hexec as (k & y & Hk & Hrun & <-).
  unfold RESOURCE_SHARE_REGION_REGEX in Hrun. run_inv' Hrun. anchored.
  exists X, u, (u0 ++ rest y).
  split; [rewrite Hrest; chain_rest; reflexivity|].
  do 2 (split; [done|]). split; [by apply nonempty_length|].
  split; [destruct u0; [cbn in *; lia|done]|].
  rewrite Hcap3, Hcap2, lookup_insert_eq. by rewrite (consumed_take _ _ u).
Qed.

Lemma region_field s caps :
  exec RESOURCE_SHARE_REGION_REGEX s = Some caps →
  ∃ r, caps !! 1 = Some r ∧ r ≠ EmptyString ∧ split ":" s !! 3 = Some r.
Proof.
  intros Hexec.
  apply region_capture_field in Hexec as (X & R & T & Hs & HX & HR & Hne & _ & Hcap).
  exists (string_of_list_ascii R). split; [exact Hcap|].
  split; [by destruct R|].
  apply string_of_list_eq in Hs. rewrite Hs.
  change (list_ascii_of_string "arn:aws" ++ X ++ ":"%char :: list_ascii_of_string "ram:"
            ++ R ++ ":"%char :: T)
    with (list_ascii_of_string "arn" ++ ":"%char :: (list_ascii_of_string "aws" ++ X)
            ++ ":"%char :: list_ascii_of_string "ram" ++ ":"%char :: R ++ ":"%char :: T).
  assert (HcX : ":"%char ∉ list_ascii_of_string "aws" ++ X).
  { rewrite not_elem_of_app. split; [not_in_literal|by_class]. }
  rewrite split_app by not_in_literal.
  rewrite split_app by exact HcX.
  rewrite split_app by not_in_literal.
  rewrite split_app by by_class.
  reflexivity.
Qed.

Lemma database_name_capture s caps :
  exec DATABASE_NAME_CAPTURE_REGEX s = Some caps →
  ∃ X R A N,
    list_ascii_of_string s
    = list_ascii_of_string "arn:aws" ++ X ++ ":"%char :: list_ascii_of_string "glue:"
        ++ R ++ ":"%char :: A ++ list_ascii_of_string ":database/" ++ N ∧
    Forall (fun a => chr "-" a || word a = true) X ∧
    Forall (fun a => non ":" a = true) R ∧
    Forall (fun a => non ":" a = true) A ∧
    Forall (fun a => dot a = true) N ∧ N ≠ [] ∧
    caps !! 1 = Some (string_of_list_ascii N).
Proof.
  intros Hexec. apply exec_sound in Hexec as (k & y & Hk & Hrun & <-).
  unfold DATABASE_NAME_CAPTURE_REGEX in Hrun. run_inv' Hrun. anchored.
  exists X, u, u0, u1.
  split; [rewrite Hrest; chain_rest; cbn [list_ascii_of_string app]; by rewrite app_nil_r|].
  do 4 (split; [done|]). split; [by apply nonempty_length|].
  rewrite lookup_insert_eq. by rewrite (consumed_take _ _ u1).
Qed.

Lemma table_name_capture s caps :
  exec TABLE_NAME_CAPTURE_REGEX s = Some caps →
  ∃ X R A D N,
    list_ascii_of_string s
    = list_ascii_of_string "arn:aws" ++ X ++ ":"%char :: list_ascii_of_string "glue:"
        ++ R ++ ":"%char :: A ++ list_ascii_of_string ":table/" ++ D ++ "/"%char :: N ∧
    Forall (fun a => chr "-" a || word a = true) X ∧
    Forall (fun a => non ":" a = true) R ∧
    Forall (fun a => non ":" a = true) A ∧
    Forall (fun a => non "/" a = true) D ∧ D ≠ [] ∧
    Forall (fun a => dot a = true) N ∧ N ≠ [] ∧
    caps !! 1 = Some (string_of_list_ascii N).
Proof.
  intros Hexec. apply exec_sound in Hexec as (k & y & Hk & Hrun & <-).
  unfold TABLE_NAME_CAPTURE_REGEX in Hrun. run_inv' Hrun. anchored.
  exists X, u, u0, u1, u2.
  split; [rewrite Hrest; chain_rest; cbn [list_ascii_of_string app]; by rewrite app_nil_r|].
  do 4 (split; [done|]). split; [by apply nonempty_length|].
  split; [done|]. split; [by apply nonempty_length|].
  rewrite lookup_insert_eq. by rewrite (consumed_take _ _ u2).
Qed.

Lemma test_bucketRegex s :
  test bucketRegex s = true ↔
  ∃ a mid z,
    list_ascii_of_string s = a :: mid ++ [z] ∧
    lower a || digit a = true ∧ lower z || digit z = true ∧
    Forall (fun c => lower c || digit c || chr "-" c = true) mid ∧
    (1 ≤ length mid ≤ 61)%nat.
Proof.
  rewrite test_Run. unfold bucketRegex. cbv zeta. split.
  - intros (k & y & Hk & Hrun). run_inv' Hrun. anchored.
    exists b, u, b0. split; [rewrite Hrest; chain_rest; reflexivity|].
    do 3 (split; [done|]). specialize (Hhi 61 eq_refl). lia.
  - intros (a & mid & z & Hs & Ha & Hz & Hmid & Hlo & Hhi).
    exists 0, (State (S (S (length mid))) [] ∅). split; [lia|].
    unfold start. rewrite drop_0, Hs.
    eapply run_seq; [by apply run_bol|].
    eapply run_seq; [by eapply (run_class _ (State 0 (a :: mid ++ [z]) ∅) a)|].
    eapply run_seq;
      [apply (classes_Run 1 (Some 61) true _ mid 1 [z] ∅ Hmid Hlo); by intros m [= <-]|].
    eapply run_seq; [by eapply (run_class _ (State (1 + length mid) [z] ∅) z)|].
    by apply run_eol.
Qed.

Lemma includes_infix (needle : string) (a b : list ascii) :
  includes needle (string_of_list_ascii (a ++ list_ascii_of_string needle ++ b)) = true.
Proof.
  rewrite !string_of_list_ascii_app, string_of_list_ascii_of_string.
  apply includes_prepend, includes_head.
Qed.

(** A principal that validateIAMPrincipal accepts names the account. *)
Lemma test_iamPrincipalRegex accountId principal :
  test (iamPrincipalRegex accountId) principal = true →
  includes (":iam::" +:+ accountId +:+ ":") principal = true.
Proof.
  rewrite test_Run. intros (k & y & Hk & Hrun).
  unfold iamPrincipalRegex in Hrun. run_inv' Hrun.
  unfold start in *. cbn [rest endIndex captures] in *.
  assert (Hs : list_ascii_of_string principal
               = (take k (list_ascii_of_string principal) ++ list_ascii_of_string "arn:aws" ++ u)
                 ++ list_ascii_of_string (":iam::" +:+ accountId +:+ ":") ++ (u0 ++ rest y)).
  { rewrite <- (take_drop k (list_ascii_of_string principal)) at 1.
    rewrite Hrest. chain_rest. by rewrite <- !app_assoc. }
  apply string_of_list_eq in Hs. rewrite Hs. apply includes_infix.
Qed.

(** A principal of the standard partition in the account, with a name
    that does not start with a line terminator, is accepted. *)
Lemma iamPrincipalRegex_accepts accountId a name :
  dot a = true →
  test (iamPrincipalRegex accountId)
       ("arn:aws" +:+ ":iam::" +:+ accountId +:+ ":" +:+ String a name) = true.
Proof.
  intros Ha. apply test_Run.
  set (L := list_ascii_of_string (":iam::" +:+ accountId +:+ ":")).
  exists 0, (State (7 + length L + 1) (list_ascii_of_string name) ∅). split; [lia|].
  unfold start, iamPrincipalRegex. rewrite drop_0.
  replace (list_ascii_of_string ("arn:aws" +:+ ":iam::" +:+ accountId +:+ ":" +:+ String a name))
    with (list_ascii_of_string "arn:aws" ++ L ++ a :: list_ascii_of_string name).
  2:{ unfold L. rewrite !list_ascii_of_string_app. cbn [list_ascii_of_string app].
      by rewrite <- !app_assoc. }
  eapply run_seq; [apply (lit_Run "arn:aws" 0)|].
  eapply run_seq; [apply run_repeat_done; by left|].
  eapply run_seq; [apply (lit_Run _ 7)|]. fold L.
  eapply run_repeat_more; [done| |cbn; lia|apply run_repeat_done; by left].
  replace (7 + length L + 1)%nat with (S (7 + length L)) by lia.
  by eapply (run_class dot (State (7 + length L) (a :: list_ascii_of_string name) ∅) a).
Qed.

(** * ResourceShareAcceptor, every run *)

Lemma acceptor_run ev ctx w s :
  ∃ st reason t,
    ResourceShareAcceptor.startCreate ev ctx w s
    = (inr (st, reason), {| history := history s ++ t; stderr := stderr s |}) ∧
    (t = [] ∧ st = "FAILED" ∨
     ∃ r, split ":" (ToString (ResourceShareArn (ResourceProperties ev))) !! 3 = Some r ∧
          test regionRegex r = true ∧
          AcceptorRun ev (Some r) st t).
Proof.
  unfold ResourceShareAcceptor.startCreate.
  unfold try_catch, bind at 1.
  unfold ResourceShareAcceptor.getResourceShareArn,
    ResourceShareAcceptor.validateResourceShareArn.
  unfold bind at 1.
  destruct (test RESOURCE_SHARE_ARN_REGEX _) eqn:Harn; monad.
  2:{ eexists _, _, []. rewrite app_nil_r. split; [by destruct s|by left]. }
  unfold ResourceShareAcceptor.getResourceShareRegion, ResourceShareAcceptor.validateRegion.
  destruct (exec RESOURCE_SHARE_REGION_REGEX _) as [captured|] eqn:Hexec; monad.
  2:{ eexists _, _, []. rewrite app_nil_r. split; [by destruct s|by left]. }
  destruct (region_field _ _ Hexec) as (r & Hr & Hne & Hfield). rewrite Hr. cbn [ToString].
  destruct (test regionRegex r) eqn:Hregion; monad.
  2:{ eexists _, _, []. rewrite app_nil_r. split; [by destruct s|by left]. }
  unfold ResourceShareAcceptor.getInvitation. unfold bind at 1.
  destruct (send_run (ResourceShareAcceptor.constructRAMClient (Some r))
              (GetResourceShareInvitationsCommand [ResourceShareArn (ResourceProperties ev)]) w s)
    as (x & -> & Hx & Hrej).
  set (a1 := respond w (history s) _) in *.
  destruct x as [e|r1]; monad.
  { destruct Hrej as (n & m & Ha1 & ->).
    eexists _, _, [_]. split; [reflexivity|]. right. exists r. do 2 (split; [done|]).
    apply acceptor_lookup_failed. by rewrite Ha1. }
  specialize (Hx r1 eq_refl). subst r1.
  destruct (resourceShareInvitations_of a1) as [invitations|] eqn:Hinv.
  2:{ eexists _, _, [_]. split; [reflexivity|]. right. exists r. do 2 (split; [done|]).
      by apply acceptor_lookup_failed. }
  assert (Ha1 : a1 = GetResourceShareInvitationsResponse invitations).
  { destruct a1; try discriminate Hinv. by injection Hinv as ->. }
  rewrite Ha1. clearbody a1. clear Hrej.
  destruct (truthy (head invitations ≫= resourceShareInvitationArn)) eqn:Hfound.
  - destruct invitations as [|inv others]; [discriminate Hfound|].
    cbn [head mbind option_bind] in Hfound |- *.
    cbn [length Nat.ltb Nat.leb andb]. monad.
    unfold ResourceShareAcceptor.handleInvitation.
    destruct (bool_decide (status inv = Some ResourceShareAcceptor.PENDING)) eqn:Hp.
    + apply bool_decide_eq_true in Hp.
      unfold ResourceShareAcceptor.acceptInvitation, try_catch. unfold bind at 1.
      destruct (send_run (ResourceShareAcceptor.constructRAMClient (Some r))
                  (AcceptResourceShareInvitationCommand (resourceShareInvitationArn inv)) w
                  {| history := history s
                       ++ [((ResourceShareAcceptor.constructRAMClient (Some r),
                             GetResourceShareInvitationsCommand
                               [ResourceShareArn (ResourceProperties ev)]),
                            GetResourceShareInvitationsResponse (inv :: others))];
                     stderr := stderr s |})
        as (x & -> & _ & Hrej).
      cbn [history stderr] in *.
      set (a2 := respond w _ _) in *. clearbody a2.
      destruct x as [e|r2].
      * destruct Hrej as (n & m & -> & ->). cbn [instanceof].
        destruct (String.eqb n _) eqn:Hn; monad.
        -- eexists _, _, [_; _]. rewrite <- app_assoc. split; [reflexivity|].
           right. exists r. do 2 (split; [done|]).
           apply acceptor_accepted; [done|done|by rewrite Hn].
        -- eexists _, _, [_; _]. rewrite <- app_assoc. split; [reflexivity|].
           right. exists r. do 2 (split; [done|]).
           apply acceptor_accepted; [done|done|by rewrite Hn].
      * monad. eexists _, _, [_; _]. rewrite <- app_assoc. split; [reflexivity|].
        right. exists r. do 2 (split; [done|]).
        apply acceptor_accepted; [done|done|by destruct a2].
    + apply bool_decide_eq_false in Hp.
      destruct (bool_decide (status inv = Some ResourceShareAcceptor.EXPIRED)) eqn:He;
        [|destruct (bool_decide (status inv = Some ResourceShareAcceptor.ACCEPTED)) eqn:Ha;
          [|destruct (bool_decide (status inv = Some ResourceShareAcceptor.REJECTED)) eqn:Hj]];
        monad;
        (eexists _, _, [_]; split; [reflexivity|];
         right; exists r; do 2 (split; [done|]);
         apply acceptor_decided; [done|done|unfold decided; rewrite ?He, ?Hj; try reflexivity]).
      apply bool_decide_eq_true in Ha. rewrite Ha. reflexivity.
  - rewrite andb_false_r.
    unfold ResourceShareAcceptor.resourceShareAlreadyAccepted.
    unfold bind at 1. unfold bind at 1.
    destruct (send_run (ResourceShareAcceptor.constructRAMClient (Some r))
                (ListResourcesCommand "OTHER-ACCOUNTS"
                   [ResourceShareArn (ResourceProperties ev)] None) w
                {| history := history s
                     ++ [((ResourceShareAcceptor.constructRAMClient (Some r),
                           GetResourceShareInvitationsCommand
                             [ResourceShareArn (ResourceProperties ev)]),
                          GetResourceShareInvitationsResponse invitations)];
                   stderr := stderr s |})
      as (x & -> & Hx & Hrej).
    cbn [history stderr] in *.
    set (a2 := respond w _ _) in *. clearbody a2.
    destruct x as [e|r2]; monad.
    + destruct Hrej as (n & m & -> & ->).
      eexists _, _, [_; _]. rewrite <- app_assoc. split; [reflexivity|].
      right. exists r. do 2 (split; [done|]). by apply acceptor_listed.
    + specialize (Hx r2 eq_refl). subst r2.
      destruct a2 as [n m|[|first more]| | | |]; cbn [resources_of length Nat.eqb]; monad;
        (eexists _, _, [_; _]; rewrite <- app_assoc; split; [reflexivity|];
         right; exists r; do 2 (split; [done|]); by apply acceptor_listed).
Qed.

(** * GlueDatabase, every run *)

Lemma database_run ev ctx w s :
  ∃ st id reason t,
    GlueDatabase.startCreate ev ctx w s
    = (inr (st, id, reason), {| history := history s ++ t; stderr := stderr s |}) ∧
    DatabaseRun ev w st id t.
Proof.
  unfold GlueDatabase.startCreate. unfold bind at 1. unfold process_env_AWS_REGION at 1.
  unfold try_catch, bind at 1.
  unfold GlueDatabase.getResourceShareArn, GlueDatabase.validateResourceShareArn.
  unfold bind at 1.
  destruct (test RESOURCE_SHARE_ARN_REGEX _) eqn:Harn; monad.
  2:{ eexists _, _, _, []. rewrite app_nil_r. split; [by destruct s|constructor]. }
  unfold GlueDatabase.getSharedGlueDatabaseArn. unfold bind at 1. unfold bind at 1.
  destruct (send_run {| service := RAM; region := AWS_REGION w |}
              (ListResourcesCommand "OTHER-ACCOUNTS"
                 [ResourceShareArn (ResourceProperties ev)] (Some "glue:database")) w s)
    as (x & -> & Hx & Hrej).
  set (a1 := respond w (history s) _) in *. clearbody a1.
  destruct x as [e|r1]; monad.
  { eexists _, _, _, [_]. split; [reflexivity|constructor]. }
  specialize (Hx r1 eq_refl). subst r1.
  destruct a1 as [n m|[|first others]| | | |]; cbn [resources_of length Nat.eqb head]; monad;
    try (eexists _, _, _, [_]; split; [reflexivity|constructor]).
  unfold GlueDatabase.getDatabaseArnParts.
  destruct (test glueDatabaseRegex (ToString (arn first))) eqn:Hshape; monad.
  2:{ eexists _, _, _, [_]. split; [reflexivity|constructor]. }
  destruct (arn first) as [databaseArn|] eqn:Hfirst; monad.
  2:{ eexists _, _, _, [_]. split; [reflexivity|constructor]. }
  cbn [ToString] in Hshape.
  destruct (split ":" databaseArn !! 5) as [part|] eqn:Hpart; monad.
  2:{ eexists _, _, _, [_]. split; [reflexivity|constructor]. }
  unfold GlueDatabase.createGlueDatabase, try_catch. unfold bind at 1.
  match goal with |- context [send ?c ?cmd ?w ?s] =>
    destruct (send_run c cmd w s) as (x & -> & _ & Hrej2) end.
  cbn [history stderr] in *.
  set (a2 := respond w _ _) in *. clearbody a2.
  destruct x as [e|r2]; monad.
  - destruct Hrej2 as (n & m & -> & ->). cbn [instanceof].
    destruct (String.eqb n _) eqn:Hn; monad;
      (eexists _, _, _, [_; _]; rewrite <- app_assoc; split; [reflexivity|];
       eapply database_created; [exact Hfirst|exact Hshape|exact Hpart|by rewrite Hn]).
  - eexists _, _, _, [_; _]. rewrite <- app_assoc. split; [reflexivity|].
    eapply database_created; [exact Hfirst|exact Hshape|exact Hpart|by destruct a2].
Qed.

Lemma count_nil P : count P [] = 0.
Proof. reflexivity. Qed.

Lemma count_cons P e t :
  count P (e :: t) = ((if P e.1.2 then 1 else 0) + count P t)%nat.
Proof.
  destruct e as [[client cmd] r]. unfold count. cbn. case_decide as He.
  - by rewrite He.
  - destruct (P cmd); [by destruct He|reflexivity].
Qed.

Lemma count_app P t u : count P (t ++ u) = (count P t + count P u)%nat.
Proof.
  induction t as [|e t IH]; [reflexivity|].
  cbn [app]. rewrite !count_cons, IH. lia.
Qed.

Ltac count_calls := rewrite ?count_app, ?count_cons, ?count_nil; cbn; try lia.

Lemma acceptor_handler_run ev ctx w s :
  RequestType ev = "Create" →
  ∃ st reason t s',
    ResourceShareAcceptor.handler ev ctx w s = (inr (responseBody w ev ctx st None reason), s') ∧
    calls_since s s' = t ∧ stderr s' = stderr s ∧
    (t = [] ∧ st = "FAILED" ∨
     ∃ r, split ":" (ToString (ResourceShareArn (ResourceProperties ev))) !! 3 = Some r ∧
          test regionRegex r = true ∧
          AcceptorRun ev (Some r) st t).
Proof.
  intros Hc. destruct (acceptor_run ev ctx w s) as (st & reason & t & Hrun & Hshape).
  exists st, reason, t. eexists. split; [|split; [|split; [|exact Hshape]]].
  - exact (acceptor_handler_create _ _ _ _ _ _ Hc Hrun).
  - apply calls_since_app.
  - reflexivity.
Qed.

(** X1.  In every run of a Create request of ResourceShareAcceptor at most
    one accept call is issued.  When one is issued, the run consists of
    the lookup of the invitations of the share and that accept call, sent
    to the same client; the lookup returned a first invitation in state
    PENDING, and the accept call names the invitation ARN of that first
    invitation, which is not empty.  No other invitation is ever
    accepted. *)
Theorem accept_call_is_for_the_first_pending_invitation ev ctx w s :
  RequestType ev = "Create" →
  ∃ body s',
    ResourceShareAcceptor.handler ev ctx w s = (inr body, s') ∧
    (count is_accept (calls_since s s') ≤ 1)%nat ∧
    ∀ client inviteArn answer,
      ((client, AcceptResourceShareInvitationCommand inviteArn), answer) ∈ calls_since s s' →
      ∃ inv others,
        calls_since s s'
        = [((client, GetResourceShareInvitationsCommand
                       [ResourceShareArn (ResourceProperties ev)]),
            GetResourceShareInvitationsResponse (inv :: others));
           ((client, AcceptResourceShareInvitationCommand inviteArn), answer)] ∧
        status inv = Some "PENDING" ∧
        resourceShareInvitationArn inv = inviteArn ∧
        truthy inviteArn = true.
Proof.
  intros Hc.
  destruct (acceptor_handler_run ev ctx w s Hc) as (st & reason & t & s' & Hrun & Ht & _ & Hshape).
  eexists _, s'. split; [exact Hrun|]. rewrite Ht. clear Ht Hrun.
  destruct Hshape as [[-> _]|(r & _ & _ & Hshape)].
  { split; [count_calls|]. intros ? ? ? Hin. by apply elem_of_nil in Hin. }
  destruct Hshape as [a1 Ha1|inv others st Hfound Hp Hst|inv others a2 st Hfound Hp Hst
                     |invitations a2 st Hnone Hst].
  - split; [count_calls|]. intros ? ? ? Hin. set_unfold in Hin. destruct_or?; by simplify_eq.
  - split; [count_calls|]. intros ? ? ? Hin. set_unfold in Hin. destruct_or?; by simplify_eq.
  - split; [count_calls|]. intros ? ? ? Hin. set_unfold in Hin. destruct_or?; simplify_eq.
    by exists inv, others.
  - split; [count_calls|]. intros ? ? ? Hin. set_unfold in Hin. destruct_or?; by simplify_eq.
Qed.

Lemma accept_call_witness :
  ∃ body s',
    ResourceShareAcceptor.handler (Scenario.createRequest (PArray [])) Scenario.context
      (Scenario.account [Scenario.invitation "PENDING"]) Scenario.fresh = (inr body, s') ∧
    (count is_accept (calls_since Scenario.fresh s') ≤ 1)%nat ∧
    ∀ client inviteArn answer,
      ((client, AcceptResourceShareInvitationCommand inviteArn), answer)
        ∈ calls_since Scenario.fresh s' →
      ∃ inv others,
        calls_since Scenario.fresh s'
        = [((client, GetResourceShareInvitationsCommand
                       [ResourceShareArn (ResourceProperties (Scenario.createRequest (PArray [])))]),
            GetResourceShareInvitationsResponse (inv :: others));
           ((client, AcceptResourceShareInvitationCommand inviteArn), answer)] ∧
        status inv = Some "PENDING" ∧
        resourceShareInvitationArn inv = inviteArn ∧
        truthy inviteArn = true.
Proof.
  exact (accept_call_is_for_the_first_pending_invitation (Scenario.createRequest (PArray []))
           Scenario.context (Scenario.account [Scenario.invitation "PENDING"]) Scenario.fresh
           eq_refl).
Defined.

(** X2.  A Create request of ResourceShareAcceptor makes at most two
    calls, and every call goes to RAM in the region that is the fourth
    colon-separated field of the share ARN, a field that has the form of a
    region; the region of the Lambda itself plays no part. *)
Theorem acceptor_calls_go_to_the_region_of_the_share ev ctx w s :
  RequestType ev = "Create" →
  ∃ body s',
    ResourceShareAcceptor.handler ev ctx w s = (inr body, s') ∧
    (length (calls_since s s') ≤ 2)%nat ∧
    ∀ e, e ∈ calls_since s s' →
      ∃ r, split ":" (ToString (ResourceShareArn (ResourceProperties ev))) !! 3 = Some r ∧
           test regionRegex r = true ∧
           e.1.1 = {| service := RAM; region := Some r |}.
Proof.
  intros Hc.
  destruct (acceptor_handler_run ev ctx w s Hc) as (st & reason & t & s' & Hrun & Ht & _ & Hshape).
  eexists _, s'. split; [exact Hrun|]. rewrite Ht. clear Ht Hrun.
  destruct Hshape as [[-> _]|(r & Hfield & Hregion & Hshape)].
  { split; [cbn; lia|]. intros ? Hin. by apply elem_of_nil in Hin. }
  destruct Hshape; (split; [cbn; lia|]); intros e Hin; exists r; (do 2 (split; [done|]));
    set_unfold in Hin; destruct_or?; by subst e.
Qed.

Lemma acceptor_region_witness :
  ∃ body s',
    ResourceShareAcceptor.handler (Scenario.createRequest (PArray [])) Scenario.context
      (Scenario.account []) Scenario.fresh = (inr body, s') ∧
    (length (calls_since Scenario.fresh s') ≤ 2)%nat ∧
    ∀ e, e ∈ calls_since Scenario.fresh s' →
      ∃ r, split ":" (ToString (ResourceShareArn
                                  (ResourceProperties (Scenario.createRequest (PArray [])))))
             !! 3 = Some r ∧
           test regionRegex r = true ∧
           e.1.1 = {| service := RAM; region := Some r |}.
Proof.
  exact (acceptor_calls_go_to_the_region_of_the_share (Scenario.createRequest (PArray []))
           Scenario.context (Scenario.account []) Scenario.fresh eq_refl).
Defined.

(** X3.  handleInvitation has a branch for each of the four invitation
    states and no branch for anything else.  A Create request whose lookup
    returns a first invitation with an invitation ARN and a status that is
    none of PENDING, EXPIRED, ACCEPTED and REJECTED (a missing status
    included) succeeds, and the lookup is its only call: the invitation is
    not accepted. *)
Theorem unknown_invitation_state_is_a_success ev ctx w s captured inv others :
  let arn := ResourceShareArn (ResourceProperties ev) in
  let ramClient := ResourceShareAcceptor.constructRAMClient (captured !! 1) in
  let lookup := (ramClient, GetResourceShareInvitationsCommand [arn]) in
  RequestType ev = "Create" →
  test RESOURCE_SHARE_ARN_REGEX (ToString arn) = true →
  exec RESOURCE_SHARE_REGION_REGEX (ToString arn) = Some captured →
  test regionRegex (ToString (captured !! 1)) = true →
  respond w (history s) lookup = GetResourceShareInvitationsResponse (inv :: others) →
  truthy (resourceShareInvitationArn inv) = true →
  status inv ∉ [Some "PENDING"; Some "EXPIRED"; Some "ACCEPTED"; Some "REJECTED"] →
  ResourceShareAcceptor.handler ev ctx w s
  = (inr (succeeded w ev ctx),
     {| history := history s ++ [(lookup, GetResourceShareInvitationsResponse (inv :: others))];
        stderr := stderr s |}).
Proof.
  intros arn ramClient lookup Hc Harn Hexec Hregion Hlookup Hfound Hst.
  pose proof (acceptor_found ev ctx w s captured _ Harn Hexec Hregion Hlookup inv others
                eq_refl Hfound) as Hrun.
  apply (acceptor_handler_create _ _ _ _ ("SUCCESS", None) _ Hc).
  rewrite Hrun. unfold ResourceShareAcceptor.handleInvitation.
  rewrite !not_elem_of_cons in Hst. destruct Hst as (Hp & He & Ha & Hr & _).
  rewrite !bool_decide_eq_false_2 by done. reflexivity.
Qed.

Lemma unknown_invitation_state_witness :
  ResourceShareAcceptor.handler (Scenario.createRequest (PArray [])) Scenario.context
    (Scenario.account [Scenario.invitation "REVOKED"]) Scenario.fresh
  = (inr (succeeded (Scenario.account [Scenario.invitation "REVOKED"])
            (Scenario.createRequest (PArray [])) Scenario.context),
     {| history :=
          [((ResourceShareAcceptor.constructRAMClient (Some "us-west-2"),
             GetResourceShareInvitationsCommand [Some Scenario.shareArn]),
            GetResourceShareInvitationsResponse [Scenario.invitation "REVOKED"])];
        stderr := [] |}).
Proof.
  apply (unknown_invitation_state_is_a_success (Scenario.createRequest (PArray []))
           Scenario.context (Scenario.account [Scenario.invitation "REVOKED"]) Scenario.fresh
           Scenario.regionCaptures (Scenario.invitation "REVOKED") []);
    [reflexivity|vm_compute; reflexivity|vm_compute; reflexivity|vm_compute; reflexivity
    |reflexivity|reflexivity|].
  apply (bool_decide_unpack _). vm_compute. exact I.
Defined.

(** * GlueDatabase, every run *)

Lemma database_handler_run ev ctx w s :
  RequestType ev = "Create" →
  ∃ st id reason t s',
    GlueDatabase.handler ev ctx w s = (inr (responseBody w ev ctx st id reason), s') ∧
    calls_since s s' = t ∧ stderr s' = stderr s ∧
    DatabaseRun ev w st id t.
Proof.
  intros Hc. destruct (database_run ev ctx w s) as (st & id & reason & t & Hrun & Hshape).
  exists st, id, reason, t. eexists. split; [|split; [|split; [|exact Hshape]]].
  - exact (database_handler_create _ _ _ _ _ _ Hc Hrun).
  - apply calls_since_app.
  - reflexivity.
Qed.

Lemma elem_of_rev {A} (x : A) l : x ∈ rev l ↔ x ∈ l.
Proof. by rewrite !list_elem_of_In, <- in_rev. Qed.

(** The pieces of a split do not contain the separator. *)
Lemma split_from_pieces sep cur s piece :
  sep ∉ cur → piece ∈ split_from sep cur s → sep ∉ list_ascii_of_string piece.
Proof.
  revert cur. induction s as [|a s IH]; intros cur Hcur Hin; cbn [split_from] in Hin.
  - apply list_elem_of_singleton in Hin as ->. rewrite list_ascii_of_string_of_list_ascii.
    by rewrite elem_of_rev.
  - destruct (Ascii.eqb_spec a sep) as [->|Hne].
    + apply elem_of_cons in Hin as [->|Hin].
      * rewrite list_ascii_of_string_of_list_ascii.
        by rewrite elem_of_rev.
      * apply (IH [] (not_elem_of_nil _) Hin).
    + apply (IH (a :: cur)); [|exact Hin]. rewrite not_elem_of_cons. by split.
Qed.

Lemma split_pieces sep s piece :
  piece ∈ split sep s → sep ∉ list_ascii_of_string piece.
Proof. apply split_from_pieces, not_elem_of_nil. Qed.

(** The characters of a piece of a split are characters of the input. *)
Lemma split_from_chars sep cur s piece c :
  piece ∈ split_from sep cur s → c ∈ list_ascii_of_string piece → c ∈ cur ∨ c ∈ s.
Proof.
  revert cur. induction s as [|a s IH]; intros cur Hin Hc; cbn [split_from] in Hin.
  - apply list_elem_of_singleton in Hin as ->. rewrite list_ascii_of_string_of_list_ascii in Hc.
    left. by apply elem_of_rev.
  - destruct (Ascii.eqb_spec a sep) as [->|Hne].
    + apply elem_of_cons in Hin as [->|Hin].
      * rewrite list_ascii_of_string_of_list_ascii in Hc. left. by apply elem_of_rev.
      * destruct (IH [] Hin Hc) as [Hnil|Hs]; [by apply elem_of_nil in Hnil|].
        right. by right.
    + destruct (IH (a :: cur) Hin Hc) as [Hcur|Hs].
      * apply elem_of_cons in Hcur as [->|Hcur]; [right; by left|by left].
      * right. by right.
Qed.

Lemma split_chars sep s piece c :
  piece ∈ split sep s → c ∈ list_ascii_of_string piece → c ∈ list_ascii_of_string s.
Proof.
  intros Hin Hc. destruct (split_from_chars _ _ _ _ _ Hin Hc) as [Hnil|Hs]; [|exact Hs].
  by apply elem_of_nil in Hnil.
Qed.

(** X4.  In every run of a Create request of GlueDatabase at most one
    database is created.  When a CreateDatabase call is issued, it goes to
    Glue in the region of the Lambda, after the one listing of the share,
    and it creates a resource link: the name of the local database is the
    name of the target database, taken from the ARN of the first resource
    listed (the second slash-separated piece of its sixth colon-separated
    field, so a name without colon or slash), and the target catalog is the
    account field of that ARN. *)
Theorem database_is_created_once_under_its_shared_name ev ctx w s :
  RequestType ev = "Create" →
  ∃ body s',
    GlueDatabase.handler ev ctx w s = (inr body, s') ∧
    (count is_create_database (calls_since s s') ≤ 1)%nat ∧
    ∀ client name catalog target answer,
      ((client, CreateDatabaseCommand name catalog target), answer) ∈ calls_since s s' →
      client = {| service := Glue; region := AWS_REGION w |} ∧
      target = name ∧
      ∃ first others databaseArn account part,
        calls_since s s'
        = [(({| service := RAM; region := AWS_REGION w |},
             ListResourcesCommand "OTHER-ACCOUNTS" [ResourceShareArn (ResourceProperties ev)]
               (Some "glue:database")),
            ListResourcesResponse (first :: others));
           ((client, CreateDatabaseCommand name catalog target), answer)] ∧
        arn first = Some databaseArn ∧
        split ":" databaseArn !! 4 = Some account ∧ catalog = Some account ∧
        split ":" databaseArn !! 5 = Some part ∧ name = split "/" part !! 1 ∧
        ∀ n, name = Some n →
             (":"%char ∉ list_ascii_of_string n) ∧ ("/"%char ∉ list_ascii_of_string n).
Proof.
  intros Hc.
  destruct (database_handler_run ev ctx w s Hc)
    as (st & id & reason & t & s' & Hrun & Ht & _ & Hshape).
  eexists _, s'. split; [exact Hrun|]. rewrite Ht. clear Ht Hrun.
  destruct Hshape as [|a1|first others databaseArn part a2 st id Hfirst Hpattern Hpart Hst].
  - split; [count_calls|]. intros ? ? ? ? ? Hin. by apply elem_of_nil in Hin.
  - split; [count_calls|]. intros ? ? ? ? ? Hin. set_unfold in Hin. destruct_or?; by simplify_eq.
  - split; [count_calls|]. intros ? ? ? ? ? Hin. set_unfold in Hin. destruct_or?; simplify_eq.
    do 2 (split; [reflexivity|]).
    destruct (lookup_lt_is_Some_2 (split ":" databaseArn) 4) as [account Hacc].
    { apply lookup_lt_Some in Hpart. lia. }
    exists first, others, databaseArn, account, part.
    do 5 (split; [done|]). split; [reflexivity|].
    intros n Hn. apply list_elem_of_lookup_2 in Hn. split.
    + intros Hcolon. apply (split_chars _ _ _ _ Hn) in Hcolon.
      apply list_elem_of_lookup_2 in Hpart. by apply split_pieces in Hpart.
    + by apply split_pieces in Hn.
Qed.

Lemma database_created_witness :
  ∃ body s',
    GlueDatabase.handler (Scenario.createRequest (PArray [])) Scenario.context
      (Scenario.account []) Scenario.fresh = (inr body, s') ∧
    (count is_create_database (calls_since Scenario.fresh s') ≤ 1)%nat ∧
    ∀ client name catalog target answer,
      ((client, CreateDatabaseCommand name catalog target), answer)
        ∈ calls_since Scenario.fresh s' →
      client = {| service := Glue; region := AWS_REGION (Scenario.account []) |} ∧
      target = name ∧
      ∃ first others databaseArn account part,
        calls_since Scenario.fresh s'
        = [(({| service := RAM; region := AWS_REGION (Scenario.account []) |},
             ListResourcesCommand "OTHER-ACCOUNTS"
               [ResourceShareArn (ResourceProperties (Scenario.createRequest (PArray [])))]
               (Some "glue:database")),
            ListResourcesResponse (first :: others));
           ((client, CreateDatabaseCommand name catalog target), answer)] ∧
        arn first = Some databaseArn ∧
        split ":" databaseArn !! 4 = Some account ∧ catalog = Some account ∧
        split ":" databaseArn !! 5 = Some part ∧ name = split "/" part !! 1 ∧
        ∀ n, name = Some n →
             (":"%char ∉ list_ascii_of_string n) ∧ ("/"%char ∉ list_ascii_of_string n).
Proof.
  exact (database_is_created_once_under_its_shared_name (Scenario.createRequest (PArray []))
           Scenario.context (Scenario.account []) Scenario.fresh eq_refl).
Defined.

(** X5.  A Create request of GlueDatabase reports SUCCESS only when its
    last call is a CreateDatabase call that Glue accepted or rejected with
    AlreadyExistsException; the physical resource id it returns is then
    the name given to that call (the log stream name when the name is
    undefined).  A run that reports FAILED returns the log stream name as
    physical resource id. *)
Theorem database_physical_id_is_the_created_name ev ctx w s :
  RequestType ev = "Create" →
  ∃ body s',
    GlueDatabase.handler ev ctx w s = (inr body, s') ∧
    (Status body = "SUCCESS" ∨ Status body = "FAILED") ∧
    (Status body = "FAILED" → PhysicalId body = logStreamName ctx) ∧
    (Status body = "SUCCESS" →
       ∃ before client name catalog answer,
         calls_since s s'
         = before ++ [((client, CreateDatabaseCommand name catalog name), answer)] ∧
         (rejected answer = false ∨ ∃ m, answer = Rejected "AlreadyExistsException" m) ∧
         PhysicalId body = default (logStreamName ctx) name).
Proof.
  intros Hc.
  destruct (database_handler_run ev ctx w s Hc)
    as (st & id & reason & t & s' & Hrun & Ht & _ & Hshape).
  eexists _, s'. split; [exact Hrun|]. rewrite Ht. clear Ht Hrun.
  cbn [Status PhysicalId responseBody].
  destruct Hshape as [|a1|first others databaseArn part a2 st id Hfirst Hpattern Hpart Hst].
  - split; [by right|]. split; [done|]. intros Hs; discriminate Hs.
  - split; [by right|]. split; [done|]. intros Hs; discriminate Hs.
  - destruct a2 as [n m| | | | |]; try (injection Hst as -> ->; split; [by left|];
      split; [intros Hs; discriminate Hs|]; intros _;
      eexists [_], _, _, _, _; split; [reflexivity|]; split; [by left|reflexivity]).
    destruct (String.eqb_spec n "AlreadyExistsException") as [->|Hn]; injection Hst as -> ->.
    + split; [by left|]. split; [intros Hs; discriminate Hs|]. intros _.
      eexists [_], _, _, _, _. split; [reflexivity|]. split; [right; by eexists|reflexivity].
    + split; [by right|]. split; [done|]. intros Hs; discriminate Hs.
Qed.

Lemma database_physical_id_witness :
  ∃ body s',
    GlueDatabase.handler (Scenario.createRequest (PArray [])) Scenario.context
      (Scenario.account []) Scenario.fresh = (inr body, s') ∧
    (Status body = "SUCCESS" ∨ Status body = "FAILED") ∧
    (Status body = "FAILED" → PhysicalId body = logStreamName Scenario.context) ∧
    (Status body = "SUCCESS" →
       ∃ before client name catalog answer,
         calls_since Scenario.fresh s'
         = before ++ [((client, CreateDatabaseCommand name catalog name), answer)] ∧
         (rejected answer = false ∨ ∃ m, answer = Rejected "AlreadyExistsException" m) ∧
         PhysicalId body = default (logStreamName Scenario.context) name).
Proof.
  exact (database_physical_id_is_the_created_name (Scenario.createRequest (PArray []))
           Scenario.context (Scenario.account []) Scenario.fresh eq_refl).
Defined.

(** X6.  When the share lists no Glue database, a Create request of
    GlueDatabase fails with the error that no resource was found; the
    listing is its only call, so nothing is created. *)
Theorem share_without_database_creates_nothing ev ctx w s :
  let listing :=
    ({| service := RAM; region := AWS_REGION w |},
     ListResourcesCommand "OTHER-ACCOUNTS" [ResourceShareArn (ResourceProperties ev)]
       (Some "glue:database")) in
  RequestType ev = "Create" →
  test RESOURCE_SHARE_ARN_REGEX (ToString (ResourceShareArn (ResourceProperties ev))) = true →
  respond w (history s) listing = ListResourcesResponse [] →
  GlueDatabase.handler ev ctx w s
  = (inr (failed w ev ctx (Error "Found no resources associated with resource share ARN.")),
     {| history := history s ++ [(listing, ListResourcesResponse [])]; stderr := stderr s |}).
Proof.
  intros listing Hc Harn Hlist.
  apply (database_handler_create _ _ _ _
           ("FAILED", None,
            Some (Caught (Error "Found no resources associated with resource share ARN."))) _ Hc).
  unfold GlueDatabase.startCreate. unfold bind at 1. unfold process_env_AWS_REGION at 1.
  unfold try_catch, bind at 1.
  unfold GlueDatabase.getResourceShareArn, GlueDatabase.validateResourceShareArn.
  unfold bind at 1. rewrite Harn. monad.
  unfold GlueDatabase.getSharedGlueDatabaseArn, send. unfold bind at 1. unfold bind at 1.
  fold listing. rewrite Hlist. reflexivity.
Qed.

Lemma share_without_database_witness :
  GlueDatabase.handler (Scenario.createRequest (PArray [])) Scenario.context
    {| respond := fun _ _ => ListResourcesResponse []; AWS_REGION := Some "us-west-2" |}
    Scenario.fresh
  = (inr (failed {| respond := fun _ _ => ListResourcesResponse [];
                    AWS_REGION := Some "us-west-2" |}
            (Scenario.createRequest (PArray [])) Scenario.context
            (Error "Found no resources associated with resource share ARN.")),
     {| history :=
          [(({| service := RAM; region := Some "us-west-2" |},
             ListResourcesCommand "OTHER-ACCOUNTS" [Some Scenario.shareArn]
               (Some "glue:database")),
            ListResourcesResponse [])];
        stderr := [] |}).
Proof.
  apply (share_without_database_creates_nothing (Scenario.createRequest (PArray []))
           Scenario.context
           {| respond := fun _ _ => ListResourcesResponse []; AWS_REGION := Some "us-west-2" |}
           Scenario.fresh); [reflexivity|vm_compute; reflexivity|reflexivity].
Defined.

(** * What the parsers return *)

(** X7.  getAccountId either throws the error that the account id could
    not be parsed, or returns a string of exactly twelve decimal digits,
    which is the fifth colon-separated field of the stack id.  It changes
    nothing and makes no call. *)
Theorem account_id_is_the_fifth_field_of_the_stack_id stackId w s :
  GlueTables.getAccountId stackId w s
  = (inl (Error "Could not parse account id from stack ID."), s) ∨
  ∃ id,
    GlueTables.getAccountId stackId w s = (inr (Some id), s) ∧
    String.length id = 12 ∧
    Forall (fun a => digit a = true) (list_ascii_of_string id) ∧
    split ":" (ToString stackId) !! 4 = Some id.
Proof.
  unfold GlueTables.getAccountId.
  destruct (exec ACCOUNT_ID_FROM_STACK_REGEX _) as [captured|] eqn:Hexec; [|by left].
  right. destruct (account_id_field _ _ Hexec) as (id & Hid & Hlen & Hdigits & Hfield).
  exists id. by rewrite Hid.
Qed.

(** X8.  getResourceShareRegion, which ResourceShareAcceptor and
    SsmParameters both define, either throws the error that the region
    could not be parsed, or finds the fourth colon-separated field of the
    share ARN, which is not empty: it returns that field when it has the
    form of a region, and throws the error naming it as an invalid region
    otherwise. *)
Theorem share_region_is_the_fourth_field_of_the_arn arn w s :
  let run := ResourceShareAcceptor.getResourceShareRegion arn w s in
  SsmParameters.getResourceShareRegion arn w s = run ∧
  (run = (inl (Error "Could not parse region from resource share arn."), s) ∨
   ∃ r, split ":" (ToString arn) !! 3 = Some r ∧ r ≠ EmptyString ∧
        run = (if test regionRegex r then inr (Some r)
               else inl (Error ("Invalid region: " +:+ r +:+ ".")), s)).
Proof.
  intros run. split; [reflexivity|]. unfold run.
  unfold ResourceShareAcceptor.getResourceShareRegion, ResourceShareAcceptor.validateRegion.
  destruct (exec RESOURCE_SHARE_REGION_REGEX _) as [captured|] eqn:Hexec; [|by left].
  right. destruct (region_field _ _ Hexec) as (r & Hr & Hne & Hfield).
  exists r. do 2 (split; [done|]). rewrite Hr. cbn [ToString]. unfold bind.
  by destruct (test regionRegex r).
Qed.

(** X9.  When getDatabaseName of GlueTables or of SsmParameters returns,
    it made one call, the listing of the Glue databases of the share, which
    answered with a list whose first resource has an ARN; the name returned
    is not empty and is everything that follows [:database/] in that ARN,
    after five colon-separated fields (arn, partition, glue, region,
    account). *)
Theorem database_name_is_the_tail_of_the_arn ram shareArn w s name s' :
  GlueTables.getDatabaseName ram shareArn w s = (inr name, s') →
  SsmParameters.getDatabaseName ram shareArn w s = (inr name, s') ∧
  ∃ first others head n,
    history s'
    = history s ++ [((ram, ListResourcesCommand "OTHER-ACCOUNTS" [shareArn] (Some "glue:database")),
                     ListResourcesResponse (first :: others))] ∧
    arn first = Some (head +:+ ":database/" +:+ n) ∧
    length (split ":" head) = 5 ∧
    name = Some n ∧ n ≠ EmptyString.
Proof.
  intros Hrun. split; [exact Hrun|]. revert Hrun.
  unfold GlueTables.getDatabaseName, GlueTables.getDatabaseNameArn.
  unfold bind at 1. unfold bind at 1.
  destruct (send_run ram (ListResourcesCommand "OTHER-ACCOUNTS" [shareArn] (Some "glue:database")) w s)
    as (x & -> & Hx & _).
  set (a1 := respond w (history s) _) in *. clearbody a1.
  destruct x as [e|r1]; [done|]. specialize (Hx r1 eq_refl). subst r1. monad.
  destruct a1 as [?|[|first others]| | | |]; cbn [resources_of length Nat.eqb head]; monad;
    try done.
  destruct (exec DATABASE_NAME_CAPTURE_REGEX _) as [captured|] eqn:Hexec; [|done].
  intros [= <- <-].
  destruct (database_name_capture _ _ Hexec) as (X & R & A & N & Hs & HX & HR & HA & HN & Hne & Hcap).
  apply string_of_list_eq in Hs.
  exists first, others,
    (string_of_list_ascii (list_ascii_of_string "arn:aws" ++ X ++ ":"%char
                             :: list_ascii_of_string "glue:" ++ R ++ ":"%char :: A)),
    (string_of_list_ascii N).
  split; [reflexivity|]. split; [|split; [|split; [exact Hcap|by destruct N]]].
  - destruct (arn first) as [databaseArn|] eqn:Hfirst.
    + cbn [ToString] in Hs. rewrite Hs. f_equal.
      rewrite <- (string_of_list_ascii_of_string ":database/").
      rewrite <- !string_of_list_ascii_app. f_equal.
      rewrite <- !app_assoc. cbn [app]. by rewrite <- !app_assoc.
    + exfalso. cbn [ToString] in Hexec. vm_compute in Hexec. discriminate Hexec.
  - change (list_ascii_of_string "arn:aws" ++ X ++ ":"%char :: list_ascii_of_string "glue:"
              ++ R ++ ":"%char :: A)
      with (list_ascii_of_string "arn" ++ ":"%char :: (list_ascii_of_string "aws" ++ X)
              ++ ":"%char :: list_ascii_of_string "glue" ++ ":"%char :: R ++ ":"%char :: A).
    assert (HcX : ":"%char ∉ list_ascii_of_string "aws" ++ X).
    { rewrite not_elem_of_app. split; [not_in_literal|by_class]. }
    rewrite split_app by not_in_literal.
    rewrite split_app by exact HcX.
    rewrite split_app by not_in_literal.
    rewrite split_app by by_class.
    rewrite split_end by by_class.
    reflexivity.
Qed.

Lemma database_name_witness :
  ∃ first others head n,
    history (GlueTables.getDatabaseName {| service := RAM; region := Some "us-west-2" |}
               (Some Scenario.shareArn) (Scenario.account []) Scenario.fresh).2
    = [(({| service := RAM; region := Some "us-west-2" |},
         ListResourcesCommand "OTHER-ACCOUNTS" [Some Scenario.shareArn] (Some "glue:database")),
        ListResourcesResponse (first :: others))] ∧
    arn first = Some (head +:+ ":database/" +:+ n) ∧
    length (split ":" head) = 5 ∧
    Some "shared_db" = Some n ∧ n ≠ EmptyString.
Proof.
  apply (database_name_is_the_tail_of_the_arn {| service := RAM; region := Some "us-west-2" |}
           (Some Scenario.shareArn) (Scenario.account []) Scenario.fresh (Some "shared_db")).
  vm_compute. reflexivity.
Defined.

(** X10.  getAthenaResultBucket accepts the AthenaResultsBucket property
    exactly when its string form has between 3 and 63 characters, each a
    lower-case letter, a digit or a hyphen, the first and the last not a
    hyphen; it then returns the property as it is.  Any other value is
    refused with the error "Invalid bucket name.".  No call is made. *)
Theorem bucket_name_is_checked_against_the_naming_rule ev w s :
  let bucketName := AthenaResultsBucket (ResourceProperties ev) in
  let wellFormed :=
    ∃ a mid z,
      list_ascii_of_string (ToString bucketName) = a :: mid ++ [z] ∧
      lower a || digit a = true ∧ lower z || digit z = true ∧
      Forall (fun c => lower c || digit c || chr "-" c = true) mid ∧
      (1 ≤ length mid ≤ 61)%nat in
  (wellFormed ∧ SsmParameters.getAthenaResultBucket ev w s = (inr bucketName, s)) ∨
  (¬ wellFormed ∧
   SsmParameters.getAthenaResultBucket ev w s = (inl (Error "Invalid bucket name."), s)).
Proof.
  intros bucketName wellFormed. unfold SsmParameters.getAthenaResultBucket. fold bucketName.
  destruct (test bucketRegex (ToString bucketName)) eqn:Htest.
  - left. split; [by apply test_bucketRegex|reflexivity].
  - right. split; [|reflexivity]. intros Hw. apply test_bucketRegex in Hw. congruence.
Qed.

(** X11.  The four properties of a Create request of SsmParameters are
    validated through their string form, and a missing property reads as
    the string "undefined".  A missing AthenaResultsBucket passes the
    bucket pattern and a missing StackId passes the stack id pattern, so
    both are returned as undefined without an error; a missing DTRegion and
    a missing ResourceShareArn are refused. *)
Theorem missing_bucket_and_stack_id_pass_validation ev w s :
  (AthenaResultsBucket (ResourceProperties ev) = None →
     SsmParameters.getAthenaResultBucket ev w s = (inr None, s)) ∧
  (StackIdProperty (ResourceProperties ev) = None →
     SsmParameters.getStackId ev w s = (inr None, s)) ∧
  (DTRegion (ResourceProperties ev) = None →
     SsmParameters.getDTRegion ev w s = (inl (Error "Invalid region: undefined."), s)) ∧
  (ResourceShareArn (ResourceProperties ev) = None →
     SsmParameters.getResourceShareArn ev w s = (inl (Error "Invalid ResourceShareArn."), s)).
Proof.
  repeat split; intros Hnone.
  - unfold SsmParameters.getAthenaResultBucket. rewrite Hnone.
    by replace (test bucketRegex (ToString None)) with true by (vm_compute; reflexivity).
  - unfold SsmParameters.getStackId. rewrite Hnone.
    by replace (test stackIdRegex (ToString None)) with true by (vm_compute; reflexivity).
  - rewrite getDTRegion_run, Hnone.
    by replace (test regionRegex (ToString None)) with false by (vm_compute; reflexivity).
  - unfold SsmParameters.getResourceShareArn, SsmParameters.validateResourceShareArn, bind.
    rewrite Hnone.
    by replace (test RESOURCE_SHARE_ARN_REGEX (ToString None)) with false
      by (vm_compute; reflexivity).
Qed.

(** ** The name GlueDatabase creates and the name the others read *)

Lemma first_separator (sep : ascii) (l : list ascii) :
  sep ∉ l ∨ ∃ l1 l2, l = l1 ++ sep :: l2 ∧ sep ∉ l1.
Proof.
  induction l as [|a l IH]; [left; apply not_elem_of_nil|].
  destruct (Ascii.eqb_spec a sep) as [->|Hne].
  - right. exists [], l. split; [reflexivity|apply not_elem_of_nil].
  - destruct IH as [Hl|(l1 & l2 & -> & Hl1)].
    + left. rewrite not_elem_of_cons. by split.
    + right. exists (a :: l1), l2. split; [reflexivity|]. rewrite not_elem_of_cons. by split.
Qed.

(** The second piece of ["database/" ++ c], split at slashes, is [c] cut
    at its first slash. *)
Lemma split_database_part (c : list ascii) :
  ∃ n rest,
    c = n ++ rest ∧ ("/"%char ∉ n) ∧ (rest = [] ∨ head rest = Some "/"%char) ∧
    split "/" (string_of_list_ascii (list_ascii_of_string "database/" ++ c)) !! 1
    = Some (string_of_list_ascii n).
Proof.
  change (list_ascii_of_string "database/" ++ c)
    with (list_ascii_of_string "database" ++ "/"%char :: c).
  rewrite split_app by not_in_literal.
  destruct (first_separator "/" c) as [Hc|(n & rest & -> & Hn)].
  - exists c, []. rewrite app_nil_r. do 2 (split; [done|]). split; [by left|].
    by rewrite split_end.
  - exists n, ("/"%char :: rest). do 2 (split; [done|]). split; [by right|].
    by rewrite split_app.
Qed.

(** X12.  GlueDatabase takes the name of the database from the ARN by
    splitting it, the other handlers by the capture pattern.  On an ARN
    that the capture pattern parses, whenever getDatabaseArnParts returns,
    the account it returns is the fifth field of the ARN and the name it
    returns is the captured name cut at its first colon or slash.  So the
    database that GlueDatabase creates has the name that GlueTables grants
    on and SsmParameters publishes exactly when that name contains neither
    a colon nor a slash. *)
Theorem created_name_is_the_captured_name_cut_at_a_separator
        databaseArn captured w s account name s' :
  exec DATABASE_NAME_CAPTURE_REGEX databaseArn = Some captured →
  GlueDatabase.getDatabaseArnParts (Some databaseArn) w s = (inr (account, name), s') →
  account = split ":" databaseArn !! 4 ∧ is_Some account ∧
  ∃ n tail,
    name = Some n ∧
    captured !! 1 = Some (n +:+ tail) ∧
    (":"%char ∉ list_ascii_of_string n) ∧ ("/"%char ∉ list_ascii_of_string n) ∧
    (tail = EmptyString ∨ String.prefix ":" tail = true ∨ String.prefix "/" tail = true).
Proof.
  intros Hexec Hparts.
  destruct (database_name_capture _ _ Hexec) as (X & R & A & N & Hs & HX & HR & HA & HN & Hne & Hcap).
  apply string_of_list_eq in Hs.
  assert (HcX : ":"%char ∉ list_ascii_of_string "aws" ++ X).
  { rewrite not_elem_of_app. split; [not_in_literal|by_class]. }
  assert (Hfields : ∃ c rest,
    N = c ++ rest ∧ (":"%char ∉ c) ∧ (rest = [] ∨ head rest = Some ":"%char) ∧
    split ":" databaseArn !! 4 = Some (string_of_list_ascii A) ∧
    split ":" databaseArn !! 5
    = Some (string_of_list_ascii (list_ascii_of_string "database/" ++ c))).
  { rewrite Hs.
    destruct (first_separator ":" N) as [HcN|(c & rest & HN' & Hc)].
    - exists N, []. rewrite app_nil_r. do 2 (split; [done|]). split; [by left|].
      change (list_ascii_of_string "arn:aws" ++ X ++ ":"%char :: list_ascii_of_string "glue:"
                ++ R ++ ":"%char :: A ++ list_ascii_of_string ":database/" ++ N)
        with (list_ascii_of_string "arn" ++ ":"%char :: (list_ascii_of_string "aws" ++ X)
                ++ ":"%char :: list_ascii_of_string "glue" ++ ":"%char :: R ++ ":"%char :: A
                ++ ":"%char :: (list_ascii_of_string "database/" ++ N)).
      rewrite split_app by not_in_literal.
      rewrite split_app by exact HcX.
      rewrite split_app by not_in_literal.
      rewrite split_app by by_class.
      rewrite split_app by by_class.
      rewrite split_end; [done|].
      rewrite not_elem_of_app. split; [not_in_literal|done].
    - exists c, (":"%char :: rest). do 2 (split; [done|]). split; [by right|].
      rewrite HN'.
      change (list_ascii_of_string "arn:aws" ++ X ++ ":"%char :: list_ascii_of_string "glue:"
                ++ R ++ ":"%char :: A ++ list_ascii_of_string ":database/"
                ++ c ++ ":"%char :: rest)
        with (list_ascii_of_string "arn" ++ ":"%char :: (list_ascii_of_string "aws" ++ X)
                ++ ":"%char :: list_ascii_of_string "glue" ++ ":"%char :: R ++ ":"%char :: A
                ++ ":"%char :: list_ascii_of_string "database/" ++ c ++ ":"%char :: rest).
      rewrite split_app by not_in_literal.
      rewrite split_app by exact HcX.
      rewrite split_app by not_in_literal.
      rewrite split_app by by_class.
      rewrite split_app by by_class.
      rewrite app_assoc, split_app; [done|].
      rewrite not_elem_of_app. split; [not_in_literal|done]. }
  destruct Hfields as (c & rest & HN' & Hc & Hrest & H4 & H5).
  destruct (split_database_part c) as (n & rest' & Hcn & Hn & Hrest' & Hname).
  revert Hparts. unfold GlueDatabase.getDatabaseArnParts. cbn [ToString].
  destruct (test glueDatabaseRegex databaseArn); monad; [|done].
  rewrite H4, H5. rewrite Hname. intros [= <- <- <-].
  split; [reflexivity|]. split; [by eexists|].
  exists (string_of_list_ascii n), (string_of_list_ascii (rest' ++ rest)).
  split; [reflexivity|]. split.
  { rewrite Hcap, HN', Hcn, <- string_of_list_ascii_app, <- app_assoc. reflexivity. }
  rewrite list_ascii_of_string_of_list_ascii.
  split.
  { intros Hin. apply Hc. rewrite Hcn, elem_of_app. by left. }
  split; [exact Hn|].
  destruct Hrest' as [->|Hslash].
  - cbn [app]. destruct Hrest as [->|Hcolon]; [by left|].
    right; left. destruct rest as [|b rest]; [done|]. injection Hcolon as ->.
    apply (prefix_append ":" (string_of_list_ascii rest)).
  - right; right. destruct rest' as [|b rest']; [done|]. injection Hslash as ->.
    apply (prefix_append "/" (string_of_list_ascii (rest' ++ rest))).
Qed.

Lemma created_name_witness :
  Some "222222222222" = split ":" "arn:aws:glue:us-west-2:222222222222:database/shared_db" !! 4 ∧
  is_Some (Some "222222222222") ∧
  ∃ n tail,
    Some "shared_db" = Some n ∧
    ({[ 1 := "shared_db" ]} : gmap nat string) !! 1 = Some (n +:+ tail) ∧
    (":"%char ∉ list_ascii_of_string n) ∧ ("/"%char ∉ list_ascii_of_string n) ∧
    (tail = EmptyString ∨ String.prefix ":" tail = true ∨ String.prefix "/" tail = true).
Proof.
  apply (created_name_is_the_captured_name_cut_at_a_separator
           "arn:aws:glue:us-west-2:222222222222:database/shared_db" {[ 1 := "shared_db" ]}
           (Scenario.account []) Scenario.fresh (Some "222222222222") (Some "shared_db")
           Scenario.fresh); vm_compute; reflexivity.
Defined.

(** * Code that stops at the first rejected call *)

Lemma failfast_pure {A} (m : M A) :
  (∀ w s, ∃ x, m w s = (x, s)) → failfast m.
Proof.
  intros Hm w s. destruct (Hm w s) as [x ->]. exists x, [], [].
  rewrite !app_nil_r. split; [by destruct s|]. left. constructor.
Qed.

Lemma failfast_ret {A} (a : A) : failfast (ret a).
Proof. apply failfast_pure. intros w s. by eexists. Qed.

Lemma failfast_throw {A} e : failfast (@throw A e).
Proof. apply failfast_pure. intros w s. by eexists. Qed.

Lemma failfast_send client command : failfast (send client command).
Proof.
  intros w s. destruct (send_run client command w s) as (x & -> & Hx & Hrej).
  exists x, [((client, command), respond w (history s) (client, command))], [].
  rewrite app_nil_r. split; [reflexivity|].
  destruct x as [e|r].
  - destruct Hrej as (n & m & -> & ->). right. exists [], (client, command), n, m.
    split; [reflexivity|]. split; [constructor|reflexivity].
  - left. by repeat constructor.
Qed.

Lemma failfast_bind {A B} (m : M A) (f : A → M B) :
  failfast m → (∀ a, failfast (f a)) → failfast (bind m f).
Proof.
  intros Hm Hf w s. destruct (Hm w s) as (x & t & errs & Hrun & Hstop).
  unfold bind. rewrite Hrun. destruct x as [e|a].
  - exists (inl e), t, errs. split; [reflexivity|].
    destruct Hstop as [Hclean|(t0 & req & n & m0 & -> & Hclean & [= ->])]; [by left|].
    right. by exists t0, req, n, m0.
  - destruct Hstop as [Hclean|(t0 & req & n & m0 & _ & _ & Hx)]; [|discriminate Hx].
    destruct (Hf a w {| history := history s ++ t; stderr := stderr s ++ errs |})
      as (x' & t' & errs' & Hrun' & Hstop').
    cbn [history stderr] in Hrun'. rewrite <- !app_assoc in Hrun'.
    exists x', (t ++ t'), (errs ++ errs'). split; [exact Hrun'|].
    destruct Hstop' as [Hclean'|(t0 & req & n & m0 & -> & Hclean' & ->)].
    + left. by apply Forall_app.
    + right. exists (t ++ t0), req, n, m0. rewrite app_assoc. split; [reflexivity|].
      split; [by apply Forall_app|reflexivity].
Qed.

Lemma failfast_for_of {A} (l : list A) (body : A → M unit) :
  (∀ a, failfast (body a)) → failfast (for_of l body).
Proof.
  intros Hbody. induction l as [|a l IH]; cbn [for_of]; [apply failfast_ret|].
  apply failfast_bind; [apply Hbody|intros _; exact IH].
Qed.

Lemma failfast_deref {A} (o : option A) : failfast (deref o).
Proof. destruct o; [apply failfast_ret|apply failfast_throw]. Qed.

(** The create path of GlueTables, before its exception handler. *)
Lemma tables_body_failfast ev :
  failfast
    (resourceShareArn <- GlueTables.getResourceShareArn ev ;;
     currentRegion <- process_env_AWS_REGION ;;
     let clients := GlueTables.buildClients currentRegion in
     let ramClient := clients.1 in
     let lakeFormationClient := clients.2 in
     lakeformationDataLakePrincipals <- GlueTables.getLakeFormationDataLakePrincipals ev ;;
     databaseName <- GlueTables.getDatabaseName ramClient resourceShareArn ;;
     existingDataLakeSettings <- GlueTables.getLakeFormationDataLakeSettings lakeFormationClient ;;
     newDataLakeSettings <- GlueTables.buildDataLakeSettings existingDataLakeSettings
                              (Some <$> lakeformationDataLakePrincipals) ;;
     currentCallerIdentityArn <- GlueTables.getCurrentCallerIdentityArn ev ;;
     temporaryDataLakeSettings <- GlueTables.buildDataLakeSettings (Some newDataLakeSettings)
                                    [currentCallerIdentityArn] ;;
     GlueTables.setLakeFormationDataLakeSettings lakeFormationClient temporaryDataLakeSettings ;;
     GlueTables.grantLakeFormationPermission lakeFormationClient databaseName
                                  lakeformationDataLakePrincipals ;;
     GlueTables.setLakeFormationDataLakeSettings lakeFormationClient newDataLakeSettings ;;
     ret ("SUCCESS", @None Reason)).
Proof.
  apply failfast_bind.
  { apply failfast_pure. intros w s.
    unfold GlueTables.getResourceShareArn, GlueTables.validateResourceShareArn, bind.
    destruct (negb _); by eexists. }
  intros resourceShareArn. apply failfast_bind.
  { apply failfast_pure. intros w s. by eexists. }
  intros currentRegion. cbv zeta. apply failfast_bind.
  { apply failfast_pure. intros w s.
    unfold GlueTables.getLakeFormationDataLakePrincipals, GlueTables.getAccountId.
    destruct (exec ACCOUNT_ID_FROM_STACK_REGEX _) as [captured|]; monad; [|by eexists].
    unfold GlueTables.validatePrincipals. destruct (negb _); [by eexists|].
    match goal with |- context [for_of ?l _ w s] =>
      destruct (validate_loop l (captured !! 1) w s) as [x ->] end.
    destruct x; by eexists. }
  intros principals. apply failfast_bind.
  { unfold GlueTables.getDatabaseName, GlueTables.getDatabaseNameArn.
    apply failfast_bind; [|intros databaseArn; destruct (exec _ _);
                            [apply failfast_ret|apply failfast_throw]].
    apply failfast_bind; [apply failfast_send|]. intros response.
    apply failfast_bind; [apply failfast_deref|]. intros resources.
    destruct (Nat.eqb _ _); [apply failfast_throw|].
    apply failfast_bind; [apply failfast_deref|intros first; apply failfast_ret]. }
  intros databaseName. apply failfast_bind.
  { unfold GlueTables.getLakeFormationDataLakeSettings.
    apply failfast_bind; [apply failfast_send|intros; apply failfast_ret]. }
  intros existing. apply failfast_bind.
  { apply failfast_pure. intros w s.
    destruct (buildDataLakeSettings_run existing (Some <$> principals) w s) as (x & Hx & _).
    by exists x. }
  intros new. apply failfast_bind; [apply failfast_ret|]. intros caller.
  apply failfast_bind.
  { apply failfast_pure. intros w s.
    destruct (buildDataLakeSettings_run (Some new) [caller] w s) as (x & Hx & _).
    by exists x. }
  intros temporary. apply failfast_bind.
  { unfold GlueTables.setLakeFormationDataLakeSettings.
    apply failfast_bind; [apply failfast_send|intros; apply failfast_ret]. }
  intros _. apply failfast_bind.
  { unfold GlueTables.grantLakeFormationPermission. apply failfast_for_of. intros p.
    apply failfast_bind; [apply failfast_send|intros; apply failfast_ret]. }
  intros _. apply failfast_bind.
  { unfold GlueTables.setLakeFormationDataLakeSettings.
    apply failfast_bind; [apply failfast_send|intros; apply failfast_ret]. }
  intros _. apply failfast_ret.
Qed.

Lemma tables_stops ev ctx w s :
  ∃ x t errs,
    GlueTables.startCreate ev ctx w s
    = (inr (match x with
            | inl e => ("FAILED", Some (Caught e))
            | inr r => r
            end),
       {| history := history s ++ t; stderr := stderr s ++ errs |}) ∧
    stops_at_rejection x t.
Proof.
  destruct (tables_body_failfast ev w s) as (x & t & errs & Hrun & Hstop).
  unfold GlueTables.startCreate, try_catch.
  match goal with |- context [let (_, _) := ?body w s in _] =>
    assert (Heq : body w s = (x, {| history := history s ++ t; stderr := stderr s ++ errs |}))
      by exact Hrun;
    rewrite Heq; clear Heq end.
  destruct x as [e|r].
  - exists (inl e), t, (errs ++ [render e]). rewrite app_assoc. split; [reflexivity|exact Hstop].
  - exists (inr r), t, errs. split; [reflexivity|exact Hstop].
Qed.

(** * GlueTables, more of every run *)

Lemma last_entry {A} (t0 t1 : list A) (e0 e1 : A) :
  t0 ++ [e0] = t1 ++ [e1] → t0 = t1 ∧ e0 = e1.
Proof. intros H. by apply app_inj_tail in H. Qed.

Lemma clean_not_rejected t request n m : clean t → (request, Rejected n m) ∉ t.
Proof.
  intros Hclean Hin. unfold clean in Hclean. rewrite Forall_forall in Hclean.
  specialize (Hclean _ Hin). discriminate Hclean.
Qed.

(** The calls of a run, with its shape and with the place of a rejected
    call. *)
Lemma tables_handler_stops ev ctx w s :
  RequestType ev = "Create" →
  ∃ st reason t s',
    GlueTables.handler ev ctx w s = (inr (responseBody w ev ctx st None reason), s') ∧
    calls_since s s' = t ∧
    TablesRun ev w st t ∧
    (clean t ∨
     ∃ t0 request n m,
       t = t0 ++ [(request, Rejected n m)] ∧ clean t0 ∧
       st = "FAILED" ∧ reason = Some (Caught (ServiceException n m))).
Proof.
  intros Hc.
  destruct (tables_run ev ctx w s) as (st & reason & t & errs & Hrun & Hshape).
  destruct (tables_stops ev ctx w s) as (x & t' & errs' & Hrun' & Hstop).
  rewrite Hrun in Hrun'. injection Hrun' as Hres Ht _. apply app_inv_head in Ht. subst t'.
  exists st, reason, t. eexists. split; [exact (tables_handler_create _ _ _ _ _ _ Hc Hrun)|].
  split; [apply calls_since_app|]. split; [exact Hshape|].
  destruct Hstop as [Hclean|(t0 & request & n & m & -> & Hclean & ->)]; [by left|].
  right. exists t0, request, n, m. injection Hres as -> ->. by repeat split.
Qed.

(** X13.  A Create request of GlueTables stops at the first call that a
    service rejects: the rejected call is the last call of the run, no call
    before it was rejected, and the run fails with that rejection as its
    reason.  In particular, when a grant is rejected the final settings
    are never written: the run has written the settings once, with the
    role of the Lambda among the administrators, and leaves them so. *)
Theorem a_rejected_call_ends_the_run_of_tables ev ctx w s :
  RequestType ev = "Create" →
  ∃ body s',
    GlueTables.handler ev ctx w s = (inr body, s') ∧
    ∀ request n m,
      (request, Rejected n m) ∈ calls_since s s' →
      body = failed w ev ctx (ServiceException n m) ∧
      (∃ before, calls_since s s' = before ++ [(request, Rejected n m)] ∧ clean before) ∧
      (is_grant request.2 = true →
         count is_put_settings (calls_since s s') = 1 ∧
         ∃ client written admins answer,
           ((client, PutDataLakeSettingsCommand written), answer) ∈ calls_since s s' ∧
           written !! "DataLakeAdmins" = Some (Principals admins) ∧
           LambdaRoleArn (ResourceProperties ev) ∈ identifiers admins).
Proof.
  intros Hc.
  destruct (tables_handler_stops ev ctx w s Hc)
    as (st & reason & t & s' & Hrun & Ht & Hshape & Hstop).
  eexists _, s'. split; [exact Hrun|]. rewrite Ht. clear Ht Hrun.
  intros request n m Hin.
  destruct Hstop as [Hclean|(t0 & request' & n' & m' & -> & Hclean & -> & ->)].
  { by apply clean_not_rejected in Hin. }
  apply elem_of_app in Hin as [Hin|Hin]; [by apply clean_not_rejected in Hin|].
  apply list_elem_of_singleton in Hin. injection Hin as <- <- <-.
  split; [reflexivity|]. split; [by exists t0|]. intros Hgrant.
  remember (t0 ++ [(request, Rejected n m)]) as t eqn:Ht.
  destruct Hshape as [|r1|r1 r2|r1 existing admins r3 db k g Hadm Hg
                      |r1 existing admins r3 db g r4 st Hadm Hg Hst'].
  - by destruct t0.
  - apply (last_entry [] t0) in Ht as [_ Ht]. injection Ht as Hreq _. by subst request.
  - change [?a; ?b] with ([a] ++ [b]) in Ht.
    apply last_entry in Ht as [_ Ht]. injection Ht as Hreq _. by subst request.
  - split.
    { count_calls. by rewrite (count_put_grants _ _ _ _ Hg). }
    eexists _, (elevated ev existing admins), _, r3.
    split; [cbn [app]; right; right; left|]. split; [apply lookup_insert_eq|].
    rewrite identifiers_admins_of, elem_of_new_Set, elem_of_app, list_elem_of_singleton.
    by right.
  - rewrite !app_assoc in Ht. apply last_entry in Ht as [_ Ht].
    injection Ht as Hreq _. by subst request.
Qed.

Lemma rejected_call_witness :
  ∃ body s',
    GlueTables.handler (Scenario.createRequest (PArray [Scenario.analyst])) Scenario.context
      {| respond := fun h req =>
           match req.2 with
           | GrantPermissionsCommand _ _ _ => Rejected "AccessDeniedException" "denied"
           | _ => respond (Scenario.account []) h req
           end;
         AWS_REGION := Some "us-west-2" |}
      Scenario.fresh = (inr body, s') ∧
    ∀ request n m,
      (request, Rejected n m) ∈ calls_since Scenario.fresh s' →
      body = failed
               {| respond := fun h req =>
                    match req.2 with
                    | GrantPermissionsCommand _ _ _ => Rejected "AccessDeniedException" "denied"
                    | _ => respond (Scenario.account []) h req
                    end;
                  AWS_REGION := Some "us-west-2" |}
               (Scenario.createRequest (PArray [Scenario.analyst])) Scenario.context
               (ServiceException n m) ∧
      (∃ before, calls_since Scenario.fresh s' = before ++ [(request, Rejected n m)]
                 ∧ clean before) ∧
      (is_grant request.2 = true →
         count is_put_settings (calls_since Scenario.fresh s') = 1 ∧
         ∃ client written admins answer,
           ((client, PutDataLakeSettingsCommand written), answer)
             ∈ calls_since Scenario.fresh s' ∧
           written !! "DataLakeAdmins" = Some (Principals admins) ∧
           LambdaRoleArn (ResourceProperties (Scenario.createRequest (PArray [Scenario.analyst])))
             ∈ identifiers admins).
Proof.
  exact (a_rejected_call_ends_the_run_of_tables
           (Scenario.createRequest (PArray [Scenario.analyst])) Scenario.context
           {| respond := fun h req =>
                match req.2 with
                | GrantPermissionsCommand _ _ _ => Rejected "AccessDeniedException" "denied"
                | _ => respond (Scenario.account []) h req
                end;
              AWS_REGION := Some "us-west-2" |}
           Scenario.fresh eq_refl).
Defined.

(** X14.  buildDataLakeAdmins maps over the DataLakeAdmins field of the
    settings that were read.  When the answer to GetDataLakeSettings has no
    settings, or settings whose DataLakeAdmins field is missing or is not a
    list, the Create request of GlueTables fails after the listing and the
    read: it writes no settings and grants nothing. *)
Theorem settings_without_administrators_are_left_alone ev ctx w s :
  RequestType ev = "Create" →
  ∃ body s',
    GlueTables.handler ev ctx w s = (inr body, s') ∧
    ∀ client answer,
      ((client, GetDataLakeSettingsCommand), answer) ∈ calls_since s s' →
      (∀ admins,
         DataLakeSettings_of answer ≫= (.!! "DataLakeAdmins") ≠ Some (Principals admins)) →
      Status body = "FAILED" ∧
      length (calls_since s s') = 2 ∧
      count is_put_settings (calls_since s s') = 0 ∧
      count is_grant (calls_since s s') = 0.
Proof.
  intros Hc.
  destruct (tables_handler_run ev ctx w s Hc) as (st & reason & t & s' & Hrun & Ht & Hshape).
  eexists _, s'. split; [exact Hrun|]. rewrite Ht. clear Ht Hrun. cbn [Status responseBody].
  intros client answer Hin Hmissing.
  destruct Hshape as [|r1|r1 r2|r1 existing admins r3 db k g Hadm Hg
                      |r1 existing admins r3 db g r4 st Hadm Hg Hst'].
  - by apply elem_of_nil in Hin.
  - set_unfold in Hin. destruct_or?; by simplify_eq.
  - split; [reflexivity|]. split; [reflexivity|]. split; count_calls.
  - exfalso. rewrite elem_of_app in Hin. destruct Hin as [Hin|Hin].
    + set_unfold in Hin. destruct_or?; simplify_eq.
      all: apply (Hmissing admins); cbn; exact Hadm.
    + pose proof (grants_are_grants _ _ _ _ _ Hg Hin) as Hgr. cbn in Hgr. discriminate Hgr.
  - exfalso. rewrite !elem_of_app in Hin. destruct Hin as [Hin|[Hin|Hin]].
    + set_unfold in Hin. destruct_or?; simplify_eq.
      all: apply (Hmissing admins); cbn; exact Hadm.
    + pose proof (grants_are_grants _ _ _ _ _ Hg Hin) as Hgr. cbn in Hgr. discriminate Hgr.
    + set_unfold in Hin. destruct_or?; by simplify_eq.
Qed.

Lemma settings_without_administrators_witness :
  ∃ body s',
    GlueTables.handler (Scenario.createRequest (PArray [Scenario.analyst])) Scenario.context
      {| respond := fun h req =>
           match req.2 with
           | GetDataLakeSettingsCommand => GetDataLakeSettingsResponse ∅
           | _ => respond (Scenario.account []) h req
           end;
         AWS_REGION := Some "us-west-2" |}
      Scenario.fresh = (inr body, s') ∧
    ∀ client answer,
      ((client, GetDataLakeSettingsCommand), answer) ∈ calls_since Scenario.fresh s' →
      (∀ admins,
         DataLakeSettings_of answer ≫= (.!! "DataLakeAdmins") ≠ Some (Principals admins)) →
      Status body = "FAILED" ∧
      length (calls_since Scenario.fresh s') = 2 ∧
      count is_put_settings (calls_since Scenario.fresh s') = 0 ∧
      count is_grant (calls_since Scenario.fresh s') = 0.
Proof.
  exact (settings_without_administrators_are_left_alone
           (Scenario.createRequest (PArray [Scenario.analyst])) Scenario.context
           {| respond := fun h req =>
                match req.2 with
                | GetDataLakeSettingsCommand => GetDataLakeSettingsResponse ∅
                | _ => respond (Scenario.account []) h req
                end;
              AWS_REGION := Some "us-west-2" |}
           Scenario.fresh eq_refl).
Defined.

(** ** Principals are validated before any call *)

Lemma validate_loop_ok l accountId w s :
  for_of l (fun principal => GlueTables.validateIAMPrincipal principal accountId) w s
  = (inr tt, s) →
  ∀ p, p ∈ l → test (iamPrincipalRegex (ToString accountId)) p = true.
Proof.
  induction l as [|a l IH]; intros Hrun p Hp; [by apply elem_of_nil in Hp|].
  cbn [for_of] in Hrun. unfold bind at 1, GlueTables.validateIAMPrincipal at 1 in Hrun.
  destruct (test (iamPrincipalRegex (ToString accountId)) a) eqn:Ha; monad in Hrun; [|done].
  apply elem_of_cons in Hp as [->|Hp]; [exact Ha|by apply IH].
Qed.

(** A run that made a call has parsed the account id and validated every
    principal against it. *)
Lemma tables_validated ev ctx w s :
  (∃ id,
     split ":" (ToString (StackId ev)) !! 4 = Some id ∧ String.length id = 12 ∧
     ∀ p, p ∈ elements (LakeFormationPrincipals (ResourceProperties ev)) →
          test (iamPrincipalRegex id) p = true) ∨
  ∃ r errs,
    GlueTables.startCreate ev ctx w s
    = (inr r, {| history := history s ++ []; stderr := stderr s ++ errs |}).
Proof.
  unfold GlueTables.startCreate.
  unfold try_catch, bind at 1.
  unfold GlueTables.getResourceShareArn, GlueTables.validateResourceShareArn.
  unfold bind at 1. rewrite app_nil_r.
  destruct (test RESOURCE_SHARE_ARN_REGEX _); monad; [|right; by eexists _, [_]].
  unfold GlueTables.getLakeFormationDataLakePrincipals, GlueTables.getAccountId.
  destruct (exec ACCOUNT_ID_FROM_STACK_REGEX _) as [captured|] eqn:Hexec; monad;
    [|right; by eexists _, [_]].
  unfold GlueTables.validatePrincipals.
  destruct (isArray _); monad; [|right; by eexists _, [_]].
  destruct (validate_loop (elements (LakeFormationPrincipals (ResourceProperties ev)))
              (captured !! 1) w s) as [x Hval].
  rewrite Hval. destruct x as [e|[]]; monad; [right; by eexists _, [_]|].
  left. destruct (account_id_field _ _ Hexec) as (id & Hid & Hlen & _ & Hfield).
  exists id. do 2 (split; [done|]). intros p Hp.
  rewrite Hid in Hval. by apply (validate_loop_ok _ _ _ _ Hval).
Qed.

(** X15.  Every principal that receives a grant in a run of a Create
    request of GlueTables is one of the principals of the request and
    passed validateIAMPrincipal before the first call of the run: it
    contains [:iam::], the account id of the stack and a colon, where the
    account id is the fifth colon-separated field of the stack id of the
    event, twelve characters long. *)
Theorem grants_go_to_principals_of_the_account ev ctx w s :
  RequestType ev = "Create" →
  ∃ body s',
    GlueTables.handler ev ctx w s = (inr body, s') ∧
    ∀ p, p ∈ grants_of (calls_since s s') →
      p ∈ elements (LakeFormationPrincipals (ResourceProperties ev)) ∧
      ∃ id,
        split ":" (ToString (StackId ev)) !! 4 = Some id ∧ String.length id = 12 ∧
        includes (":iam::" +:+ id +:+ ":") p = true.
Proof.
  intros Hc.
  destruct (tables_run ev ctx w s) as (st & reason & t & errs & Hrun & Hshape).
  eexists _, _. split; [exact (tables_handler_create _ _ _ _ _ _ Hc Hrun)|].
  rewrite calls_since_app. intros p Hp.
  assert (Hin : p ∈ elements (LakeFormationPrincipals (ResourceProperties ev))).
  { destruct Hshape as [|r1|r1 r2|r1 existing admins r3 db k g Hadm Hg
                        |r1 existing admins r3 db g r4 st' Hadm Hg Hst'];
      try (by apply elem_of_nil in Hp).
    - rewrite grants_of_app in Hp. cbn [grants_of omap fst snd app] in Hp.
      rewrite (grants_of_grants _ _ _ _ Hg) in Hp.
      apply subseteq_take in Hp. by apply elem_of_new_Set.
    - rewrite !grants_of_app in Hp. cbn [grants_of omap fst snd app] in Hp.
      rewrite app_nil_r, (grants_of_grants _ _ _ _ Hg) in Hp.
      by apply elem_of_new_Set. }
  split; [exact Hin|].
  destruct (tables_validated ev ctx w s) as [(id & Hfield & Hlen & Hok)|(r & errs' & Hrun')].
  - exists id. do 2 (split; [done|]). apply test_iamPrincipalRegex. by apply Hok.
  - exfalso. rewrite Hrun in Hrun'. injection Hrun' as _ Ht _. apply app_inv_head in Ht.
    subst t. by apply elem_of_nil in Hp.
Qed.

Lemma grants_principals_witness :
  ∃ body s',
    GlueTables.handler (Scenario.createRequest (PArray [Scenario.analyst; Scenario.auditor]))
      Scenario.context (Scenario.account []) Scenario.fresh = (inr body, s') ∧
    ∀ p, p ∈ grants_of (calls_since Scenario.fresh s') →
      p ∈ elements (LakeFormationPrincipals
                      (ResourceProperties
                         (Scenario.createRequest (PArray [Scenario.analyst; Scenario.auditor])))) ∧
      ∃ id,
        split ":" (ToString (StackId
                               (Scenario.createRequest
                                  (PArray [Scenario.analyst; Scenario.auditor])))) !! 4
        = Some id ∧
        String.length id = 12 ∧
        includes (":iam::" +:+ id +:+ ":") p = true.
Proof.
  exact (grants_go_to_principals_of_the_account
           (Scenario.createRequest (PArray [Scenario.analyst; Scenario.auditor]))
           Scenario.context (Scenario.account []) Scenario.fresh eq_refl).
Defined.

(** ** Adding to a set that is kept in insertion order *)

Section SetAdd.
Context {A : Type} `{EqDecision A}.

Lemma Set_add_present (acc : list A) x : x ∈ acc → Set_add acc x = acc.
Proof. intros Hx. unfold Set_add. by rewrite decide_True. Qed.

Lemma Set_add_absent (acc : list A) x : x ∉ acc → Set_add acc x = acc ++ [x].
Proof. intros Hx. unfold Set_add. by rewrite decide_False. Qed.

Lemma foldl_Set_add_absorb (acc l : list A) :
  (∀ x, x ∈ l → x ∈ acc) → foldl Set_add acc l = acc.
Proof.
  induction l as [|a l IH]; intros Hl; cbn [foldl]; [reflexivity|].
  rewrite Set_add_present by (apply Hl; left). apply IH. intros x Hx. apply Hl. by right.
Qed.

Lemma new_Set_app (l1 l2 : list A) : new_Set (l1 ++ l2) = foldl Set_add (new_Set l1) l2.
Proof. unfold new_Set. apply foldl_app. Qed.

Lemma new_Set_snoc (l : list A) x : new_Set (l ++ [x]) = Set_add (new_Set l) x.
Proof. by rewrite new_Set_app. Qed.

(** Folding a list into a set appends, in order of first occurrence, the
    elements that the set does not hold yet. *)
Lemma foldl_Set_add_filter (acc l : list A) :
  foldl Set_add acc l = acc ++ filter (fun x => x ∉ acc) (new_Set l).
Proof.
  induction l as [|x l IH] using rev_ind; [by rewrite app_nil_r|].
  rewrite foldl_app, new_Set_snoc. cbn [foldl]. rewrite IH.
  destruct (decide (x ∈ new_Set l)) as [Hx|Hx].
  - rewrite (Set_add_present (new_Set l)) by done.
    apply Set_add_present. rewrite elem_of_app, list_elem_of_filter.
    destruct (decide (x ∈ acc)); [by left|by right].
  - rewrite (Set_add_absent (new_Set l)) by done. rewrite filter_app.
    destruct (decide (x ∈ acc)) as [Hacc|Hacc].
    + rewrite Set_add_present by (rewrite elem_of_app; by left).
      rewrite filter_cons, decide_False by (intros Hn; by apply Hn).
      by rewrite filter_nil, app_nil_r.
    + rewrite Set_add_absent.
      * rewrite filter_cons, decide_True by done. by rewrite filter_nil, app_assoc.
      * rewrite elem_of_app, list_elem_of_filter. intros [?|[_ ?]]; done.
Qed.

Lemma new_Set_NoDup (l : list A) : NoDup l → new_Set l = l.
Proof.
  induction l as [|x l IH] using rev_ind; intros Hl; [reflexivity|].
  apply NoDup_app in Hl as (Hl & Hx & _). rewrite new_Set_snoc, IH by done.
  apply Set_add_absent. intros Hin. apply (Hx _ Hin). left.
Qed.

Lemma new_Set_again (l1 l2 : list A) :
  new_Set (new_Set (l1 ++ l2) ++ l2) = new_Set (l1 ++ l2).
Proof.
  rewrite (new_Set_app (new_Set (l1 ++ l2))).
  rewrite (new_Set_NoDup (new_Set (l1 ++ l2))) by apply NoDup_new_Set.
  apply foldl_Set_add_absorb. intros x Hx. rewrite elem_of_new_Set, elem_of_app. by right.
Qed.
End SetAdd.

(** What buildDataLakeSettings returns. *)
Lemma buildDataLakeSettings_inv existing principals w s new s' :
  GlueTables.buildDataLakeSettings (Some existing) principals w s = (inr new, s') →
  s' = s ∧
  ∃ admins,
    existing !! "DataLakeAdmins" = Some (Principals admins) ∧
    new = <["DataLakeAdmins" :=
              Principals (admins_of (new_Set (identifiers admins ++ principals)))]> existing.
Proof.
  intros Hrun.
  destruct (buildDataLakeSettings_run (Some existing) principals w s) as (x & Hx & Hnew).
  rewrite Hrun in Hx. injection Hx as <- <-. split; [reflexivity|].
  destruct (Hnew new eq_refl) as (existing' & admins & [= <-] & Hadm & ->).
  by exists admins.
Qed.

(** X16.  buildDataLakeSettings is idempotent: building from the settings
    it returned, with the same principals, returns those settings again.
    So a Create request of GlueTables that reads back the settings an
    earlier request has written computes the same final settings. *)
Theorem building_the_settings_again_changes_nothing existing principals w s new s' :
  GlueTables.buildDataLakeSettings (Some existing) principals w s = (inr new, s') →
  GlueTables.buildDataLakeSettings (Some new) principals w s' = (inr new, s').
Proof.
  intros Hrun. apply buildDataLakeSettings_inv in Hrun as (-> & admins & Hadm & ->).
  unfold GlueTables.buildDataLakeSettings, GlueTables.buildDataLakeAdmins. monad.
  rewrite lookup_insert_eq. f_equal. f_equal.
  rewrite insert_insert_eq. f_equal. f_equal.
  change (DataLakePrincipalIdentifier <$> ?l) with (identifiers l).
  change ((fun principal => {| DataLakePrincipalIdentifier := principal |}) <$> ?l)
    with (admins_of l).
  by rewrite identifiers_admins_of, new_Set_again.
Qed.

Lemma building_again_witness :
  GlueTables.buildDataLakeSettings
    (Some (<["DataLakeAdmins" :=
               Principals (admins_of [Some Scenario.lakeAdmin; Some Scenario.analyst])]>
             Scenario.settings))
    [Some Scenario.analyst; Some Scenario.analyst] (Scenario.account []) Scenario.fresh
  = (inr (<["DataLakeAdmins" :=
              Principals (admins_of [Some Scenario.lakeAdmin; Some Scenario.analyst])]>
            Scenario.settings), Scenario.fresh).
Proof.
  apply (building_the_settings_again_changes_nothing Scenario.settings
           [Some Scenario.analyst; Some Scenario.analyst] (Scenario.account []) Scenario.fresh).
  vm_compute. reflexivity.
Defined.

(** X17.  buildDataLakeSettings only appends to the administrators: when
    it returns, the settings it was given hold a list of administrators,
    and the new list is that list without its repetitions, in the same
    order, followed by the principals that are not administrators yet, each
    once, in the order of their first occurrence.  No administrator is
    removed or moved. *)
Theorem administrators_are_kept_and_principals_appended existing principals w s new s' :
  GlueTables.buildDataLakeSettings (Some existing) principals w s = (inr new, s') →
  s' = s ∧
  ∃ admins,
    existing !! "DataLakeAdmins" = Some (Principals admins) ∧
    new = <["DataLakeAdmins" :=
              Principals (admins_of
                (new_Set (identifiers admins)
                 ++ filter (fun p => p ∉ new_Set (identifiers admins))
                      (new_Set principals)))]> existing.
Proof.
  intros Hrun. apply buildDataLakeSettings_inv in Hrun as (-> & admins & Hadm & ->).
  split; [reflexivity|]. exists admins. split; [exact Hadm|].
  by rewrite new_Set_app, foldl_Set_add_filter.
Qed.

Lemma administrators_appended_witness :
  Scenario.fresh = Scenario.fresh ∧
  ∃ admins,
    Scenario.settings !! "DataLakeAdmins" = Some (Principals admins) ∧
    <["DataLakeAdmins" :=
        Principals (admins_of [Some Scenario.lakeAdmin; Some Scenario.analyst])]>
      Scenario.settings
    = <["DataLakeAdmins" :=
          Principals (admins_of
            (new_Set (identifiers admins)
             ++ filter (fun p => p ∉ new_Set (identifiers admins))
                  (new_Set [Some Scenario.analyst; Some Scenario.lakeAdmin;
                            Some Scenario.analyst])))]> Scenario.settings.
Proof.
  apply (administrators_are_kept_and_principals_appended Scenario.settings
           [Some Scenario.analyst; Some Scenario.lakeAdmin; Some Scenario.analyst]
           (Scenario.account []) Scenario.fresh).
  vm_compute. reflexivity.
Defined.

(** * SsmParameters, every run *)

Lemma save_loop ssm ws w s :
  ∃ x t errs,
    for_of ws (fun pv => SsmParameters.saveParameter ssm pv.1 pv.2) w s
    = (x, {| history := history s ++ t; stderr := stderr s ++ errs |}) ∧
    SaveRun ssm ws x t.
Proof.
  revert s. induction ws as [|pv ws IH]; intros s.
  - exists (inr tt), [], []. rewrite !app_nil_r. split; [by destruct s|constructor].
  - cbn [for_of]. unfold bind at 1.
    destruct (save_cases ssm pv.1 pv.2 w s)
      as (a & [[Hok ->]|[(n & m & -> & Hn & ->)|(m & found & -> & ->)]]).
    + destruct (IH {| history := history s
                        ++ [((ssm, PutParameterCommand (SsmParameters.Name pv.1)
                                     (SsmParameters.Description pv.1) pv.2
                                     (SsmParameters.Type_ pv.1)
                                     (SsmParameters.AllowedPattern pv.1) "Standard"), a)];
                      stderr := stderr s |}) as (x & t & errs & -> & Hrun).
      cbn [history stderr]. rewrite <- app_assoc.
      exists x, ((put ssm pv, a) :: t), errs. split; [reflexivity|]. by apply saved_one.
    + exists (inl (ServiceException n m)), [(put ssm pv, Rejected n m)], [].
      rewrite app_nil_r. split; [reflexivity|]. by apply save_rejected.
    + exists (inl (ServiceException "ParameterAlreadyExists" m)),
        [(put ssm pv, Rejected "ParameterAlreadyExists" m);
         ((ssm, GetParameterCommand "/Detective/SLI/StackId"), found)],
        [collision_line (SsmParameters.Name pv.1) (found_stack_id found)].
      split; [reflexivity|]. apply save_collided.
Qed.

(** The five saves of createParameters are a loop over [published]. *)
Lemma saves_are_a_loop ssm v1 v2 v3 v4 v5 (r : string * option Reason) w s :
  (SsmParameters.saveParameter ssm SsmParameters.STACK_ID_PARAMETER v1 ;;
   SsmParameters.saveParameter ssm SsmParameters.RESOURCE_SHARE_ARN_PARAMETER v2 ;;
   SsmParameters.saveParameter ssm SsmParameters.ATHENA_RESULT_BUCKET_PARAMETER v3 ;;
   SsmParameters.saveParameter ssm SsmParameters.DATABASE_NAME_PARAMETER v4 ;;
   SsmParameters.saveParameter ssm SsmParameters.TABLE_NAMES_PARAMETER v5 ;;
   ret r) w s
  = (for_of [ (SsmParameters.STACK_ID_PARAMETER, v1);
              (SsmParameters.RESOURCE_SHARE_ARN_PARAMETER, v2);
              (SsmParameters.ATHENA_RESULT_BUCKET_PARAMETER, v3);
              (SsmParameters.DATABASE_NAME_PARAMETER, v4);
              (SsmParameters.TABLE_NAMES_PARAMETER, v5) ]
       (fun pv => SsmParameters.saveParameter ssm pv.1 pv.2) ;;
     ret r) w s.
Proof.
  cbn [for_of fst snd]. unfold bind, ret.
  repeat match goal with
         | |- context [SsmParameters.saveParameter ?c ?p ?v ?w ?s] =>
             destruct (SsmParameters.saveParameter c p v w s) as [[?|[]] ?]
         end; reflexivity.
Qed.

(** The table names that the loop of getTableNames collects. *)
Lemma parseTableNames_names l acc w s names s' :
  SsmParameters.parseTableNames l acc w s = (inr names, s') →
  names = acc ++ ((fun a => exec TABLE_NAME_CAPTURE_REGEX (ToString a) ≫= (.!! 1)) <$> l).
Proof.
  revert acc. induction l as [|a l IH]; intros acc Hrun;
    cbn [SsmParameters.parseTableNames] in Hrun.
  - injection Hrun as <- _. by rewrite app_nil_r.
  - destruct (exec TABLE_NAME_CAPTURE_REGEX (ToString a)) as [captured|] eqn:Hexec; [|done].
    apply IH in Hrun as ->. cbn [fmap list_fmap]. rewrite Hexec. cbn.
    by rewrite <- app_assoc.
Qed.

Lemma ssm_getDatabaseName_run ram arn w s :
  ∃ x a1,
    SsmParameters.getDatabaseName ram arn w s
    = (x, {| history := history s
               ++ [((ram, ListResourcesCommand "OTHER-ACCOUNTS" [arn] (Some "glue:database")),
                    a1)];
             stderr := stderr s |}) ∧
    ∀ name, x = inr name →
      ∃ database others,
        a1 = ListResourcesResponse (database :: others) ∧ name = database_name database.
Proof.
  unfold SsmParameters.getDatabaseName, SsmParameters.getDatabaseNameArn.
  unfold bind at 1. unfold bind at 1.
  destruct (send_run ram (ListResourcesCommand "OTHER-ACCOUNTS" [arn] (Some "glue:database")) w s)
    as (x & -> & Hx & _).
  set (a1 := respond w (history s) _) in *. clearbody a1.
  destruct x as [e|r]; [by eexists _, _|]. specialize (Hx r eq_refl). subst r. monad.
  destruct a1 as [?|[|database others]| | | |]; cbn [resources_of length Nat.eqb head]; monad;
    try (eexists _, _; split; [reflexivity|done]).
  destruct (exec DATABASE_NAME_CAPTURE_REGEX _) as [captured|] eqn:Hexec;
    (eexists _, _; split; [reflexivity|]); [|done].
  intros name [= <-]. exists database, others. split; [reflexivity|].
  unfold database_name. by rewrite Hexec.
Qed.

Lemma ssm_getTableNames_run ram arn w s :
  ∃ x a2,
    SsmParameters.getTableNames ram arn w s
    = (x, {| history := history s
               ++ [((ram, ListResourcesCommand "OTHER-ACCOUNTS" [arn] (Some "glue:table")),
                    a2)];
             stderr := stderr s |}) ∧
    ∀ names, x = inr names →
      ∃ table more,
        a2 = ListResourcesResponse (table :: more) ∧ names = table_name <$> (table :: more).
Proof.
  unfold SsmParameters.getTableNames, SsmParameters.getTableArns.
  unfold bind at 1. unfold bind at 1.
  destruct (send_run ram (ListResourcesCommand "OTHER-ACCOUNTS" [arn] (Some "glue:table")) w s)
    as (x & -> & Hx & _).
  set (a2 := respond w (history s) _) in *. clearbody a2.
  destruct x as [e|r]; [by eexists _, _|]. specialize (Hx r eq_refl). subst r. monad.
  destruct a2 as [?|[|table more]| | | |]; cbn [resources_of length Nat.eqb]; monad;
    try (eexists _, _; split; [reflexivity|done]).
  match goal with |- context [SsmParameters.parseTableNames ?l ?acc ?w ?s] =>
    destruct (SsmParameters.parseTableNames l acc w s) as [x s1] eqn:Hparse;
    destruct (parseTableNames_run l acc w s) as (x' & Hx') end.
  rewrite Hparse in Hx'. injection Hx' as <- ->.
  eexists _, _. split; [reflexivity|].
  intros names ->. exists table, more. split; [reflexivity|].
  apply parseTableNames_names in Hparse. rewrite Hparse. cbn [app].
  unfold table_name. by rewrite <- list_fmap_compose.
Qed.

Lemma bind_ext {A B} (m : M A) (f g : A → M B) w s :
  (∀ a s1, f a w s1 = g a w s1) → bind m f w s = bind m g w s.
Proof. intros Hfg. unfold bind. destruct (m w s) as [[e|a] s1]; [reflexivity|apply Hfg]. Qed.

Lemma try_catch_ext {A} (m m' : M A) h w s :
  m w s = m' w s → try_catch m h w s = try_catch m' h w s.
Proof. intros Hm. unfold try_catch. by rewrite Hm. Qed.

(** createParameters, with its five saves as a loop. *)
Lemma createParameters_loop ev ctx w s :
  SsmParameters.createParameters ev ctx w s
  = try_catch
      (resourceShareArn <- SsmParameters.getResourceShareArn ev ;;
       resourceShareRegion <- SsmParameters.getResourceShareRegion resourceShareArn ;;
       dtRegion <- SsmParameters.getDTRegion ev ;;
       athenaResultBucket <- SsmParameters.getAthenaResultBucket ev ;;
       stackId <- SsmParameters.getStackId ev ;;
       let ramClient := {| service := RAM; region := resourceShareRegion |} in
       databaseName <- SsmParameters.getDatabaseName ramClient resourceShareArn ;;
       tableNameList <- SsmParameters.getTableNames ramClient resourceShareArn ;;
       let ssmClient := {| service := SSM; region := dtRegion |} in
       for_of [ (SsmParameters.STACK_ID_PARAMETER, stackId);
                (SsmParameters.RESOURCE_SHARE_ARN_PARAMETER, resourceShareArn);
                (SsmParameters.ATHENA_RESULT_BUCKET_PARAMETER, athenaResultBucket);
                (SsmParameters.DATABASE_NAME_PARAMETER, databaseName);
                (SsmParameters.TABLE_NAMES_PARAMETER,
                 Some (join "," (default EmptyString <$> tableNameList))) ]
         (fun pv => SsmParameters.saveParameter ssmClient pv.1 pv.2) ;;
       ret ("SUCCESS", None))
      (fun exception =>
         console_error (render exception) ;;
         ret ("FAILED", Some (Caught exception))) w s.
Proof.
  unfold SsmParameters.createParameters. apply try_catch_ext.
  do 5 (apply bind_ext; intros ? ?). cbv zeta.
  do 2 (apply bind_ext; intros ? ?).
  apply saves_are_a_loop.
Qed.

Ltac invalid_input :=
  eexists _, _, [], [_]; rewrite app_nil_r; (split; [reflexivity|]); left;
  (do 2 (split; [reflexivity|])); unfold parameters_input_ok;
  repeat match goal with H : _ = _ |- _ => rewrite H end;
  rewrite ?andb_false_r; reflexivity.

Lemma parameters_create_run ev ctx w s :
  ∃ st reason t errs,
    SsmParameters.createParameters ev ctx w s
    = (inr (st, reason), {| history := history s ++ t; stderr := stderr s ++ errs |}) ∧
    (t = [] ∧ st = "FAILED" ∧ parameters_input_ok ev = false ∨
     parameters_input_ok ev = true ∧
     ∃ r, split ":" (ToString (ResourceShareArn (ResourceProperties ev))) !! 3 = Some r ∧
          ParametersRun ev (Some r) st t).
Proof.
  rewrite createParameters_loop.
  unfold try_catch, bind at 1.
  unfold SsmParameters.getResourceShareArn, SsmParameters.validateResourceShareArn.
  unfold bind at 1.
  destruct (test RESOURCE_SHARE_ARN_REGEX _) eqn:Harn; monad; [|invalid_input].
  unfold SsmParameters.getResourceShareRegion, SsmParameters.validateRegion.
  destruct (exec RESOURCE_SHARE_REGION_REGEX _) as [captured|] eqn:Hexec; monad;
    [|invalid_input].
  destruct (region_field _ _ Hexec) as (r & Hr & _ & Hfield).
  destruct (test regionRegex (ToString (captured !! 1))) eqn:Hregion; monad; [|invalid_input].
  unfold SsmParameters.getDTRegion, SsmParameters.validateRegion.
  destruct (test regionRegex (ToString (DTRegion _))) eqn:Hdt; monad; [|invalid_input].
  unfold SsmParameters.getAthenaResultBucket.
  destruct (test bucketRegex _) eqn:Hbucket; monad; [|invalid_input].
  unfold SsmParameters.getStackId.
  destruct (test stackIdRegex _) eqn:Hstack; monad; [|invalid_input].
  assert (Hok : parameters_input_ok ev = true).
  { unfold parameters_input_ok. by rewrite Harn, Hexec, Hregion, Hdt, Hbucket, Hstack. }
  rewrite Hr. cbn [ToString] in Hregion.
  destruct (ssm_getDatabaseName_run {| service := RAM; region := Some r |}
              (ResourceShareArn (ResourceProperties ev)) w s) as (x & a1 & -> & Hdb).
  destruct x as [e|databaseName].
  { eexists _, _, [_], [_]. split; [reflexivity|]. right. split; [exact Hok|].
    exists r. split; [exact Hfield|]. apply parameters_no_database. }
  destruct (Hdb _ eq_refl) as (database & others & -> & ->). clear Hdb.
  match goal with |- context [SsmParameters.getTableNames ?c ?a ?w ?s] =>
    destruct (ssm_getTableNames_run c a w s) as (x & a2 & -> & Htables) end.
  cbn [history stderr] in *.
  destruct x as [e|tableNameList].
  { eexists _, _, [_; _], [_]. rewrite <- app_assoc. split; [reflexivity|].
    right. split; [exact Hok|].
    exists r. split; [exact Hfield|]. apply parameters_no_tables. }
  destruct (Htables _ eq_refl) as (table & more & -> & ->). clear Htables.
  match goal with |- context [for_of ?ws _ ?w ?s] =>
    destruct (save_loop {| service := SSM; region := DTRegion (ResourceProperties ev) |}
                ws w s) as (x & t & errs & -> & Hsaves) end.
  cbn [history stderr].
  destruct x as [e|[]].
  - eexists _, _, ([_; _] ++ t), (errs ++ [_]).
    cbn [history stderr]. rewrite <- !app_assoc. cbn [app]. split; [reflexivity|].
    right. split; [exact Hok|]. exists r. split; [exact Hfield|].
    by eapply parameters_saved.
  - eexists _, _, ([_; _] ++ t), errs.
    cbn [history stderr]. rewrite <- !app_assoc. cbn [app]. split; [reflexivity|].
    right. split; [exact Hok|]. exists r. split; [exact Hfield|].
    by eapply parameters_saved.
Qed.

Lemma parameters_create_handler_run ev ctx w s :
  RequestType ev = "Create" →
  ∃ st reason t s',
    SsmParameters.handler ev ctx w s = (inr (responseBody w ev ctx st None reason), s') ∧
    calls_since s s' = t ∧
    (t = [] ∧ st = "FAILED" ∧ parameters_input_ok ev = false ∨
     parameters_input_ok ev = true ∧
     ∃ r, split ":" (ToString (ResourceShareArn (ResourceProperties ev))) !! 3 = Some r ∧
          ParametersRun ev (Some r) st t).
Proof.
  intros Hc.
  destruct (parameters_create_run ev ctx w s) as (st & reason & t & errs & Hrun & Hshape).
  exists st, reason, t. eexists. split; [|split; [|exact Hshape]].
  - exact (parameters_handler_create _ _ _ _ _ _ Hc Hrun).
  - apply calls_since_app.
Qed.

Lemma put_names_app t u : put_names (t ++ u) = put_names t ++ put_names u.
Proof. unfold put_names. apply omap_app. Qed.

Lemma SaveRun_done ssm ws u t :
  SaveRun ssm ws (inr u) t → t.*1 = put ssm <$> ws ∧ clean t.
Proof.
  intros Hrun. remember (inr u) as x eqn:Hx.
  induction Hrun as [|pv ws a x t Ha Hrun IH|pv ws n m Hn|pv ws m found]; try discriminate Hx.
  - split; [reflexivity|constructor].
  - destruct (IH Hx) as [Ht Hclean]. split; [cbn; by rewrite Ht|by constructor].
Qed.

Lemma SaveRun_writes ssm ws x t :
  SaveRun ssm ws x t →
  (∃ k, put_names t = take k ((fun pv => SsmParameters.Name pv.1) <$> ws)) ∧
  count is_delete_parameters t = 0 ∧
  (∀ e, e ∈ t → is_put_parameter e.1.2 = true → e.1.1 = ssm) ∧
  (∀ before request n m after,
     t = before ++ (request, Rejected n m) :: after →
     is_put_parameter request.2 = true →
     count is_put_parameter after = 0 ∧ ∃ e, x = inl e).
Proof.
  induction 1 as [|pv ws a x t Ha Hrun IH|pv ws n m Hn|pv ws m found].
  - split; [by exists 0|]. split; [reflexivity|]. split.
    + intros e He. by apply elem_of_nil in He.
    + intros [|? ?] ? ? ? ? Heq; discriminate Heq.
  - destruct IH as ([k Hk] & Hdel & Hclient & Hrej).
    split.
    { exists (S k).
      change (put_names ((put ssm pv, a) :: t)) with (SsmParameters.Name pv.1 :: put_names t).
      by rewrite Hk. }
    split; [count_calls; exact Hdel|]. split.
    + intros e He Hput. apply elem_of_cons in He as [->|He]; [reflexivity|by apply Hclient].
    + intros [|e0 before] request n m after Heq Hput; cbn [app] in Heq.
      * injection Heq as _ -> _. discriminate Ha.
      * injection Heq as _ Heq. by apply (Hrej before request n m after).
  - split; [by exists 1|]. split; [reflexivity|]. split.
    + intros e He Hput. by apply list_elem_of_singleton in He as ->.
    + intros [|e0 [|e1 before]] request n' m' after Heq Hput; cbn [app] in Heq;
        try discriminate Heq.
      injection Heq as _ _ _ <-. split; [reflexivity|by eexists].
  - split; [by exists 1|]. split; [reflexivity|]. split.
    + intros e He Hput. set_unfold in He. destruct_or?; by subst e.
    + intros [|e0 [|e1 [|e2 before]]] request n' m' after Heq Hput; cbn [app] in Heq;
        try discriminate Heq.
      * injection Heq as _ _ _ <-. split; [reflexivity|by eexists].
      * injection Heq as _ Hreq _ _. subst request. discriminate Hput.
Qed.

(** X18.  When a Create request of SsmParameters succeeds, its calls are
    the two listings of the share, sent to RAM in the region of the share,
    and then exactly the five writes, sent to the parameter store in the
    region DTRegion and all accepted: the stack id, the share ARN, the
    bucket, the database name and the table names, in this order, with the
    values of the request and the names read from the ARNs of the first
    database and of the tables listed, the table names joined by commas. *)
Theorem a_successful_create_publishes_the_five_parameters ev ctx w s :
  RequestType ev = "Create" →
  ∃ body s',
    SsmParameters.handler ev ctx w s = (inr body, s') ∧
    (Status body = "SUCCESS" →
     ∃ r database others table more writes,
       split ":" (ToString (ResourceShareArn (ResourceProperties ev))) !! 3 = Some r ∧
       calls_since s s'
       = [(({| service := RAM; region := Some r |},
            ListResourcesCommand "OTHER-ACCOUNTS" [ResourceShareArn (ResourceProperties ev)]
              (Some "glue:database")),
           ListResourcesResponse (database :: others));
          (({| service := RAM; region := Some r |},
            ListResourcesCommand "OTHER-ACCOUNTS" [ResourceShareArn (ResourceProperties ev)]
              (Some "glue:table")),
           ListResourcesResponse (table :: more))]
         ++ writes ∧
       writes.*1
       = put {| service := SSM; region := DTRegion (ResourceProperties ev) |}
           <$> published ev database (table :: more) ∧
       clean writes ∧
       put_names writes = FIVE_NAMES).
Proof.
  intros Hc.
  destruct (parameters_create_handler_run ev ctx w s Hc)
    as (st & reason & t & s' & Hrun & Ht & Hshape).
  eexists _, s'. split; [exact Hrun|]. rewrite Ht. clear Ht Hrun. cbn [Status responseBody].
  intros ->. destruct Hshape as [(_ & Hst & _)|(_ & r & Hfield & Hshape)]; [discriminate Hst|].
  inversion Hshape as [| |database others table more x t' st Hsaves Hst]; subst.
  destruct x as [e|[]]; [discriminate Hst|].
  apply SaveRun_done in Hsaves as [Hwrites Hclean].
  exists r, database, others, table, more, t'.
  do 4 (split; [done|]).
  assert (Hnames : ∀ ssm ws (u : History),
            u.*1 = put ssm <$> ws → put_names u = (fun pv => SsmParameters.Name pv.1) <$> ws).
  { intros ssm ws. induction ws as [|pv ws IH]; intros [|[req a] u] Hu; try done.
    cbn in Hu. injection Hu as -> Hu. cbn. f_equal. by apply IH. }
  by rewrite (Hnames _ _ _ Hwrites).
Qed.

Lemma published_witness :
  ∃ body s',
    SsmParameters.handler (Scenario.createRequest (PArray [])) Scenario.context
      (Scenario.account []) Scenario.fresh = (inr body, s') ∧
    Status body = "SUCCESS" ∧
    ∃ r database others table more writes,
      split ":" (ToString (ResourceShareArn
                             (ResourceProperties (Scenario.createRequest (PArray [])))))
        !! 3 = Some r ∧
      calls_since Scenario.fresh s'
      = [(({| service := RAM; region := Some r |},
           ListResourcesCommand "OTHER-ACCOUNTS"
             [ResourceShareArn (ResourceProperties (Scenario.createRequest (PArray [])))]
             (Some "glue:database")),
          ListResourcesResponse (database :: others));
         (({| service := RAM; region := Some r |},
           ListResourcesCommand "OTHER-ACCOUNTS"
             [ResourceShareArn (ResourceProperties (Scenario.createRequest (PArray [])))]
             (Some "glue:table")),
          ListResourcesResponse (table :: more))]
        ++ writes ∧
      writes.*1
      = put {| service := SSM;
               region := DTRegion (ResourceProperties (Scenario.createRequest (PArray []))) |}
          <$> published (Scenario.createRequest (PArray [])) database (table :: more) ∧
      clean writes ∧
      put_names writes = FIVE_NAMES.
Proof.
  destruct (a_successful_create_publishes_the_five_parameters
              (Scenario.createRequest (PArray [])) Scenario.context
              (Scenario.account []) Scenario.fresh eq_refl) as (body & s' & Hrun & Hsuccess).
  assert (Hst : Status body = "SUCCESS").
  { assert (Hdone :
      (SsmParameters.handler (Scenario.createRequest (PArray [])) Scenario.context
         (Scenario.account []) Scenario.fresh).1
      = inr (succeeded (Scenario.account []) (Scenario.createRequest (PArray []))
               Scenario.context)) by (vm_compute; reflexivity).
    rewrite Hrun in Hdone. cbn [fst] in Hdone. injection Hdone as ->. reflexivity. }
  exists body, s'. split; [exact Hrun|]. split; [exact Hst|]. exact (Hsuccess Hst).
Defined.

(** X19.  In every run of a Create request of SsmParameters the
    parameters are written in the fixed order of the five names, each
    write to the parameter store in the region DTRegion, and the writes
    stop at the first one that is rejected: the names written are the first
    few of the five names, no write follows a rejected write, and the
    request then fails.  The create path never deletes: parameters written
    before the failure are left in place. *)
Theorem parameters_are_written_in_order_until_one_is_rejected ev ctx w s :
  RequestType ev = "Create" →
  ∃ body s',
    SsmParameters.handler ev ctx w s = (inr body, s') ∧
    (∃ k, put_names (calls_since s s') = take k FIVE_NAMES) ∧
    count is_delete_parameters (calls_since s s') = 0 ∧
    (∀ e, e ∈ calls_since s s' → is_put_parameter e.1.2 = true →
          e.1.1 = {| service := SSM; region := DTRegion (ResourceProperties ev) |}) ∧
    (∀ before request n m after,
       calls_since s s' = before ++ (request, Rejected n m) :: after →
       is_put_parameter request.2 = true →
       count is_put_parameter after = 0 ∧ Status body = "FAILED").
Proof.
  intros Hc.
  destruct (parameters_create_handler_run ev ctx w s Hc)
    as (st & reason & t & s' & Hrun & Ht & Hshape).
  eexists _, s'. split; [exact Hrun|]. rewrite Ht. clear Ht Hrun. cbn [Status responseBody].
  destruct Hshape as [(-> & _ & _)|(_ & r & _ & Hshape)].
  { split; [by exists 0|]. split; [reflexivity|]. split.
    - intros e He. by apply elem_of_nil in He.
    - intros [|? ?] ? ? ? ? Heq; discriminate Heq. }
  destruct Hshape as [a1|database others a2|database others table more x t st Hsaves Hst].
  - split; [by exists 0|]. split; [reflexivity|]. split.
    + intros e He Hput. apply list_elem_of_singleton in He as ->. discriminate Hput.
    + intros [|e0 [|e1 before]] request n m after Heq Hput; cbn [app] in Heq;
        try discriminate Heq; by simplify_eq.
  - split; [by exists 0|]. split; [reflexivity|]. split.
    + intros e He Hput. set_unfold in He. destruct_or?; subst e; discriminate Hput.
    + intros [|e0 [|e1 [|e2 before]]] request n m after Heq Hput; cbn [app] in Heq;
        try discriminate Heq; by simplify_eq.
  - destruct (SaveRun_writes _ _ _ _ Hsaves) as ([k Hk] & Hdel & Hclient & Hrej).
    split; [exists k; rewrite put_names_app; exact Hk|].
    split; [count_calls; exact Hdel|]. split.
    + intros e He Hput. rewrite elem_of_app in He. destruct He as [He|He].
      * set_unfold in He. destruct_or?; subst e; discriminate Hput.
      * by apply Hclient.
    + intros [|e0 [|e1 before]] request n m after Heq Hput; cbn [app] in Heq.
      * by simplify_eq.
      * by simplify_eq.
      * injection Heq as _ _ Heq.
        destruct (Hrej before request n m after Heq Hput) as [Hafter [e ->]].
        by subst st.
Qed.

Lemma parameters_order_witness :
  ∃ body s',
    SsmParameters.handler (Scenario.createRequest (PArray [])) Scenario.context
      (Scenario.account []) Scenario.occupied = (inr body, s') ∧
    (∃ k, put_names (calls_since Scenario.occupied s') = take k FIVE_NAMES) ∧
    count is_delete_parameters (calls_since Scenario.occupied s') = 0 ∧
    (∀ e, e ∈ calls_since Scenario.occupied s' → is_put_parameter e.1.2 = true →
          e.1.1 = {| service := SSM;
                     region := DTRegion (ResourceProperties
                                           (Scenario.createRequest (PArray []))) |}) ∧
    (∀ before request n m after,
       calls_since Scenario.occupied s' = before ++ (request, Rejected n m) :: after →
       is_put_parameter request.2 = true →
       count is_put_parameter after = 0 ∧ Status body = "FAILED").
Proof.
  exact (parameters_are_written_in_order_until_one_is_rejected
           (Scenario.createRequest (PArray [])) Scenario.context
           (Scenario.account []) Scenario.occupied eq_refl).
Defined.

(** X20.  A Create request of SsmParameters checks its whole input before
    its first call: the share ARN, the region in it, DTRegion, the bucket
    and the stack id.  When one of the five checks fails the request fails
    and makes no call at all; when all pass, the first call is the listing
    of the Glue databases of the share, sent to RAM in the region of the
    share ARN. *)
Theorem parameters_input_is_checked_before_any_call ev ctx w s :
  RequestType ev = "Create" →
  ∃ body s',
    SsmParameters.handler ev ctx w s = (inr body, s') ∧
    (parameters_input_ok ev = false →
       calls_since s s' = [] ∧ Status body = "FAILED") ∧
    (parameters_input_ok ev = true →
       ∃ r a1,
         split ":" (ToString (ResourceShareArn (ResourceProperties ev))) !! 3 = Some r ∧
         head (calls_since s s')
         = Some (({| service := RAM; region := Some r |},
                  ListResourcesCommand "OTHER-ACCOUNTS"
                    [ResourceShareArn (ResourceProperties ev)] (Some "glue:database")),
                 a1)).
Proof.
  intros Hc.
  destruct (parameters_create_handler_run ev ctx w s Hc)
    as (st & reason & t & s' & Hrun & Ht & Hshape).
  eexists _, s'. split; [exact Hrun|]. rewrite Ht. clear Ht Hrun. cbn [Status responseBody].
  destruct Hshape as [(-> & -> & Hbad)|(Hok & r & Hfield & Hshape)].
  - split; [done|]. intros Hok. congruence.
  - split; [intros Hbad; congruence|]. intros _.
    destruct Hshape; by eexists r, _.
Qed.

Lemma parameters_input_witness :
  ∃ body s',
    SsmParameters.handler (Scenario.createRequest (PArray [])) Scenario.context
      (Scenario.account []) Scenario.fresh = (inr body, s') ∧
    (parameters_input_ok (Scenario.createRequest (PArray [])) = false →
       calls_since Scenario.fresh s' = [] ∧ Status body = "FAILED") ∧
    (parameters_input_ok (Scenario.createRequest (PArray [])) = true →
       ∃ r a1,
         split ":" (ToString (ResourceShareArn
                                (ResourceProperties (Scenario.createRequest (PArray [])))))
           !! 3 = Some r ∧
         head (calls_since Scenario.fresh s')
         = Some (({| service := RAM; region := Some r |},
                  ListResourcesCommand "OTHER-ACCOUNTS"
                    [ResourceShareArn (ResourceProperties (Scenario.createRequest (PArray [])))]
                    (Some "glue:database")),
                 a1)).
Proof.
  exact (parameters_input_is_checked_before_any_call (Scenario.createRequest (PArray []))
           Scenario.context (Scenario.account []) Scenario.fresh eq_refl).
Defined.

(** * Requests that are not Create *)

(** X21.  getStackIdParameter never throws.  It makes one call, the read
    of the stack id parameter, and returns the value of the parameter when
    the call answers with one; when the call is rejected, or answers
    without a parameter, it returns undefined. *)
Theorem stack_id_lookup_never_throws ssmClient w s :
  let lookup := (ssmClient, GetParameterCommand "/Detective/SLI/StackId") in
  let answer := respond w (history s) lookup in
  SsmParameters.getStackIdParameter ssmClient w s
  = (inr (match answer with GetParameterResponse value => value | _ => None end),
     {| history := history s ++ [(lookup, answer)]; stderr := stderr s |}).
Proof. apply getStackIdParameter_run. Qed.

(** X22.  A request that is neither Create nor Delete is refused by each
    of the four handlers: the response is FAILED, the reason is written to
    the error log, and no call is made.  For Update the reason is that
    Update is not supported; for any other request type
    ResourceShareAcceptor and SsmParameters name the type received, and
    GlueDatabase and GlueTables say that the type is not recognized. *)
Theorem requests_that_are_not_create_or_delete_are_refused ev ctx w s :
  RequestType ev ≠ "Create" →
  RequestType ev ≠ "Delete" →
  let refused reason :=
    (inr (responseBody w ev ctx "FAILED" None (Some (Text reason))),
     {| history := history s; stderr := stderr s ++ [reason] |}) in
  let named :=
    if String.eqb (RequestType ev) "Update"
    then "RequestType is Update which is not supported."
    else "Received unknown RequestType " +:+ RequestType ev +:+ "." in
  let unrecognized :=
    if String.eqb (RequestType ev) "Update"
    then "RequestType is Update which is not supported."
    else "Unrecognized cloudformation request type received. This custom resource only supports creation and deletion." in
  ResourceShareAcceptor.handler ev ctx w s = refused named ∧
  SsmParameters.handler ev ctx w s = refused named ∧
  GlueDatabase.handler ev ctx w s = refused unrecognized ∧
  GlueTables.handler ev ctx w s = refused unrecognized.
Proof.
  intros Hc Hd refused named unrecognized. subst refused named unrecognized.
  unfold ResourceShareAcceptor.handler, GlueDatabase.handler, GlueTables.handler,
    SsmParameters.handler.
  destruct (String.eqb_spec (RequestType ev) "Update") as [Hu|Hu]; [done|].
  destruct (String.eqb_spec (RequestType ev) "Create") as [?|_]; [done|].
  destruct (String.eqb_spec (RequestType ev) "Delete") as [?|_]; [done|].
  done.
Qed.

Lemma refused_request_witness :
  ResourceShareAcceptor.handler
    (Scenario.request "Update"
       (Scenario.properties (Some Scenario.shareArn) (PArray []) (Some "us-east-1")))
    Scenario.context (Scenario.account []) Scenario.fresh
  = (inr (responseBody (Scenario.account [])
            (Scenario.request "Update"
               (Scenario.properties (Some Scenario.shareArn) (PArray []) (Some "us-east-1")))
            Scenario.context "FAILED" None
            (Some (Text "RequestType is Update which is not supported."))),
     {| history := []; stderr := ["RequestType is Update which is not supported."] |}).
Proof.
  apply (requests_that_are_not_create_or_delete_are_refused
           (Scenario.request "Update"
              (Scenario.properties (Some Scenario.shareArn) (PArray []) (Some "us-east-1")))
           Scenario.context (Scenario.account []) Scenario.fresh); discriminate.
Defined.

(** X23.  A Delete request undoes nothing in three of the handlers:
    ResourceShareAcceptor, GlueTables and GlueDatabase answer SUCCESS at
    once, without a call and without a line in the error log, so the
    accepted share, the grants, the administrators and the database stay.
    GlueDatabase returns the physical resource id of the request (the log
    stream name when the request has none). *)
Theorem delete_requests_undo_nothing ev ctx w s :
  RequestType ev = "Delete" →
  ResourceShareAcceptor.handler ev ctx w s = (inr (succeeded w ev ctx), s) ∧
  GlueTables.handler ev ctx w s = (inr (succeeded w ev ctx), s) ∧
  GlueDatabase.handler ev ctx w s
  = (inr (responseBody w ev ctx "SUCCESS" (PhysicalResourceId ev) None), s).
Proof.
  intros Hd.
  unfold ResourceShareAcceptor.handler, GlueDatabase.handler, GlueTables.handler.
  rewrite Hd, eqb_Delete_Update, eqb_Delete_Create, eqb_Delete_Delete.
  by destruct s.
Qed.

Lemma delete_undoes_nothing_witness :
  GlueDatabase.handler (Scenario.deleteRequest None) Scenario.context
    (Scenario.account []) Scenario.occupied
  = (inr (responseBody (Scenario.account []) (Scenario.deleteRequest None) Scenario.context
            "SUCCESS" (PhysicalResourceId (Scenario.deleteRequest None)) None),
     Scenario.occupied).
Proof.
  apply (delete_requests_undo_nothing (Scenario.deleteRequest None) Scenario.context
           (Scenario.account []) Scenario.occupied eq_refl).
Defined.

(** * Every request is answered *)

Lemma AcceptorRun_status ev r st t : AcceptorRun ev r st t → st = "SUCCESS" ∨ st = "FAILED".
Proof.
  destruct 1 as [a1 Ha1|inv others st Hfound Hp ->|inv others a2 st Hfound Hp ->
                |invitations a2 st Hnone ->].
  - by right.
  - unfold decided. repeat case_bool_decide; auto.
  - destruct a2 as [n m| | | | |]; auto. destruct (String.eqb n _); auto.
  - destruct a2 as [|[|? ?]| | | |]; auto.
Qed.

Lemma DatabaseRun_status ev w st id t : DatabaseRun ev w st id t → st = "SUCCESS" ∨ st = "FAILED".
Proof.
  destruct 1 as [|a1|first others databaseArn part a2 st id Hfirst Hpattern Hpart Hst];
    [by right|by right|].
  destruct a2 as [n m| | | | |]; try (injection Hst as -> _; by left).
  destruct (String.eqb n _); injection Hst as -> _; auto.
Qed.

Lemma TablesRun_status ev w st t : TablesRun ev w st t → st = "SUCCESS" ∨ st = "FAILED".
Proof. destruct 1; auto. Qed.

Lemma ParametersRun_status ev r st t : ParametersRun ev r st t → st = "SUCCESS" ∨ st = "FAILED".
Proof. destruct 1 as [| |? ? ? ? x t st _ ->]; auto. destruct x; auto. Qed.

Lemma deleteParameters_run ev ctx w s :
  ∃ st reason t errs,
    SsmParameters.deleteParameters ev ctx w s
    = (inr (st, reason), {| history := history s ++ t; stderr := stderr s ++ errs |}) ∧
    (st = "SUCCESS" ∨ st = "FAILED").
Proof.
  unfold SsmParameters.deleteParameters, try_catch. unfold bind at 1.
  rewrite getDTRegion_run. destruct (test regionRegex _).
  - unfold SsmParameters.deleteSSMParameters. unfold bind at 1. unfold bind at 1.
    match goal with |- context [send ?c ?cmd ?w ?s] =>
      destruct (send_run c cmd w s) as (x & -> & _) end.
    destruct x as [e|r]; monad.
    + eexists _, _, [_], [_]. split; [reflexivity|by right].
    + eexists _, _, [_], []. rewrite (app_nil_r (stderr s)). split; [reflexivity|by left].
  - monad. eexists _, _, [], [_]. rewrite app_nil_r. split; [reflexivity|by right].
Qed.

Lemma sendResponse_with_run ev ctx st id reason w s :
  sendResponse_with ev ctx st id reason w s = (inr (responseBody w ev ctx st id reason), s).
Proof. by destruct reason. Qed.

Lemma sendResponse_run ev ctx st reason w s :
  sendResponse ev ctx st reason w s = (inr (responseBody w ev ctx st None reason), s).
Proof. apply sendResponse_with_run. Qed.

(** A branch of a handler that logs a reason and fails with it. *)
Ltac refuses :=
  unfold bind, console_error, ret; cbn [fst snd];
  rewrite ?sendResponse_run, ?sendResponse_with_run;
  eexists _, [], [_]; rewrite app_nil_r; (split; [reflexivity|]);
  cbn [Status responseBody]; (split; [by right|by repeat split]).

(** A branch of a handler that succeeds at once. *)
Ltac succeeds :=
  unfold bind, ret; cbn [fst snd];
  rewrite ?sendResponse_run, ?sendResponse_with_run;
  match goal with s : Machine |- _ => destruct s end;
  eexists _, [], []; cbn [history stderr]; rewrite !app_nil_r; (split; [reflexivity|]);
  cbn [Status responseBody]; (split; [by left|by repeat split]).

(** The create or delete path of a handler returned. *)
Ltac responds Hrun :=
  rewrite (bind_inr _ _ _ _ _ _ Hrun); cbn [fst snd];
  rewrite ?sendResponse_run, ?sendResponse_with_run;
  eexists _, _, _; (split; [reflexivity|]);
  cbn [Status responseBody]; by repeat split.

(** X24.  Each of the four handlers answers every request: whatever the
    request type, the properties and the answers of the services, no
    exception escapes the handler; it returns one response, with status
    SUCCESS or FAILED and with the stack id, the request id and the logical
    resource id of the request, and it only adds to the history of calls
    and to the error log. *)
Theorem every_request_is_answered :
  answers ResourceShareAcceptor.handler ∧
  answers GlueDatabase.handler ∧
  answers GlueTables.handler ∧
  answers SsmParameters.handler.
Proof.
  repeat split; intros ev ctx w s.
  - unfold ResourceShareAcceptor.handler.
    destruct (String.eqb (RequestType ev) "Update"); [refuses|].
    destruct (String.eqb (RequestType ev) "Create").
    { destruct (acceptor_run ev ctx w s) as (st & reason & t & Hrun & Hshape).
      assert (Hst : st = "SUCCESS" ∨ st = "FAILED").
      { destruct Hshape as [[_ ->]|(r & _ & _ & Hshape)]; [by right|].
        by eapply AcceptorRun_status. }
      rewrite <- (app_nil_r (stderr s)) in Hrun. responds Hrun. }
    destruct (String.eqb (RequestType ev) "Delete"); [succeeds|refuses].
  - unfold GlueDatabase.handler.
    destruct (String.eqb (RequestType ev) "Update"); [refuses|].
    destruct (String.eqb (RequestType ev) "Create").
    { destruct (database_run ev ctx w s) as (st & id & reason & t & Hrun & Hshape).
      pose proof (DatabaseRun_status _ _ _ _ _ Hshape) as Hst.
      rewrite <- (app_nil_r (stderr s)) in Hrun. responds Hrun. }
    destruct (String.eqb (RequestType ev) "Delete"); [succeeds|refuses].
  - unfold GlueTables.handler.
    destruct (String.eqb (RequestType ev) "Update"); [refuses|].
    destruct (String.eqb (RequestType ev) "Create").
    { destruct (tables_run ev ctx w s) as (st & reason & t & errs & Hrun & Hshape).
      pose proof (TablesRun_status _ _ _ _ Hshape) as Hst.
      responds Hrun. }
    destruct (String.eqb (RequestType ev) "Delete"); [succeeds|refuses].
  - unfold SsmParameters.handler.
    destruct (String.eqb (RequestType ev) "Update"); [refuses|].
    destruct (String.eqb (RequestType ev) "Create").
    { destruct (parameters_create_run ev ctx w s) as (st & reason & t & errs & Hrun & Hshape).
      assert (Hst : st = "SUCCESS" ∨ st = "FAILED").
      { destruct Hshape as [(_ & -> & _)|(_ & r & _ & Hshape)]; [by right|].
        by eapply ParametersRun_status. }
      responds Hrun. }
    destruct (String.eqb (RequestType ev) "Delete"); [|refuses].
    destruct (deleteParameters_run ev ctx w s) as (st & reason & t & errs & Hrun & Hst).
    responds Hrun.
Qed.
